(** * Dominion: a shallow embedding of the turn engine and its card effects

    The development follows the Python sources of the repository:
    [errors.py], [cards.py], [containers.py], [utilities.py], [players.py]
    and [dominion.py].  Python objects that are mutated in place live in one
    store (the [World]); an object reference is a path into that store.  A
    method is a function from the store to an outcome and the new store, so
    that the mutations made before an exception is raised are kept, as they
    are in Python. *)

From stdpp Require Import base numbers list sorting strings.

Local Open Scope Z_scope.

(** ** Exceptions ([errors.py] and the Python built-ins the code can raise) *)

Inductive exn : Type :=
  | DominionError       (* errors.DominionError *)
  | DominionPassError   (* errors.DominionPassError *)
  | DominionQuitError   (* errors.DominionQuitError *)
  | IndexError          (* list.pop / list indexing out of range *)
  | TypeError           (* ordering two objects that define no order *)
  | ValueError          (* unpacking an empty zip *)
  | AttributeError      (* calling a method the object does not have *)
  | EOFError            (* input() on an exhausted console *)
  | OutOfFuel.          (* not a Python exception: a fuelled loop of the
                           model stopped *)

Inductive result (A : Type) : Type :=
  | Ok (a : A)
  | Raise (e : exn).
Arguments Ok {A} a.
Arguments Raise {A} e.

Global Instance exn_eq_dec : EqDecision exn.
Proof. solve_decision. Defined.

(** ** Python list primitives *)

Module Py.

(** [len(l)] *)
Definition len {A} (l : list A) : Z := Z.of_nat (length l).

(** Python resolves an index [i] against a list of length [n]: a
    negative index counts from the end; anything outside
    [-n <= i < n] is an [IndexError]. *)
Definition norm_index (n : nat) (i : Z) : option nat :=
  let j := if i <? 0 then i + Z.of_nat n else i in
  if (j <? 0) || (Z.of_nat n <=? j) then None else Some (Z.to_nat j).

(** [l[i]] *)
Definition index {A} (l : list A) (i : Z) : option A :=
  k ← norm_index (length l) i; l !! k.

(** [l.pop(i)]: the element and the list without it. *)
Definition pop {A} (l : list A) (i : Z) : option (A * list A) :=
  k ← norm_index (length l) i;
  x ← l !! k;
  Some (x, delete k l).

(** [sorted(l, reverse=True)] on integers. *)
Fixpoint insert_desc (x : Z) (l : list Z) : list Z :=
  match l with
  | [] => [x]
  | y :: l' => if y <? x then x :: y :: l' else y :: insert_desc x l'
  end.

Definition sorted_reverse (l : list Z) : list Z := foldr insert_desc [] l.

(** [x in l] *)
Definition contains `{EqDecision A} (x : A) (l : list A) : bool :=
  bool_decide (x ∈ l).

(** The random source is an oracle: a stream of raw draws, read from the
    front and padded with zeros. [randbelow n] is a number below [n]. *)
Definition randbelow (n : nat) (g : list nat) : nat * list nat :=
  match g with
  | [] => (0%nat, [])
  | r :: g' => ((r `mod` n)%nat, g')
  end.

(** [x[i], x[j] = x[j], x[i]] *)
Definition swap {A} (x : list A) (i j : nat) : list A :=
  match x !! i, x !! j with
  | Some a, Some b => <[j := a]> (<[i := b]> x)
  | _, _ => x
  end.

(** [random.shuffle(x)], the Fisher-Yates loop of the standard library:
    [for i in reversed(range(1, len(x))): j = randbelow(i + 1); swap]. *)
Fixpoint shuffle_from {A} (i : nat) (x : list A) (g : list nat)
  : list A * list nat :=
  match i with
  | O => (x, g)
  | S i' =>
      let '(j, g') := randbelow (S i) g in
      shuffle_from i' (swap x i j) g'
  end.

Definition shuffle {A} (x : list A) (g : list nat) : list A * list nat :=
  shuffle_from (length x - 1)%nat x g.

End Py.

(** ** The card catalog ([cards.py]) *)

Inductive card : Type :=
  | Copper | Silver | Gold
  | Estate | Duchy | Province
  | Cellar | Market | Merchant | Militia | Mine | Moat
  | Remodel | Smithy | Village | Workshop | Festival | Laboratory.

Global Instance card_eq_dec : EqDecision card.
Proof. solve_decision. Defined.

(** The abstract class below [Card] that a card class derives from. *)
Inductive card_class : Type := Treasure | Victory | Action.

Definition class_of (c : card) : card_class :=
  match c with
  | Copper | Silver | Gold => Treasure
  | Estate | Duchy | Province => Victory
  | _ => Action
  end.

Definition class_name (k : card_class) : string :=
  match k with
  | Treasure => "Treasure"
  | Victory => "Victory"
  | Action => "Action"
  end.

(** [card.name] (for every card equal to the name of its class) *)
Definition name (c : card) : string :=
  match c with
  | Copper => "Copper" | Silver => "Silver" | Gold => "Gold"
  | Estate => "Estate" | Duchy => "Duchy" | Province => "Province"
  | Cellar => "Cellar" | Market => "Market" | Merchant => "Merchant"
  | Militia => "Militia" | Mine => "Mine" | Moat => "Moat"
  | Remodel => "Remodel" | Smithy => "Smithy" | Village => "Village"
  | Workshop => "Workshop" | Festival => "Festival"
  | Laboratory => "Laboratory"
  end.

(** [card.cost] *)
Definition cost (c : card) : Z :=
  match c with
  | Copper => 0 | Silver => 3 | Gold => 6
  | Estate => 2 | Duchy => 5 | Province => 8
  | Cellar => 2 | Market => 5 | Merchant => 3 | Militia => 4 | Mine => 5
  | Moat => 2 | Remodel => 4 | Smithy => 4 | Village => 3 | Workshop => 3
  | Festival => 5 | Laboratory => 5
  end.

(** [card.coin], an attribute of Treasure cards only *)
Definition coin (c : card) : Z :=
  match c with
  | Copper => 1 | Silver => 2 | Gold => 3
  | _ => 0
  end.

(** [getattr(card, "victory", 0)] *)
Definition victory (c : card) : Z :=
  match c with
  | Estate => 1 | Duchy => 3 | Province => 6
  | _ => 0
  end.

(** [utilities.get_parent_classes]: the class names along the MRO. *)
Definition get_parent_classes (c : card) : list string :=
  [name c; class_name (class_of c); "Card"; "object"].

(** ** Card containers ([containers.py]) *)

Record CardContainer : Type := mkContainer {
  cards : list card;
  num_cards : Z;
  id_start : Z;
  identifiers : list Z
}.

Definition with_cards (cs : list card) (c : CardContainer) : CardContainer :=
  mkContainer cs (num_cards c) (id_start c) (identifiers c).

(** [CardContainer.count_cards] *)
Definition count_cards (c : CardContainer) : CardContainer :=
  mkContainer (cards c) (Py.len (cards c)) (id_start c) (identifiers c).

(** [CardContainer.set_identifiers] *)
Definition set_identifiers (c : CardContainer) : CardContainer :=
  mkContainer (cards c) (num_cards c) (id_start c)
    (imap (fun num _ => Z.of_nat num + id_start c) (cards c)).

(** [CardContainer.__init__] *)
Definition CardContainer_init (card_list : list card) (start : Z)
  : CardContainer :=
  set_identifiers (mkContainer card_list (Py.len card_list) start []).

(** [CardContainer.shuffle], on the oracle [g] *)
Definition shuffle (c : CardContainer) (g : list nat)
  : CardContainer * list nat :=
  let '(cs, g') := Py.shuffle (cards c) g in
  (set_identifiers (with_cards cs c), g').

(** [CardContainer.add_cards] *)
Definition add_cards (new : list card) (c : CardContainer) : CardContainer :=
  count_cards (set_identifiers (with_cards (cards c ++ new) c)).

(** The loop of [remove_cards]: pop the cards at the identifiers, in the
    order given, collecting them.  The list that is left is returned in
    both cases: a failed pop keeps the pops made before it. *)
Fixpoint pop_cards (ids : list Z) (start : Z) (cs removed : list card)
  : result (list card) * list card :=
  match ids with
  | [] => (Ok removed, cs)
  | i :: ids' =>
      match Py.pop cs (i - start) with
      | None => (Raise IndexError, cs)
      | Some (x, cs') => pop_cards ids' start cs' (removed ++ [x])
      end
  end.

(** [CardContainer.remove_cards] *)
Definition remove_cards (ids : list Z) (c : CardContainer)
  : result (list card) * CardContainer :=
  if Py.len (cards c) <? Py.len ids then (Raise DominionError, c)
  else
    match pop_cards (Py.sorted_reverse ids) (id_start c) (cards c) [] with
    | (Ok removed, cs) =>
        (Ok removed, count_cards (set_identifiers (with_cards cs c)))
    | (Raise e, cs) => (Raise e, with_cards cs c)
    end.

(** The state in which every method leaves a container. *)
Definition container_ok (c : CardContainer) : Prop :=
  num_cards c = Py.len (cards c) /\
  identifiers c = imap (fun num _ => Z.of_nat num + id_start c) (cards c).

(** [CardDeck.__init__]: [num] cards of one type, identifiers from 0. *)
Definition CardDeck (card_type : card) (num : Z) : CardContainer :=
  CardContainer_init (replicate (Z.to_nat num) card_type) 0.

(** The Base Supply.  [_decks_ref] is used for printing only; building it
    reads [deck.cards[0]] of every deck, which fails on an empty deck. *)
Record Base : Type := mkBase {
  base_decks : list CardContainer;
  base_identifiers : list Z
}.

(** [Base.__init__] *)
Definition Base_init (num_players : Z) : result Base :=
  let num_victory := if 2 <? num_players then 12 else 8 in
  let decks :=
    [ CardDeck Copper (60 - num_players * 7);
      CardDeck Silver 40;
      CardDeck Gold 30;
      CardDeck Estate num_victory;
      CardDeck Duchy num_victory;
      CardDeck Province num_victory ] in
  if forallb (fun d => bool_decide (is_Some (Py.index (cards d) 0))) decks
  then Ok (mkBase decks (imap (fun i _ => Z.of_nat i) decks))
  else Raise IndexError.

(** The Kingdom Supply. *)
Record Kingdom : Type := mkKingdom {
  kingdom_decks : list CardContainer;
  kingdom_id_start : Z;
  kingdom_identifiers : list Z
}.

(** [Kingdom.first_game] and [Kingdom.solo] *)
Definition first_game : list CardContainer :=
  (fun c => CardDeck c 10) <$>
  [Cellar; Market; Merchant; Militia; Mine; Moat; Remodel; Smithy; Village;
   Workshop].

Definition solo : list CardContainer :=
  (fun c => CardDeck c 10) <$>
  [Cellar; Market; Merchant; Mine; Remodel; Smithy; Village; Workshop;
   Festival; Laboratory].

(** [Kingdom.__init__] with the default [kingdom='first_game'], the only
    way [Config] calls it.  The method also builds the random kingdom for
    its dictionary and then drops it; that only advances the random
    source and is left out. *)
Definition Kingdom_init (num_players : Z) (start : Z) : Kingdom :=
  let decks := if num_players =? 1 then solo else first_game in
  mkKingdom decks start (imap (fun i _ => Z.of_nat i + start) decks).

Record Supply : Type := mkSupply {
  base_supply : Base;
  kingdom_supply : Kingdom
}.

(** [Supply.__init__] *)
Definition Supply_init (num_players : Z) : result Supply :=
  match Base_init num_players with
  | Ok b => Ok (mkSupply b (Kingdom_init num_players (Py.len (base_decks b))))
  | Raise e => Raise e
  end.

(** [Supply.check_end_game].  The method assigns to no attribute: it is a
    function of the supply. *)
Definition Supply_check_end_game (s : Supply) : result bool :=
  let num_empty_piles :=
    Py.len (filter (fun d => num_cards d = 0)
              (base_decks (base_supply s) ++ kingdom_decks (kingdom_supply s))) in
  if 2 <? num_empty_piles then Ok true
  else
    match Py.index (base_decks (base_supply s)) 5 with
    | None => Raise IndexError
    | Some province =>
        if num_cards province =? 0 then Ok true else Ok false
    end.

(** ** Players and the shared game state ([players.py], [dominion.py]) *)

Record Player : Type := mkPlayer {
  player_name : string;
  deck : CardContainer;
  hand : CardContainer;
  discard_pile : CardContainer;
  play_mat : CardContainer;
  turns : Z;
  actions : Z;
  buys : Z;
  turn_coins : Z;
  hand_coins : Z;
  coins : Z;
  victory_points : Z
}.

(** What a player types at a prompt, as the code classifies it, in the
    order of its tests: ['pass'], ['quit'], a string containing ['help'],
    a string [int()] rejects, an integer. *)
Inductive response : Type :=
  | RPass
  | RQuit
  | RHelp
  | RText
  | RInt (z : Z).

(** The store: the [Config] object, whose [players] list holds the player
    objects (a player reference is an index into it), together with the
    console input still to be read and the random oracle. *)
Record World : Type := mkWorld {
  players : list Player;
  current_player : nat;
  other_players : list nat;
  supply : Supply;
  trash : CardContainer;
  stdin : list response;
  rng : list nat
}.

Definition empty_container : CardContainer := CardContainer_init [] 0.

Global Instance Player_inhabited : Inhabited Player :=
  populate (mkPlayer "" empty_container empty_container empty_container
              empty_container 0 0 0 0 0 0 0).

Global Instance CardContainer_inhabited : Inhabited CardContainer :=
  populate empty_container.

(** *** Field updates *)

Definition set_deck (c : CardContainer) (p : Player) : Player :=
  mkPlayer (player_name p) c (hand p) (discard_pile p) (play_mat p) (turns p)
    (actions p) (buys p) (turn_coins p) (hand_coins p) (coins p)
    (victory_points p).
Definition set_hand (c : CardContainer) (p : Player) : Player :=
  mkPlayer (player_name p) (deck p) c (discard_pile p) (play_mat p) (turns p)
    (actions p) (buys p) (turn_coins p) (hand_coins p) (coins p)
    (victory_points p).
Definition set_discard_pile (c : CardContainer) (p : Player) : Player :=
  mkPlayer (player_name p) (deck p) (hand p) c (play_mat p) (turns p)
    (actions p) (buys p) (turn_coins p) (hand_coins p) (coins p)
    (victory_points p).
Definition set_play_mat (c : CardContainer) (p : Player) : Player :=
  mkPlayer (player_name p) (deck p) (hand p) (discard_pile p) c (turns p)
    (actions p) (buys p) (turn_coins p) (hand_coins p) (coins p)
    (victory_points p).
Definition set_turns (z : Z) (p : Player) : Player :=
  mkPlayer (player_name p) (deck p) (hand p) (discard_pile p) (play_mat p) z
    (actions p) (buys p) (turn_coins p) (hand_coins p) (coins p)
    (victory_points p).
Definition set_actions (z : Z) (p : Player) : Player :=
  mkPlayer (player_name p) (deck p) (hand p) (discard_pile p) (play_mat p)
    (turns p) z (buys p) (turn_coins p) (hand_coins p) (coins p)
    (victory_points p).
Definition set_buys (z : Z) (p : Player) : Player :=
  mkPlayer (player_name p) (deck p) (hand p) (discard_pile p) (play_mat p)
    (turns p) (actions p) z (turn_coins p) (hand_coins p) (coins p)
    (victory_points p).
Definition set_turn_coins (z : Z) (p : Player) : Player :=
  mkPlayer (player_name p) (deck p) (hand p) (discard_pile p) (play_mat p)
    (turns p) (actions p) (buys p) z (hand_coins p) (coins p)
    (victory_points p).
Definition set_hand_coins (z : Z) (p : Player) : Player :=
  mkPlayer (player_name p) (deck p) (hand p) (discard_pile p) (play_mat p)
    (turns p) (actions p) (buys p) (turn_coins p) z (coins p)
    (victory_points p).
Definition set_player_coins (z : Z) (p : Player) : Player :=
  mkPlayer (player_name p) (deck p) (hand p) (discard_pile p) (play_mat p)
    (turns p) (actions p) (buys p) (turn_coins p) (hand_coins p) z
    (victory_points p).
Definition set_victory_points (z : Z) (p : Player) : Player :=
  mkPlayer (player_name p) (deck p) (hand p) (discard_pile p) (play_mat p)
    (turns p) (actions p) (buys p) (turn_coins p) (hand_coins p) (coins p) z.

Definition set_players (ps : list Player) (w : World) : World :=
  mkWorld ps (current_player w) (other_players w) (supply w) (trash w)
    (stdin w) (rng w).
Definition set_supply (s : Supply) (w : World) : World :=
  mkWorld (players w) (current_player w) (other_players w) s (trash w)
    (stdin w) (rng w).
Definition set_trash (c : CardContainer) (w : World) : World :=
  mkWorld (players w) (current_player w) (other_players w) (supply w) c
    (stdin w) (rng w).
Definition set_stdin (i : list response) (w : World) : World :=
  mkWorld (players w) (current_player w) (other_players w) (supply w)
    (trash w) i (rng w).
Definition set_rng (g : list nat) (w : World) : World :=
  mkWorld (players w) (current_player w) (other_players w) (supply w)
    (trash w) (stdin w) g.

(** [Config.set_current_player] *)
Definition set_current_player (index : nat) (w : World) : World :=
  mkWorld (players w) index
    (delete index (seq 0 (length (players w))))
    (supply w) (trash w) (stdin w) (rng w).

(** ** Methods as store transformers *)

Definition M (A : Type) : Type := World -> result A * World.

Definition ret {A} (a : A) : M A := fun w => (Ok a, w).

Definition raise {A} (e : exn) : M A := fun w => (Raise e, w).

Definition bind {A B} (m : M A) (k : A -> M B) : M B :=
  fun w =>
    match m w with
    | (Ok a, w') => k a w'
    | (Raise e, w') => (Raise e, w')
    end.

Notation "'let*' x ':=' m 'in' k" := (bind m (fun x => k))
  (at level 10, x name, m at level 100, k at level 200,
   format "'[v' 'let*'  x  ':='  m  'in' '/' k ']'").
Notation "m '>>' k" := (bind m (fun _ => k))
  (at level 100, k at level 200, right associativity).

(** [try: m except e: handler].  The handler runs on the store as the
    failed body left it. *)
Definition try_except {A} (m : M A) (e : exn) (handler : M A) : M A :=
  fun w =>
    match m w with
    | (Raise e', w') => if decide (e' = e) then handler w' else (Raise e', w')
    | r => r
    end.

Definition gets {A} (f : World -> A) : M A := fun w => (Ok (f w), w).

Definition modify (f : World -> World) : M unit := fun w => (Ok tt, f w).

(** An optional value that Python would fail to produce. *)
Definition expect {A} (o : option A) (e : exn) : M A :=
  match o with
  | Some a => ret a
  | None => raise e
  end.

(** [for _ in range(n): body] *)
Fixpoint for_range (n : nat) (body : M unit) : M unit :=
  match n with
  | O => ret tt
  | S n' => body >> for_range n' body
  end.

(** [for x in l: body x] *)
Fixpoint for_each {A} (l : list A) (body : A -> M unit) : M unit :=
  match l with
  | [] => ret tt
  | x :: l' => body x >> for_each l' body
  end.

(** [input(...)], already classified *)
Definition input : M response :=
  fun w =>
    match stdin w with
    | [] => (Raise EOFError, w)
    | r :: rest => (Ok r, set_stdin rest w)
    end.

(** *** References to containers *)

Inductive player_zone : Type := Deck | Hand | DiscardPile | PlayMat.

Inductive zone : Type :=
  | PlayerZone (p : nat) (z : player_zone)
  | TrashZone
  | BaseDeck (i : nat)
  | KingdomDeck (i : nat).

Definition player_zone_get (z : player_zone) (p : Player) : CardContainer :=
  match z with
  | Deck => deck p
  | Hand => hand p
  | DiscardPile => discard_pile p
  | PlayMat => play_mat p
  end.

Definition player_zone_set (z : player_zone) (c : CardContainer) (p : Player)
  : Player :=
  match z with
  | Deck => set_deck c p
  | Hand => set_hand c p
  | DiscardPile => set_discard_pile c p
  | PlayMat => set_play_mat c p
  end.

Definition player_at (p : nat) (w : World) : Player := players w !!! p.

Definition update_player (p : nat) (f : Player -> Player) (w : World)
  : World :=
  set_players (alter f p (players w)) w.

Definition zone_get (z : zone) (w : World) : CardContainer :=
  match z with
  | PlayerZone p pz => player_zone_get pz (player_at p w)
  | TrashZone => trash w
  | BaseDeck i => base_decks (base_supply (supply w)) !!! i
  | KingdomDeck i => kingdom_decks (kingdom_supply (supply w)) !!! i
  end.

Definition zone_set (z : zone) (c : CardContainer) (w : World) : World :=
  match z with
  | PlayerZone p pz => update_player p (player_zone_set pz c) w
  | TrashZone => set_trash c w
  | BaseDeck i =>
      let s := supply w in
      let b := base_supply s in
      set_supply
        (mkSupply (mkBase (<[i := c]> (base_decks b)) (base_identifiers b))
           (kingdom_supply s)) w
  | KingdomDeck i =>
      let s := supply w in
      let k := kingdom_supply s in
      set_supply
        (mkSupply (base_supply s)
           (mkKingdom (<[i := c]> (kingdom_decks k)) (kingdom_id_start k)
              (kingdom_identifiers k))) w
  end.

(** [z.remove_cards(ids)] on the container that [z] refers to *)
Definition remove_cards_at (z : zone) (ids : list Z) : M (list card) :=
  fun w =>
    let '(r, c) := remove_cards ids (zone_get z w) in
    (r, zone_set z c w).

(** [z.add_cards(new)] *)
Definition add_cards_at (z : zone) (new : list card) : M unit :=
  modify (fun w => zone_set z (add_cards new (zone_get z w)) w).

(** [z.shuffle()] *)
Definition shuffle_at (z : zone) : M unit :=
  modify (fun w =>
    let '(c, g) := shuffle (zone_get z w) (rng w) in
    set_rng g (zone_set z c w)).

(** [utilities.transfer] *)
Definition transfer (source target : zone) (ids : option (list Z)) : M unit :=
  let* transferred :=
    match ids with
    | None =>
        let* all := gets (fun w => identifiers (zone_get source w)) in
        remove_cards_at source all
    | Some l => remove_cards_at source l
    end in
  add_cards_at target transferred.

(** *** [Player] *)

(** The body of the [for] loop of [Player.draw]: one card. *)
Definition draw_card (self : nat) : M unit :=
  try_except
    (transfer (PlayerZone self Deck) (PlayerZone self Hand) (Some [0]))
    DominionError
    (transfer (PlayerZone self DiscardPile) (PlayerZone self Deck) None >>
     shuffle_at (PlayerZone self Deck) >>
     transfer (PlayerZone self Deck) (PlayerZone self Hand) (Some [0])).

(** [Player.draw] *)
Definition Player_draw (self : nat) (num : Z) : M unit :=
  let* me := gets (player_at self) in
  if num_cards (deck me) + num_cards (discard_pile me) <? num
  then raise DominionError
  else for_range (Z.to_nat num) (draw_card self).

(** [Player.draw_hand] *)
Definition Player_draw_hand (self : nat) : M unit := Player_draw self 5.

(** [Player.reset_points] *)
Definition Player_reset_points (self : nat) : M unit :=
  modify (update_player self
            (fun p => set_turn_coins 0 (set_buys 1 (set_actions 1 p)))).

(** [Player.increment_actions], [increment_buys], [increment_coins] *)
Definition Player_increment_actions (self : nat) (increment : Z) : M unit :=
  modify (update_player self (fun p => set_actions (actions p + increment) p)).

Definition Player_increment_buys (self : nat) (increment : Z) : M unit :=
  modify (update_player self (fun p => set_buys (buys p + increment) p)).

Definition Player_increment_coins (self : nat) (increment : Z) : M unit :=
  modify (update_player self
            (fun p => set_turn_coins (turn_coins p + increment) p)).

(** [sum(...)] over integers *)
Definition sum_list (l : list Z) : Z := foldr Z.add 0 l.

(** [Player.count_coins] *)
Definition Player_count_coins (self : nat) : M unit :=
  modify (update_player self (fun p =>
    let card_coins :=
      coin <$> filter (fun c => "Treasure" ∈ get_parent_classes c)
                 (cards (hand p)) in
    set_hand_coins (sum_list card_coins) p)).

(** [Player.set_coins] *)
Definition Player_set_coins (self : nat) : M unit :=
  Player_count_coins self >>
  modify (update_player self
            (fun p => set_player_coins (turn_coins p + hand_coins p) p)).

(** [Player.cleanup] *)
Definition Player_cleanup (self : nat) : M unit :=
  transfer (PlayerZone self PlayMat) (PlayerZone self DiscardPile) None >>
  transfer (PlayerZone self Hand) (PlayerZone self DiscardPile) None >>
  Player_draw_hand self >>
  Player_reset_points self >>
  Player_set_coins self.

(** [Player.end_game] *)
Definition Player_end_game (self : nat) : M unit :=
  transfer (PlayerZone self PlayMat) (PlayerZone self DiscardPile) None >>
  transfer (PlayerZone self Hand) (PlayerZone self DiscardPile) None >>
  transfer (PlayerZone self DiscardPile) (PlayerZone self Deck) None >>
  modify (update_player self (fun p =>
    let card_victory_pts := sum_list (victory <$> cards (deck p)) in
    set_victory_points (victory_points p + card_victory_pts) p)).

(** [Player.__init__] (and [Human.__init__], which only calls it): the new
    object is placed at the end of the store and initialised there; its
    reference is returned.  [Config.__init__] appends it to [players]. *)
Definition Human_init (nm : string) : M nat :=
  let* self := gets (fun w => length (players w)) in
  modify (fun w =>
    set_players
      (players w ++
       [mkPlayer nm
          (CardContainer_init (cards (CardDeck Copper 7)
                               ++ cards (CardDeck Estate 3)) 0)
          empty_container empty_container empty_container 0 0 0 0 0 0 0]) w) >>
  shuffle_at (PlayerZone self Deck) >>
  Player_draw_hand self >>
  Player_reset_points self >>
  Player_set_coins self >>
  ret self.

(** *** [Human]: the prompts

    Every prompt is a [while True] loop that reads one answer per
    iteration, so it is a recursion on the console input. *)

(** [Human.discard] *)
Fixpoint discard_prompt (self : nat) (ins : list response) : M unit :=
  match ins with
  | [] => raise EOFError
  | r :: rest =>
      modify (set_stdin rest) >>
      match r with
      | RPass => raise DominionPassError
      | RQuit => raise DominionQuitError
      | RHelp => discard_prompt self rest
      | RText => discard_prompt self rest
      | RInt id =>
          let* me := gets (player_at self) in
          if Py.contains id (identifiers (hand me)) then
            let* _ := expect (Py.index (cards (hand me)) id) IndexError in
            transfer (PlayerZone self Hand) (PlayerZone self DiscardPile)
              (Some [id])
          else discard_prompt self rest
      end
  end.

Definition Human_discard (self : nat) : M unit :=
  let* ins := gets stdin in discard_prompt self ins.

(** [Human.trash]; returns the cost of the trashed card. *)
Fixpoint trash_prompt (self : nat) (card_type : option string)
  (ins : list response) : M Z :=
  match ins with
  | [] => raise EOFError
  | r :: rest =>
      modify (set_stdin rest) >>
      match r with
      | RPass => raise DominionPassError
      | RQuit => raise DominionQuitError
      | RHelp => trash_prompt self card_type rest
      | RText => trash_prompt self card_type rest
      | RInt id =>
          let* me := gets (player_at self) in
          if Py.contains id (identifiers (hand me)) then
            let* c := expect (Py.index (cards (hand me)) id) IndexError in
            let accepted :=
              match card_type with
              | None => true
              | Some t => Py.contains t (get_parent_classes c)
              end in
            if accepted then
              transfer (PlayerZone self Hand) TrashZone (Some [id]) >>
              ret (cost c)
            else trash_prompt self card_type rest
          else trash_prompt self card_type rest
      end
  end.

Definition Human_trash (self : nat) (card_type : option string) : M Z :=
  let* ins := gets stdin in trash_prompt self card_type ins.

(** The pile an identifier typed at a buy prompt refers to: the base
    supply is tried first, then the kingdom supply. *)
Definition find_pile (id : Z) : M (option zone) :=
  let* s := gets supply in
  if Py.contains id (base_identifiers (base_supply s)) then
    let* k := expect (Py.norm_index (length (base_decks (base_supply s))) id)
                IndexError in
    ret (Some (BaseDeck k))
  else if Py.contains id (kingdom_identifiers (kingdom_supply s)) then
    let local_id := id - kingdom_id_start (kingdom_supply s) in
    let* k := expect (Py.norm_index
                        (length (kingdom_decks (kingdom_supply s))) local_id)
                IndexError in
    ret (Some (KingdomDeck k))
  else ret None.

(** [Human.free_buy] *)
Fixpoint free_buy_prompt (dest_pile : zone) (max_cost : Z)
  (card_type : option string) (ins : list response) : M unit :=
  match ins with
  | [] => raise EOFError
  | r :: rest =>
      modify (set_stdin rest) >>
      match r with
      | RPass => raise DominionPassError
      | RQuit => raise DominionQuitError
      | RHelp => free_buy_prompt dest_pile max_cost card_type rest
      | RText => free_buy_prompt dest_pile max_cost card_type rest
      | RInt id =>
          let* pile := find_pile id in
          match pile with
          | None => free_buy_prompt dest_pile max_cost card_type rest
          | Some z =>
              let* d := gets (zone_get z) in
              if num_cards d <? 1
              then free_buy_prompt dest_pile max_cost card_type rest
              else
                let* c := expect (Py.index (cards d) 0) IndexError in
                let accepted :=
                  match card_type with
                  | None => true
                  | Some t => Py.contains t (get_parent_classes c)
                  end in
                if negb accepted
                then free_buy_prompt dest_pile max_cost card_type rest
                else if max_cost <? cost c
                then free_buy_prompt dest_pile max_cost card_type rest
                else transfer z dest_pile (Some [0])
          end
      end
  end.

Definition Human_free_buy (self : nat) (max_cost : Z)
  (card_type : option string) (destination : string) : M unit :=
  if String.eqb destination "hand" then
    let* ins := gets stdin in
    free_buy_prompt (PlayerZone self Hand) max_cost card_type ins
  else if String.eqb destination "discard" then
    let* ins := gets stdin in
    free_buy_prompt (PlayerZone self DiscardPile) max_cost card_type ins
  else raise DominionError.

(** [Human.buy] *)
Fixpoint buy_prompt (self : nat) (ins : list response) : M unit :=
  match ins with
  | [] => raise EOFError
  | r :: rest =>
      modify (set_stdin rest) >>
      match r with
      | RPass => raise DominionPassError
      | RQuit => raise DominionQuitError
      | RHelp => buy_prompt self rest
      | RText => buy_prompt self rest
      | RInt id =>
          let* pile := find_pile id in
          match pile with
          | None => buy_prompt self rest
          | Some z =>
              let* d := gets (zone_get z) in
              if num_cards d <? 1 then buy_prompt self rest
              else
                let* c := expect (Py.index (cards d) 0) IndexError in
                let* me := gets (player_at self) in
                if coins me <? cost c then buy_prompt self rest
                else
                  modify (update_player self (fun p =>
                    set_buys (buys p - 1)
                      (set_turn_coins (turn_coins p - cost c) p))) >>
                  transfer z (PlayerZone self DiscardPile) (Some [0])
          end
      end
  end.

Definition Human_buy (self : nat) : M unit :=
  Player_set_coins self >>
  let* me := gets (player_at self) in
  if buys me <? 1 then ret tt
  else let* ins := gets stdin in buy_prompt self ins.

(** ** Card effects ([cards.py])

    [self.info()] only prints.  The loops that are not prompts carry fuel.
    Every round of such a loop reads from the console, so the callers
    supply one more than the number of answers left. *)

(** The [while] loop of [Cellar.action]; returns [num_discards]. *)
Fixpoint Cellar_loop (fuel : nat) (me : nat) (num_discards : Z) : M Z :=
  match fuel with
  | O => raise OutOfFuel
  | S fuel' =>
      let* p := gets (player_at me) in
      if 0 <? num_cards (hand p) then
        let* next :=
          try_except (Human_discard me >> ret (Some (num_discards + 1)))
            DominionPassError (ret None) in
        match next with
        | Some n => Cellar_loop fuel' me n
        | None => ret num_discards
        end
      else ret num_discards
  end.

Definition Cellar_action : M unit :=
  let* me := gets current_player in
  Player_increment_actions me 1 >>
  let* fuel := gets (fun w => S (length (stdin w))) in
  let* num_discards := Cellar_loop fuel me 0 in
  Player_draw me num_discards.

Definition Market_action : M unit :=
  let* me := gets current_player in
  Player_draw me 1 >>
  Player_increment_actions me 1 >>
  Player_increment_buys me 1 >>
  Player_increment_coins me 1.

Definition Merchant_action : M unit :=
  let* me := gets current_player in
  Player_draw me 1 >>
  Player_increment_actions me 1 >>
  let* p := gets (player_at me) in
  let has_silver :=
    existsb (fun c => String.eqb (name c) "Silver") (cards (hand p)) in
  if has_silver then Player_increment_coins me 1 else ret tt.

(** The [while len(player.hand.cards) > 3] loop of [Militia.action]. *)
Fixpoint Militia_loop (fuel : nat) (player : nat) : M unit :=
  match fuel with
  | O => raise OutOfFuel
  | S fuel' =>
      let* p := gets (player_at player) in
      if 3 <? Py.len (cards (hand p)) then
        try_except (Human_discard player) DominionPassError (ret tt) >>
        Militia_loop fuel' player
      else ret tt
  end.

(** The body of [for player in config.other_players] in [Militia.action]. *)
Definition Militia_attack (player : nat) : M unit :=
  let* p := gets (player_at player) in
  let player_cards := name <$> cards (hand p) in
  if Py.contains "Moat" player_cards then ret tt
  else
    let* fuel := gets (fun w => S (length (stdin w))) in
    Militia_loop fuel player.

Definition Militia_action : M unit :=
  let* me := gets current_player in
  Player_increment_coins me 2 >>
  let* others := gets other_players in
  for_each others Militia_attack.

Definition Mine_action : M unit :=
  let* me := gets current_player in
  try_except
    (let* card_cost := Human_trash me (Some "Treasure") in
     let max_cost := card_cost + 3 in
     Human_free_buy me max_cost (Some "Treasure") "hand")
    DominionPassError (ret tt).

Definition Moat_action : M unit :=
  let* me := gets current_player in
  Player_draw me 2.

Definition Remodel_action : M unit :=
  let* me := gets current_player in
  try_except
    (let* card_cost := Human_trash me None in
     let max_cost := card_cost + 2 in
     Human_free_buy me max_cost None "discard")
    DominionPassError (ret tt).

Definition Smithy_action : M unit :=
  let* me := gets current_player in
  Player_draw me 3.

Definition Village_action : M unit :=
  let* me := gets current_player in
  Player_draw me 1 >>
  Player_increment_actions me 2.

Definition Workshop_action : M unit :=
  let* me := gets current_player in
  Human_free_buy me 4 None "discard".

Definition Festival_action : M unit :=
  let* me := gets current_player in
  Player_increment_actions me 2 >>
  Player_increment_buys me 1 >>
  Player_increment_coins me 2.

Definition Laboratory_action : M unit :=
  let* me := gets current_player in
  Player_draw me 2 >>
  Player_increment_actions me 1.

(** [card.action(config)]: dispatch on the class of the card. *)
Definition card_action (c : card) : M unit :=
  match c with
  | Cellar => Cellar_action
  | Market => Market_action
  | Merchant => Merchant_action
  | Militia => Militia_action
  | Mine => Mine_action
  | Moat => Moat_action
  | Remodel => Remodel_action
  | Smithy => Smithy_action
  | Village => Village_action
  | Workshop => Workshop_action
  | Festival => Festival_action
  | Laboratory => Laboratory_action
  | _ => raise AttributeError
  end.

(** ** The turn ([players.py]) *)

(** The four statements of [Human.action] that play the chosen card. *)
Definition play_card (self : nat) (id : Z) : M unit :=
  modify (update_player self (fun p => set_actions (actions p - 1) p)) >>
  transfer (PlayerZone self Hand) (PlayerZone self PlayMat) (Some [id]) >>
  let* me := gets (player_at self) in
  let* c := expect (Py.index (cards (play_mat me)) (-1)) IndexError in
  card_action c >>
  transfer (PlayerZone self PlayMat) (PlayerZone self DiscardPile)
    (Some [-1]).

(** [Human.action] *)
Fixpoint action_prompt (self : nat) (ins : list response) : M unit :=
  match ins with
  | [] => raise EOFError
  | r :: rest =>
      modify (set_stdin rest) >>
      match r with
      | RPass => raise DominionPassError
      | RQuit => raise DominionQuitError
      | RHelp => action_prompt self rest
      | RText => action_prompt self rest
      | RInt id =>
          let* me := gets (player_at self) in
          if Py.contains id (identifiers (hand me)) then
            let* c := expect (Py.index (cards (hand me)) id) IndexError in
            if negb (Py.contains "Action" (get_parent_classes c))
            then action_prompt self rest
            else play_card self id
          else action_prompt self rest
      end
  end.

Definition Human_action (self : nat) : M unit :=
  Player_set_coins self >>
  let* me := gets (player_at self) in
  if actions me <? 1 then ret tt
  else let* ins := gets stdin in action_prompt self ins.

(** The [while self.actions > 0] loop of [Human.action_phase]. *)
Fixpoint action_loop (fuel : nat) (self : nat) : M unit :=
  match fuel with
  | O => raise OutOfFuel
  | S fuel' =>
      let* me := gets (player_at self) in
      if 0 <? actions me then
        let* again :=
          try_except (Human_action self >> ret true) DominionPassError
            (modify (update_player self (set_actions 0)) >> ret false) in
        if again : bool then action_loop fuel' self else ret tt
      else ret tt
  end.

(** [Human.action_phase] *)
Definition Human_action_phase (self : nat) : M unit :=
  let* me := gets (player_at self) in
  if 0 <? actions me then
    Player_set_coins self >>
    let* fuel := gets (fun w => S (length (stdin w))) in
    action_loop fuel self
  else ret tt.

(** The [while self.buys > 0] loop of [Human.buy_phase]. *)
Fixpoint buy_loop (fuel : nat) (self : nat) : M unit :=
  match fuel with
  | O => raise OutOfFuel
  | S fuel' =>
      let* me := gets (player_at self) in
      if 0 <? buys me then
        let* again :=
          try_except (Human_buy self >> ret true) DominionPassError
            (modify (update_player self (set_buys 0)) >> ret false) in
        if again : bool then buy_loop fuel' self else ret tt
      else ret tt
  end.

(** [Human.buy_phase] *)
Definition Human_buy_phase (self : nat) : M unit :=
  let* me := gets (player_at self) in
  if 0 <? buys me then
    Player_set_coins self >>
    let* fuel := gets (fun w => S (length (stdin w))) in
    buy_loop fuel self
  else ret tt.

(** [Human.turn] *)
Definition Human_turn (self : nat) : M unit :=
  modify (update_player self (fun p => set_turns (turns p + 1) p)) >>
  Human_action_phase self >>
  Human_buy_phase self >>
  Player_cleanup self.

(** ** End of the game ([dominion.py]) *)

(** The first loop of [Game.end_game]: finalize each player and record
    the score next to the player. *)
Fixpoint finalize_players (ps : list nat) : M (list (Z * nat)) :=
  match ps with
  | [] => ret []
  | p :: ps' =>
      Player_end_game p >>
      let* me := gets (player_at p) in
      let* rest := finalize_players ps' in
      ret ((victory_points me, p) :: rest)
  end.

(** [sorted(zip(end_game_victory, end_game_players), reverse=True)].
    The entries are tuples [(points, player)].  Python orders tuples by
    their first components that differ; two entries with the same points
    are then ordered by their players, and [Human] defines no order:
    [TypeError].  A sort has to compare two entries that end up next to
    each other, so equal points of two players always reach that
    comparison. *)
Fixpoint insert_pair_desc (x : Z * nat) (l : list (Z * nat))
  : result (list (Z * nat)) :=
  match l with
  | [] => Ok [x]
  | y :: l' =>
      if y.1 <? x.1 then Ok (x :: y :: l')
      else if x.1 <? y.1 then
        match insert_pair_desc x l' with
        | Ok r => Ok (y :: r)
        | Raise e => Raise e
        end
      else if decide (x.2 = y.2) then Ok (x :: y :: l')
      else Raise TypeError
  end.

Fixpoint sorted_pairs_reverse (l : list (Z * nat))
  : result (list (Z * nat)) :=
  match l with
  | [] => Ok []
  | x :: l' =>
      match sorted_pairs_reverse l' with
      | Ok r => insert_pair_desc x r
      | Raise e => Raise e
      end
  end.

(** The loop of [Game.end_game] that gives the places. [place] is the
    place given last, [prev] the score before the current one. *)
Fixpoint places_from (place prev : Z) (end_game_victory : list Z) : list Z :=
  match end_game_victory with
  | [] => []
  | v :: rest =>
      let place' := if bool_decide (v ≠ prev) then place + 1 else place in
      place' :: places_from place' v rest
  end.

Definition assign_places (end_game_victory : list Z) : list Z :=
  match end_game_victory with
  | [] => []
  | v :: rest => 1 :: places_from 1 v rest
  end.

(** [Game.end_game]; returns [places], [end_game_victory] and
    [end_game_players] as they are after the loops. *)
Definition Game_end_game : M (list Z * list Z * list nat) :=
  let* n := gets (fun w => length (players w)) in
  let* scored := finalize_players (seq 0 n) in
  match sorted_pairs_reverse scored with
  | Raise e => raise e
  | Ok [] => raise ValueError
  | Ok ranked =>
      let end_game_victory := fst <$> ranked in
      let end_game_players := snd <$> ranked in
      ret (assign_places end_game_victory, end_game_victory, end_game_players)
  end.

(** ** Vocabulary of the statements *)

(** The container with cards [cs] as a method leaves it: identifiers and
    count brought up to date. *)
Definition refresh (cs : list card) (c : CardContainer) : CardContainer :=
  count_cards (set_identifiers (with_cards cs c)).

(** A container of a player: well kept and numbered from 0. *)
Definition zone_ok (c : CardContainer) : Prop :=
  container_ok c /\ id_start c = 0.

Definition player_ok (p : Player) : Prop :=
  zone_ok (deck p) /\ zone_ok (hand p) /\ zone_ok (discard_pile p) /\
  zone_ok (play_mat p).



(** The store with the player object at [p] replaced. *)
Definition put_player (p : nat) (pl : Player) (w : World) : World :=
  set_players (<[p := pl]> (players w)) w.

(** A reference to a player object that is in the store. *)
Definition valid (p : nat) (w : World) : Prop :=
  (p < length (players w))%nat.

(** All piles of the supply, base piles first. *)
Definition all_piles (s : Supply) : list CardContainer :=
  base_decks (base_supply s) ++ kingdom_decks (kingdom_supply s).

(** The number of piles that hold no card. *)
Definition empty_piles (s : Supply) : nat :=
  length (filter (fun d => cards d = []) (all_piles s)).

(** A supply as [Supply.__init__] builds it and the game keeps it: six
    base piles (the Province pile is the sixth), every pile well kept. *)
Definition supply_ok (s : Supply) : Prop :=
  length (base_decks (base_supply s)) = 6%nat /\
  Forall container_ok (all_piles s).

(** The pile that the identifier [id] typed at a buy prompt selects. *)
Inductive identifies (s : Supply) (id : Z) : zone -> Prop :=
  | identifies_base k :
      id ∈ base_identifiers (base_supply s) ->
      Py.norm_index (length (base_decks (base_supply s))) id = Some k ->
      identifies s id (BaseDeck k)
  | identifies_kingdom k :
      id ∉ base_identifiers (base_supply s) ->
      id ∈ kingdom_identifiers (kingdom_supply s) ->
      Py.norm_index (length (kingdom_decks (kingdom_supply s)))
        (id - kingdom_id_start (kingdom_supply s)) = Some k ->
      identifies s id (KingdomDeck k).


(** The player after [set_coins]: the coins in hand counted and added to
    the coins of the turn. *)
Definition coins_counted (pl : Player) : Player :=
  let hc := sum_list (coin <$> filter (fun c => "Treasure" ∈ get_parent_classes c)
                                 (cards (hand pl))) in
  set_player_coins (turn_coins pl + hc) (set_hand_coins hc pl).

(** The player who has just put the [k]-th card of the hand, [c], on the
    play mat: one action is spent and the effect of [c] has not run yet. *)
Definition card_played (k : nat) (c : card) (pl : Player) : Player :=
  set_play_mat (refresh (cards (play_mat pl) ++ [c]) (play_mat pl))
    (set_hand (refresh (delete k (cards (hand pl))) (hand pl))
       (set_actions (actions pl - 1) pl)).


(** The player whose deck, hand and discard pile hold the cards [d], [h]
    and [dp]; everything else is as in [pl]. *)
Definition with_zones (d h dp : list card) (pl : Player) : Player :=
  set_discard_pile (refresh dp (discard_pile pl))
    (set_hand (refresh h (hand pl)) (set_deck (refresh d (deck pl)) pl)).


(** The player who has moved the cards [moved], in that order, from the
    hand to the discard pile and keeps [h] in hand; nothing else of [pl]
    differs. *)
Definition discarded (h moved : list card) (pl : Player) : Player :=
  set_discard_pile
    (refresh (cards (discard_pile pl) ++ moved) (discard_pile pl))
    (set_hand (refresh h (hand pl)) pl).

(** The defender holds the Reaction card. *)
Definition reveals_moat (pl : Player) : Prop :=
  "Moat" ∈ (name <$> cards (hand pl)).

(** The ways the resolution of an attack can end: normally, or by the
    game being quit or the console being closed at a prompt. *)
Definition attack_outcome (r : result unit) : Prop :=
  r = Ok tt \/ r = Raise DominionQuitError \/ r = Raise EOFError.


(** What one call of [Human.discard] by the player [self] does to the
    store [w]: a card of the hand goes to the discard pile, or the prompt
    is left by pass or quit, each after at least one answer was read, or
    the input ends. *)
Inductive discard_step (self : nat) (w : World) : result unit -> World -> Prop :=
  | discard_step_moved k x rest :
      cards (hand (player_at self w)) !! k = Some x ->
      (length rest < length (stdin w))%nat ->
      discard_step self w (Ok tt)
        (put_player self
           (discarded (delete k (cards (hand (player_at self w)))) [x]
              (player_at self w))
           (set_stdin rest w))
  | discard_step_pass rest :
      (length rest < length (stdin w))%nat ->
      discard_step self w (Raise DominionPassError) (set_stdin rest w)
  | discard_step_quit rest :
      (length rest < length (stdin w))%nat ->
      discard_step self w (Raise DominionQuitError) (set_stdin rest w)
  | discard_step_eof :
      discard_step self w (Raise EOFError) (set_stdin [] w).


(** What the resolution of an attack does to the defender [player]: cards
    of the hand move to the discard pile of the defender and answers of
    the console are used up. *)
Definition forced_discard (player : nat) (w : World) (r : result unit)
  (w' : World) : Prop :=
  exists h moved rest,
    w' = put_player player (discarded h moved (player_at player w))
           (set_stdin rest w) /\
    cards (hand (player_at player w)) ≡ₚ h ++ moved /\
    attack_outcome r /\
    (r = Ok tt -> (length h <= 3)%nat).




(** A method leaves the observation [obs] of the store as it was,
    whatever its outcome. *)
Definition preserves {A X : Type} (obs : World -> X) (m : M A) : Prop :=
  forall w, obs (m w).2 = obs w.


(** The play mats of all the players, in the order of the players. *)
Definition play_mats (w : World) : list CardContainer :=
  play_mat <$> players w.

(** A container that is not a play mat; an update of a player object
    that keeps the play mat. *)
Definition off_mat (z : zone) : Prop := forall p, z <> PlayerZone p PlayMat.

Definition keeps_mat (f : Player -> Player) : Prop :=
  forall pl, play_mat (f pl) = play_mat pl.


(** The play mat of the player [self] holds the cards [cs] (and is
    numbered from 0, as every container of a player is). *)
Definition mat_holds (self : nat) (cs : list card) (w : World) : Prop :=
  exists c, play_mats w !! self = Some c /\ cards c = cs /\ id_start c = 0.

(** How a call of [Human.action] by [self], whose play mat holds [cs],
    can end. *)
Inductive action_outcome (self : nat) (cs : list card) (w : World)
  : result unit -> World -> Prop :=
  | no_action_left w' :
      (* the player has no action: the method returns at once *)
      actions (player_at self w) < 1 ->
      mat_holds self cs w' ->
      action_outcome self cs w (Ok tt) w'
  | card_completed x w' :
      (* the effect of the card [x] completed: [x] left the play mat and
         is the last card of the discard pile *)
      mat_holds self cs w' ->
      last (cards (discard_pile (player_at self w'))) = Some x ->
      action_outcome self cs w (Ok tt) w'
  | prompt_left e w' :
      (* no card reached the play mat *)
      mat_holds self cs w' ->
      action_outcome self cs w (Raise e) w'
  | effect_raised e x w' :
      (* the effect of the card [x] raised [e]: [x] stays on the play mat *)
      mat_holds self (cs ++ [x]) w' ->
      action_outcome self cs w (Raise e) w'.

(** The stores in which the [while] loop of [Human.action_phase], started
    in [w], offers the next choice: it calls [Human.action] there. *)
Inductive offered (self : nat) (w : World) : World -> Prop :=
  | offered_first :
      0 < actions (player_at self w) -> offered self w w
  | offered_next w1 w2 :
      offered self w w1 ->
      Human_action self w1 = (Ok tt, w2) ->
      0 < actions (player_at self w2) ->
      offered self w w2.




(** ** Example states *)

(** The supply of a two-player game. *)
Definition example_supply : Supply :=
  mkSupply
    (mkBase
       [ CardDeck Copper 46; CardDeck Silver 40; CardDeck Gold 30;
         CardDeck Estate 8; CardDeck Duchy 8; CardDeck Province 8 ]
       [0; 1; 2; 3; 4; 5])
    (Kingdom_init 2 6).

(** A player at the start of a turn, with the given deck, hand and
    discard pile. *)
Definition example_player (nm : string) (d h dp : list card) : Player :=
  mkPlayer nm (CardContainer_init d 0) (CardContainer_init h 0)
    (CardContainer_init dp 0) empty_container 0 1 1 0 0 0 0.

(** A game in which the first player is to play, with the given console
    input. *)
Definition example_world (ps : list Player) (ins : list response) : World :=
  set_current_player 0
    (mkWorld ps 0 [] example_supply empty_container ins [3; 1; 4; 1; 5]%nat).

(** Ann plays, Bob holds a Moat, Cy does not. *)
Definition example_table (ann_hand : list card) (ins : list response)
  : World :=
  example_world
    [ example_player "Ann" [Copper; Estate; Copper; Copper; Estate] ann_hand
        [Silver; Gold; Copper];
      example_player "Bob" [Copper; Copper] [Moat; Copper; Copper; Estate; Copper]
        [];
      example_player "Cy" [Copper; Copper] [Estate; Copper; Copper; Estate; Copper]
        [] ]
    ins.




(** A player who has to shuffle in the middle of drawing four cards. *)
Definition example_draw : World :=
  example_world
    [example_player "Ann" [Copper; Estate] [] [Silver; Gold; Copper]] [].


(** Ann holds a Workshop; she will play it and decline the gain. *)
Definition example_workshop : World :=
  example_table [Workshop; Copper] [RInt 0; RPass; RPass].


(** The method, run with at most [n] answers left on the console, leaves
    at most [n] and does not stop for want of fuel. *)
Definition bounded {A : Type} (n : nat) (m : M A) : Prop :=
  forall w, (length (stdin w) <= n)%nat ->
            (m w).1 <> Raise OutOfFuel /\ (length (stdin (m w).2) <= n)%nat.

(** The method reads at least one answer, unless the console is closed. *)
Definition reads_answer {A : Type} (m : M A) (w : World) : Prop :=
  (m w).1 = Raise EOFError \/
  (length (stdin (m w).2) < length (stdin w))%nat.


(** The answers left once a prompt started on the input [ins] has read
    its first answer; on no input the prompt leaves the console as it
    is. *)
Definition prompt_room (ins : list response) (w : World) : nat :=
  match ins with
  | [] => length (stdin w)
  | _ :: rest => length rest
  end.


(** The card type a prompt asks for admits the card [c]. *)
Definition of_type (card_type : option string) (c : card) : Prop :=
  forall t, card_type = Some t -> t ∈ get_parent_classes c.

(** What one call of [Human.trash] by the player [self] does to the store
    [w]: a card of the hand that is of the type asked for goes to the
    trash and its cost is returned, or the prompt is left by pass or
    quit, each after at least one answer was read, or the input ends. *)
Inductive trash_step (self : nat) (card_type : option string) (w : World)
  : result Z -> World -> Prop :=
  | trash_step_moved k x rest :
      cards (hand (player_at self w)) !! k = Some x ->
      of_type card_type x ->
      (length rest < length (stdin w))%nat ->
      trash_step self card_type w (Ok (cost x))
        (set_trash (refresh (cards (trash w) ++ [x]) (trash w))
           (put_player self
              (set_hand
                 (refresh (delete k (cards (hand (player_at self w))))
                    (hand (player_at self w)))
                 (player_at self w))
              (set_stdin rest w)))
  | trash_step_pass rest :
      (length rest < length (stdin w))%nat ->
      trash_step self card_type w (Raise DominionPassError) (set_stdin rest w)
  | trash_step_quit rest :
      (length rest < length (stdin w))%nat ->
      trash_step self card_type w (Raise DominionQuitError) (set_stdin rest w)
  | trash_step_eof :
      trash_step self card_type w (Raise EOFError) (set_stdin [] w).

(** Every pile of the supply is well kept and numbered from 0, as
    [CardDeck] builds it. *)
Definition piles_ok (s : Supply) : Prop := Forall zone_ok (all_piles s).

(** The store after the first card [c] of the pile [z], which holds
    [c :: pile_rest], has gone to the container [dest]. *)
Definition gained (z dest : zone) (c : card) (pile_rest : list card)
  (w : World) : World :=
  let w1 := zone_set z (refresh pile_rest (zone_get z w)) w in
  zone_set dest (refresh (cards (zone_get dest w1) ++ [c]) (zone_get dest w1))
    w1.

(** What a gain prompt of [Human.free_buy] with destination container
    [dest] does to the store [w]: the first card of a pile of the supply
    that is not empty, of the type asked for and costing at most
    [max_cost], goes to [dest]; or the prompt is left by pass or quit,
    each after at least one answer was read; or the input ends. *)
Inductive gain_step (dest : zone) (max_cost : Z) (card_type : option string)
  (w : World) : result unit -> World -> Prop :=
  | gain_step_gained id z c pile_rest rest :
      identifies (supply w) id z ->
      cards (zone_get z w) = c :: pile_rest ->
      of_type card_type c ->
      cost c <= max_cost ->
      (length rest < length (stdin w))%nat ->
      gain_step dest max_cost card_type w (Ok tt)
        (gained z dest c pile_rest (set_stdin rest w))
  | gain_step_pass rest :
      (length rest < length (stdin w))%nat ->
      gain_step dest max_cost card_type w (Raise DominionPassError)
        (set_stdin rest w)
  | gain_step_quit rest :
      (length rest < length (stdin w))%nat ->
      gain_step dest max_cost card_type w (Raise DominionQuitError)
        (set_stdin rest w)
  | gain_step_eof :
      gain_step dest max_cost card_type w (Raise EOFError) (set_stdin [] w).


(** The supply as [Supply.__init__] builds it and the game keeps it: the
    piles well kept and numbered from 0, the identifiers of the base piles
    counting from 0 and those of the kingdom piles from the kingdom's
    [id_start]. *)
Definition supply_wf (s : Supply) : Prop :=
  piles_ok s /\
  base_identifiers (base_supply s)
  = imap (fun i _ => Z.of_nat i) (base_decks (base_supply s)) /\
  kingdom_identifiers (kingdom_supply s)
  = imap (fun i _ => Z.of_nat i + kingdom_id_start (kingdom_supply s))
      (kingdom_decks (kingdom_supply s)).


(** The player who has paid [c] with one buy: the cost is taken from the
    coins of the turn. *)
Definition paid (c : card) (p : Player) : Player :=
  set_buys (buys p - 1) (set_turn_coins (turn_coins p - cost c) p).

(** What the prompt of [Human.buy] does to the store [w], in which the
    coins of the player [self] are counted: the first card of a pile that
    is not empty and that the player can afford goes to the end of the
    discard pile and is paid; or the prompt is left by pass or quit, each
    after at least one answer was read; or the input ends. *)
Inductive buy_step (self : nat) (w : World) : result unit -> World -> Prop :=
  | buy_step_bought id z c pile_rest rest :
      identifies (supply w) id z ->
      cards (zone_get z w) = c :: pile_rest ->
      cost c <= coins (player_at self w) ->
      (length rest < length (stdin w))%nat ->
      buy_step self w (Ok tt)
        (gained z (PlayerZone self DiscardPile) c pile_rest
           (update_player self (paid c) (set_stdin rest w)))
  | buy_step_pass rest :
      (length rest < length (stdin w))%nat ->
      buy_step self w (Raise DominionPassError) (set_stdin rest w)
  | buy_step_quit rest :
      (length rest < length (stdin w))%nat ->
      buy_step self w (Raise DominionQuitError) (set_stdin rest w)
  | buy_step_eof :
      buy_step self w (Raise EOFError) (set_stdin [] w).

(** The outcome of an effect that catches the pass signal of the prompts
    it calls. *)
Definition pass_caught (r : result unit) : result unit :=
  match r with
  | Raise DominionPassError => Ok tt
  | _ => r
  end.

(** What Mine and Remodel do for the player [me]: a card of the hand, of
    the type [card_type] if one is given, is trashed; then a card that
    costs at most [bonus] more than the trashed one is gained to [dest].
    A pass at either prompt ends the effect normally: at the second one
    with the card trashed and nothing gained. *)
Definition trash_then_gain (me : nat) (card_type : option string) (bonus : Z)
  (dest : zone) (w : World) (r : result unit) (w' : World) : Prop :=
  exists r1 w1,
    trash_step me card_type w r1 w1 /\
    match r1 with
    | Ok card_cost =>
        exists r2,
          gain_step dest (card_cost + bonus) card_type w1 r2 w' /\
          r = pass_caught r2
    | Raise e => w' = w1 /\ r = pass_caught (Raise e)
    end.



(** Ann holds three Coppers and asks for a Province, then for a Silver. *)
Definition example_buy : World :=
  example_table [Copper; Copper; Copper] [RInt 5; RInt 1].


(** The ways an effect that prompts the player ends when it catches the
    pass signal: normally, or by the game being quit or the console being
    closed. *)
Definition effect_outcome (r : result unit) : Prop :=
  r = Ok tt \/ r = Raise DominionQuitError \/ r = Raise EOFError.


(** The player who has moved all cards of the play mat and then all cards
    of the hand to the discard pile, as [Player.cleanup] starts: each
    container arrives last card first. *)
Definition swept (pl : Player) : Player :=
  set_hand (refresh [] (hand pl))
    (set_discard_pile
       (refresh (cards (discard_pile pl) ++ reverse (cards (play_mat pl))
                 ++ reverse (cards (hand pl)))
          (discard_pile pl))
       (set_play_mat (refresh [] (play_mat pl)) pl)).

(** The player at the start of the next turn: one action, one buy, no
    coins of the turn, the coins in hand counted. *)
Definition readied (pl : Player) : Player :=
  coins_counted (set_turn_coins 0 (set_buys 1 (set_actions 1 pl))).


(** Ann discards two Estates to a Cellar and passes. *)
Definition example_cellar : World :=
  example_table [Copper; Estate; Estate] [RInt 1; RInt 1; RPass].

(** A player who owns three cards only. *)
Definition example_short : World :=
  example_world [example_player "Ann" [Copper] [Estate] [Silver]] [].


(** A method keeps the property [I] of the store, whatever its outcome. *)
Definition keeps {A : Type} (I : World -> Prop) (m : M A) : Prop :=
  forall w, I w -> I (m w).2.

(** The player [pl'] differs from [pl] in the hand and the discard pile
    at most. *)
Definition same_but_hand_and_discard (pl pl' : Player) : Prop :=
  pl' = set_discard_pile (discard_pile pl') (set_hand (hand pl') pl).

(** A container that a turn of the player [q] may change while the
    player [p] only stands by: any container but the deck and the play
    mat of [p]. *)
Definition beside (p : nat) (z : zone) : Prop :=
  match z with
  | PlayerZone p' pz => p' <> p \/ pz = Hand \/ pz = DiscardPile
  | _ => True
  end.

(** It is the turn of [q], and [p] is as [pl] was, but for the hand and
    the discard pile. *)
Definition stands_by (q p : nat) (pl : Player) (w : World) : Prop :=
  current_player w = q /\ same_but_hand_and_discard pl (player_at p w).


(** The pile that an identifier names is a pile of the supply. *)
Definition is_pile (pile : option zone) : Prop :=
  match pile with
  | Some (BaseDeck _) | Some (KingdomDeck _) | None => True
  | _ => False
  end.


(** Ann plays a Militia and ends her turn; Cy discards two cards. *)
Definition example_militia_turn : World :=
  example_table [Militia; Copper] [RInt 0; RInt 0; RInt 0; RPass].


(** All the cards a player owns. *)
Definition player_cards (pl : Player) : list card :=
  cards (deck pl) ++ cards (hand pl) ++ cards (discard_pile pl)
  ++ cards (play_mat pl).

(** All the cards of the game: those of the players, the trash and the
    piles of the supply. *)
Definition census (w : World) : list card :=
  (players w ≫= player_cards) ++ cards (trash w)
  ++ (base_decks (base_supply (supply w)) ≫= cards)
  ++ (kingdom_decks (kingdom_supply (supply w)) ≫= cards).

(** The number of copies of the card [k] in a container, with a player
    and in the game. *)
Definition holds (k : card) (c : CardContainer) : nat :=
  count_occ card_eq_dec (cards c) k.

Definition player_holds (k : card) (pl : Player) : nat :=
  (holds k (deck pl) + holds k (hand pl) + holds k (discard_pile pl)
   + holds k (play_mat pl))%nat.

Definition stock (k : card) (w : World) : nat :=
  (sum_list_with (player_holds k) (players w) + holds k (trash w)
   + sum_list_with (holds k) (base_decks (base_supply (supply w)))
   + sum_list_with (holds k) (kingdom_decks (kingdom_supply (supply w))))%nat.

(** A reference to a container that is in the store. *)
Definition zone_in (z : zone) (w : World) : Prop :=
  match z with
  | PlayerZone p _ => valid p w
  | TrashZone => True
  | BaseDeck i => (i < length (base_decks (base_supply (supply w))))%nat
  | KingdomDeck i =>
      (i < length (kingdom_decks (kingdom_supply (supply w))))%nat
  end.

(** An update of a player object that leaves its containers alone. *)
Definition keeps_zones (f : Player -> Player) : Prop :=
  forall pl, deck (f pl) = deck pl /\ hand (f pl) = hand pl /\
             discard_pile (f pl) = discard_pile pl /\
             play_mat (f pl) = play_mat pl.

(** The transfers of a turn of the player [q]: a card of a hand to the
    trash or to the discard pile of the same player; or to a container of
    [q], from a pile of the supply or from another container of [q].  One
    card is named, or all the cards of a container of a player are
    meant. *)
Definition turn_transfer (q : nat) (source target : zone)
  (ids : option (list Z)) : Prop :=
  ((exists a, source = PlayerZone a Hand /\
              (target = TrashZone \/ target = PlayerZone a DiscardPile)) \/
   (exists z, target = PlayerZone q z /\
              ((exists i, source = BaseDeck i) \/
               (exists i, source = KingdomDeck i) \/
               (exists z', source = PlayerZone q z')))) /\
  match ids with
  | None => exists a z, source = PlayerZone a z
  | Some l => (length l <= 1)%nat
  end.

(** It is the turn of [q], the containers of all players are well kept,
    and the game holds [n] copies of the card [k]. *)
Definition conserving (q : nat) (k : card) (n : nat) (w : World) : Prop :=
  current_player w = q /\ valid q w /\ Forall player_ok (players w) /\
  stock k w = n.


(** ** The game loop ([dominion.py]) *)

(** How the loop over the players in [Game.play_game] is left: at its
    end, by [has_ended = True; break], or by [return]. *)
Inductive round_end : Type :=
  | RoundDone
  | GameEnded
  | GameLeft.

(** [self.config.supply.check_end_game()] *)
Definition check_end_game : M bool :=
  let* s := gets supply in
  match Supply_check_end_game s with
  | Ok ended => ret ended
  | Raise e => raise e
  end.

(** [for player_num, player in enumerate(self.config.players)], on the
    player numbers that are left.  The handler of [DominionError]
    evaluates ["Encountered an error while playing. " + e], a string plus
    an exception: [TypeError], which no clause of the statement catches.
    The handler of [DominionQuitError] returns. *)
Fixpoint play_round (player_nums : list nat) : M round_end :=
  match player_nums with
  | [] => ret RoundDone
  | player_num :: rest =>
      modify (set_current_player player_num) >>
      let* ended := check_end_game in
      if ended : bool then ret GameEnded
      else
        let* left :=
          try_except
            (try_except (Human_turn player_num >> ret false)
               DominionError (raise TypeError))
            DominionQuitError (ret true) in
        if left : bool then ret GameLeft else play_round rest
  end.

(** [while not has_ended]; returns the number of the turn in which the
    game ended, or nothing when the game was left. *)
Fixpoint play_rounds (fuel : nat) (turn : Z) : M (option Z) :=
  match fuel with
  | O => raise OutOfFuel
  | S fuel' =>
      let* n := gets (fun w => length (players w)) in
      let* e := play_round (seq 0 n) in
      match e with
      | RoundDone => play_rounds fuel' (turn + 1)
      | GameEnded => ret (Some (turn + 1))
      | GameLeft => ret None
      end
  end.

(** [Game.play_game]; returns what [end_game] has computed, or nothing
    when the game was left.  Every round but the first reads from the
    console, so two more rounds than there are answers left are enough. *)
Definition Game_play_game : M (option (list Z * list Z * list nat)) :=
  let* fuel := gets (fun w => S (S (length (stdin w)))) in
  let* ended := play_rounds fuel 0 in
  match ended with
  | Some _ => let* outcome := Game_end_game in ret (Some outcome)
  | None => ret None
  end.

(** It is the turn of [q] and [n] players are in the game. *)
Definition seated (q n : nat) (w : World) : Prop :=
  current_player w = q /\ length (players w) = n.


(** What the [try] statement of [Game.play_game] makes of the outcome of a
    turn: whether the game is left, or the exception that escapes. *)
Definition turn_outcome (r : result unit) : result bool :=
  match r with
  | Ok _ => Ok false
  | Raise DominionQuitError => Ok true
  | Raise DominionError => Raise TypeError
  | Raise e => Raise e
  end.


(** It is the turn of [q]; the containers of the players and the piles of
    the supply are well kept, as every method leaves them. *)
Definition table_ok (q : nat) (w : World) : Prop :=
  current_player w = q /\ valid q w /\ Forall player_ok (players w) /\
  supply_wf (supply w).

(** Run in the store [w], the method raises no exception outside
    [allowed]. *)
Definition raises_only {A : Type} (allowed : list exn) (m : M A) (w : World)
  : Prop :=
  forall e, (m w).1 = Raise e -> e ∈ allowed.


(** At a well-kept table where it is the turn of [q], the method leaves
    the table well kept and raises no exception outside [allowed]. *)
Definition fails_only {A : Type} (q : nat) (allowed : list exn) (m : M A)
  : Prop :=
  forall w, table_ok q w -> table_ok q (m w).2 /\ raises_only allowed m w.


(** A game under way: the containers of the players and the piles of the
    supply are well kept, and the supply has its sixth base pile, the
    Province pile. *)
Definition game_ok (w : World) : Prop :=
  Forall player_ok (players w) /\ supply_wf (supply w) /\
  zone_in (BaseDeck 5) w.

(** * Properties *)

(** ** Python lists *)

Section PyLists.
Context {A : Type}.
Implicit Types (l : list A) (i : Z) (k n : nat).

Lemma norm_index_None n i :
  Py.norm_index n i = None <-> Z.of_nat n <= i \/ i < - Z.of_nat n.
Proof.
  unfold Py.norm_index.
  destruct (Z.ltb_spec i 0);
    repeat match goal with
           | |- context [?a <? ?b] => destruct (Z.ltb_spec a b)
           | |- context [?a <=? ?b] => destruct (Z.leb_spec a b)
           end; simpl; split; intros; try discriminate; try lia; try done.
Qed.

Lemma norm_index_Some n i k :
  Py.norm_index n i = Some k ->
  (k < n)%nat /\ Z.of_nat k = (if i <? 0 then i + Z.of_nat n else i).
Proof.
  unfold Py.norm_index.
  destruct (Z.ltb_spec i 0);
    repeat match goal with
           | |- context [?a <? ?b] => destruct (Z.ltb_spec a b)
           | |- context [?a <=? ?b] => destruct (Z.leb_spec a b)
           end; simpl; intros [= <-]; lia.
Qed.

Lemma norm_index_nonneg n i :
  0 <= i < Z.of_nat n -> Py.norm_index n i = Some (Z.to_nat i).
Proof.
  intros. unfold Py.norm_index.
  destruct (Z.ltb_spec i 0); [lia|].
  destruct (Z.ltb_spec i 0); [lia|].
  destruct (Z.leb_spec (Z.of_nat n) i); [lia|]. done.
Qed.

Lemma norm_index_neg n i :
  - Z.of_nat n <= i < 0 -> Py.norm_index n i = Some (Z.to_nat (i + Z.of_nat n)).
Proof.
  intros. unfold Py.norm_index.
  destruct (Z.ltb_spec i 0); [|lia].
  destruct (Z.ltb_spec (i + Z.of_nat n) 0); [lia|].
  destruct (Z.leb_spec (Z.of_nat n) (i + Z.of_nat n)); [lia|]. done.
Qed.

Lemma pop_None l i :
  Py.pop l i = None <-> Py.len l <= i \/ i < - Py.len l.
Proof.
  unfold Py.pop, Py.len. rewrite <- norm_index_None.
  destruct (Py.norm_index (length l) i) as [k|] eqn:Hk; simpl; [|done].
  apply norm_index_Some in Hk as [Hk _].
  destruct (lookup_lt_is_Some_2 l k Hk) as [x ->]. done.
Qed.

Lemma pop_Some l i x l' :
  Py.pop l i = Some (x, l') ->
  exists k, Py.norm_index (length l) i = Some k /\ l !! k = Some x /\
            l' = delete k l /\ length l = S (length l').
Proof.
  unfold Py.pop.
  destruct (Py.norm_index (length l) i) as [k|] eqn:Hk; simpl; [|done].
  destruct (l !! k) as [y|] eqn:Hy; simpl; [|done].
  intros [= <- <-]. exists k. split_and!; try done.
  rewrite length_delete by eauto.
  apply lookup_lt_Some in Hy. lia.
Qed.

Lemma pop_first x l : Py.pop (x :: l) 0 = Some (x, l).
Proof. done. Qed.

Lemma pop_last l x : Py.pop (l ++ [x]) (-1) = Some (x, l).
Proof.
  unfold Py.pop. rewrite norm_index_neg.
  2:{ rewrite length_app. simpl. lia. }
  rewrite length_app. simpl.
  replace (Z.to_nat (-1 + Z.of_nat (length l + 1))) with (length l) by lia.
  rewrite list_lookup_middle by done. simpl.
  by rewrite delete_middle, app_nil_r.
Qed.
End PyLists.

Lemma insert_desc_perm x l : Py.insert_desc x l ≡ₚ x :: l.
Proof.
  induction l as [|y l IH]; simpl; [done|].
  destruct (y <? x); [done|].
  rewrite IH. apply perm_swap.
Qed.

Lemma sorted_reverse_perm l : Py.sorted_reverse l ≡ₚ l.
Proof.
  induction l as [|x l IH]; simpl; [done|].
  by rewrite insert_desc_perm, IH.
Qed.

Lemma sorted_reverse_singleton i : Py.sorted_reverse [i] = [i].
Proof. done. Qed.

(** Sorting a run of consecutive integers in reverse reverses it. *)
Lemma insert_desc_smallest x l :
  Forall (fun z => x < z) l -> Py.insert_desc x l = l ++ [x].
Proof.
  induction l as [|z l IH]; simpl; [done|].
  intros [Hz Hl]%Forall_cons.
  destruct (Z.ltb_spec z x); [lia|].
  by rewrite IH.
Qed.

Lemma sorted_reverse_run (start : Z) (b n : nat) :
  Py.sorted_reverse ((fun j => Z.of_nat j + start) <$> seq b n)
  = reverse ((fun j => Z.of_nat j + start) <$> seq b n).
Proof.
  revert b. induction n as [|n IH]; intros b; simpl; [done|].
  rewrite reverse_cons, IH.
  apply insert_desc_smallest.
  apply Forall_reverse, Forall_fmap, Forall_forall.
  intros j Hj%elem_of_seq. simpl. lia.
Qed.

Lemma shuffle_from_perm {A} i (x : list A) g :
  (Py.shuffle_from i x g).1 ≡ₚ x.
Proof.
  revert x g. induction i as [|i IH]; intros x g; simpl; [done|].
  destruct (Py.randbelow (S (S i)) g) as [j g'].
  rewrite IH. unfold Py.swap.
  destruct (x !! S i) as [a|] eqn:Ha; [|done].
  destruct (x !! j) as [b|] eqn:Hb; [|done].
  by apply Permutation_insert_swap.
Qed.

Lemma shuffle_perm {A} (x : list A) g : (Py.shuffle x g).1 ≡ₚ x.
Proof. apply shuffle_from_perm. Qed.

(** ** Containers *)

Lemma refresh_ok cs c : container_ok (refresh cs c).
Proof. done. Qed.

Lemma cards_refresh cs c : cards (refresh cs c) = cs.
Proof. done. Qed.

Lemma id_start_refresh cs c : id_start (refresh cs c) = id_start c.
Proof. done. Qed.

Lemma refresh_refresh cs cs' c : refresh cs (refresh cs' c) = refresh cs c.
Proof. done. Qed.

Lemma refresh_id c : container_ok c -> refresh (cards c) c = c.
Proof.
  destruct c as [cs n s ids]. intros [Hn Hi]. simpl in *. by subst.
Qed.

Lemma add_cards_refresh new c : add_cards new c = refresh (cards c ++ new) c.
Proof. done. Qed.

Lemma zone_ok_refresh cs c : id_start c = 0 -> zone_ok (refresh cs c).
Proof. by split. Qed.

Lemma zone_ok_init cs : zone_ok (CardContainer_init cs 0).
Proof. by split. Qed.


Lemma pop_cards_raises ids start cs removed e :
  (pop_cards ids start cs removed).1 = Raise e -> e = IndexError.
Proof.
  revert cs removed.
  induction ids as [|j ids IH]; intros cs removed; simpl; [done|].
  destruct (Py.pop cs (j - start)) as [[x cs']|]; [apply IH|].
  by intros [= <-].
Qed.

Lemma remove_cards_too_many ids c :
  (length (cards c) < length ids)%nat ->
  remove_cards ids c = (Raise DominionError, c).
Proof.
  intros H. unfold remove_cards, Py.len.
  destruct (Z.ltb_spec (Z.of_nat (length (cards c))) (Z.of_nat (length ids)));
    [done|lia].
Qed.

Lemma remove_cards_enough ids c :
  (length ids <= length (cards c))%nat ->
  remove_cards ids c =
    match pop_cards (Py.sorted_reverse ids) (id_start c) (cards c) [] with
    | (Ok removed, cs) => (Ok removed, refresh cs c)
    | (Raise e, cs) => (Raise e, with_cards cs c)
    end.
Proof.
  intros H. unfold remove_cards, Py.len.
  destruct (Z.ltb_spec (Z.of_nat (length (cards c))) (Z.of_nat (length ids)));
    [lia|done].
Qed.

(** Removing the card with identifier [id_start + k]. *)
Lemma remove_cards_one c (k : nat) x :
  cards c !! k = Some x ->
  remove_cards [Z.of_nat k + id_start c] c
  = (Ok [x], refresh (delete k (cards c)) c).
Proof.
  intros Hx. pose proof (lookup_lt_Some _ _ _ Hx) as Hk.
  rewrite remove_cards_enough by (simpl; lia).
  rewrite sorted_reverse_singleton. simpl.
  unfold Py.pop.
  rewrite norm_index_nonneg by lia.
  replace (Z.to_nat (Z.of_nat k + id_start c - id_start c)) with k by lia.
  simpl. by rewrite Hx.
Qed.

Lemma remove_cards_first c x cs :
  id_start c = 0 -> cards c = x :: cs ->
  remove_cards [0] c = (Ok [x], refresh cs c).
Proof.
  intros Hs Hc.
  pose proof (remove_cards_one c 0 x) as H.
  rewrite Hs, Hc in H. by apply H.
Qed.

Lemma remove_cards_last c cs x :
  id_start c = 0 -> cards c = cs ++ [x] ->
  remove_cards [-1] c = (Ok [x], refresh cs c).
Proof.
  intros Hs Hc.
  rewrite remove_cards_enough by (rewrite Hc, length_app; simpl; lia).
  rewrite sorted_reverse_singleton. simpl.
  by rewrite Hs, Hc, pop_last.
Qed.

Lemma pop_cards_all start (pre cs removed : list card) :
  pop_cards (reverse ((fun j => Z.of_nat j + start) <$> seq (length pre) (length cs)))
    start (pre ++ cs) removed
  = (Ok (removed ++ reverse cs), pre).
Proof.
  revert removed.
  induction cs as [|x cs IH] using rev_ind; intros removed; simpl.
  { by rewrite !app_nil_r. }
  rewrite length_app. simpl. rewrite Nat.add_1_r, seq_S, fmap_app, reverse_app.
  simpl.
  unfold Py.pop. rewrite norm_index_nonneg.
  2:{ rewrite !length_app. simpl. lia. }
  replace (Z.to_nat (Z.of_nat (length pre + length cs) + start - start))
    with (length (pre ++ cs)) by (rewrite length_app; lia).
  simpl. rewrite (app_assoc pre cs [x]).
  rewrite list_lookup_middle by done. simpl.
  rewrite delete_middle, app_nil_r.
  rewrite IH, reverse_snoc. by rewrite <- app_assoc.
Qed.

(** [remove_cards(self.identifiers)], as [transfer] calls it: all the cards
    leave, last card first. *)
Lemma remove_cards_all c :
  container_ok c ->
  remove_cards (identifiers c) c = (Ok (reverse (cards c)), refresh [] c).
Proof.
  intros [_ Hi].
  rewrite remove_cards_enough by (rewrite Hi, length_imap; lia).
  rewrite Hi.
  rewrite (imap_seq_0 (cards c) (fun j => Z.of_nat j + id_start c)).
  rewrite sorted_reverse_run.
  pose proof (pop_cards_all (id_start c) [] (cards c) []) as H.
  simpl in H. by rewrite H.
Qed.

Lemma remove_cards_empty c :
  cards c = [] -> remove_cards [0] c = (Raise DominionError, c).
Proof. intros H. apply remove_cards_too_many. rewrite H. simpl. lia. Qed.




(** ** The supply *)

Lemma filter_length_ext {A} (P Q : A -> Prop) `{!forall x, Decision (P x)}
  `{!forall x, Decision (Q x)} (l : list A) :
  Forall (fun x => P x <-> Q x) l ->
  length (filter P l) = length (filter Q l).
Proof.
  induction 1 as [|x l Hx _ IH]; [done|].
  rewrite !filter_cons.
  destruct (decide (P x)), (decide (Q x)); simpl; tauto || lia.
Qed.

Lemma container_ok_empty c :
  container_ok c -> num_cards c = 0 <-> cards c = [].
Proof.
  intros [-> _]. unfold Py.len. destruct (cards c); simpl; split; intros;
    done || lia.
Qed.

(** C4. [Supply.check_end_game] answers true exactly when at least three
    piles of the base and kingdom supplies together are empty or the
    Province pile is empty, and false otherwise. It is a function of the
    supply: it changes nothing. *)
Theorem check_end_game_iff (s : Supply) (province : CardContainer) :
  supply_ok s ->
  base_decks (base_supply s) !! 5%nat = Some province ->
  Supply_check_end_game s
  = Ok (bool_decide ((3 <= empty_piles s)%nat \/ cards province = [])).
Proof.
  intros [Hlen Hok] Hprov. unfold Supply_check_end_game, Py.index.
  rewrite Hlen. change (Py.norm_index 6 5) with (Some 5%nat).
  simpl. rewrite Hprov.
  assert (Py.len (filter (fun d => num_cards d = 0)
            (base_decks (base_supply s) ++ kingdom_decks (kingdom_supply s)))
          = Z.of_nat (empty_piles s)) as ->.
  { unfold Py.len, empty_piles, all_piles. f_equal.
    apply filter_length_ext.
    eapply Forall_impl; [exact Hok|]. intros d Hd. by apply container_ok_empty. }
  assert (container_ok province) as Hp.
  { eapply Forall_forall; [exact Hok|]. unfold all_piles.
    apply elem_of_app. left. by eapply list_elem_of_lookup_2. }
  destruct (Z.ltb_spec 2 (Z.of_nat (empty_piles s))).
  { rewrite bool_decide_eq_true_2; [done|]. left. lia. }
  destruct (Z.eqb_spec (num_cards province) 0) as [H0|H0].
  - rewrite bool_decide_eq_true_2; [done|]. right.
    by apply container_ok_empty.
  - rewrite bool_decide_eq_false_2; [done|].
    intros [?|He]; [lia|]. by apply container_ok_empty in He.
Qed.

(** ** The store *)

Section Store.
Implicit Types (w : World) (p q : nat) (pl : Player).

Lemma update_player_put p f w :
  valid p w -> update_player p f w = put_player p (f (player_at p w)) w.
Proof.
  intros Hp. unfold update_player, put_player, player_at, set_players.
  f_equal.
  apply list_eq. intros i. rewrite list_lookup_alter.
  destruct (decide (p = i)) as [<-|Hne].
  - rewrite list_lookup_insert_eq by done.
    by rewrite (list_lookup_lookup_total_lt _ _ Hp).
  - by rewrite list_lookup_insert_ne.
Qed.

Lemma player_at_put_eq p pl w : valid p w -> player_at p (put_player p pl w) = pl.
Proof. intros. by apply list_lookup_total_insert_eq. Qed.

Lemma player_at_put_ne p q pl w :
  p <> q -> player_at q (put_player p pl w) = player_at q w.
Proof. intros. by apply list_lookup_total_insert_ne. Qed.

Lemma put_put p pl pl' w :
  put_player p pl' (put_player p pl w) = put_player p pl' w.
Proof.
  unfold put_player, set_players. destruct w; simpl. f_equal.
  apply list_insert_insert_eq.
Qed.

Lemma put_same p w : put_player p (player_at p w) w = w.
Proof.
  unfold put_player, player_at, set_players.
  destruct w as [ps ? ? ? ? ? ?]; simpl.
  f_equal. destruct (decide (p < length ps)%nat) as [Hp|Hp].
  - apply list_insert_id. by apply list_lookup_lookup_total_lt.
  - apply list_insert_ge. lia.
Qed.

Lemma put_put_ne p q pl pl' w :
  p <> q ->
  put_player p pl (put_player q pl' w) = put_player q pl' (put_player p pl w).
Proof.
  intros. unfold put_player, set_players. destruct w; simpl. f_equal.
  by apply list_insert_insert_ne.
Qed.

Lemma valid_put p q pl w : valid q (put_player p pl w) <-> valid q w.
Proof. unfold valid, put_player. simpl. by rewrite length_insert. Qed.

Lemma valid_set_stdin q i w : valid q (set_stdin i w) <-> valid q w.
Proof. done. Qed.

Lemma valid_set_rng q g w : valid q (set_rng g w) <-> valid q w.
Proof. done. Qed.

Lemma zone_set_player p z c w :
  valid p w ->
  zone_set (PlayerZone p z) c w
  = put_player p (player_zone_set z c (player_at p w)) w.
Proof. intros. by apply update_player_put. Qed.

Lemma player_zone_get_set z c pl :
  player_zone_get z (player_zone_set z c pl) = c.
Proof. by destruct z. Qed.

Lemma player_zone_get_set_ne z z' c pl :
  z <> z' -> player_zone_get z' (player_zone_set z c pl) = player_zone_get z' pl.
Proof. by destruct z, z'. Qed.

Lemma player_zone_set_set z c c' pl :
  player_zone_set z c' (player_zone_set z c pl) = player_zone_set z c' pl.
Proof. by destruct z. Qed.

(** What [transfer] does, in one step. *)
Lemma transfer_run source target ids w :
  transfer source target ids w
  = let c := zone_get source w in
    match remove_cards (match ids with Some l => l | None => identifiers c end) c with
    | (Ok transferred, c') =>
        let w1 := zone_set source c' w in
        (Ok tt, zone_set target (add_cards transferred (zone_get target w1)) w1)
    | (Raise e, c') => (Raise e, zone_set source c' w)
    end.
Proof.
  unfold transfer, bind, remove_cards_at, add_cards_at, gets, modify.
  destruct ids as [l|]; simpl;
    by destruct (remove_cards _ _) as [[transferred|e] c'].
Qed.

(** [transfer] between two containers of one player. *)
Lemma transfer_player p z z' ids w :
  valid p w -> z <> z' ->
  transfer (PlayerZone p z) (PlayerZone p z') ids w
  = let pl := player_at p w in
    let c := player_zone_get z pl in
    match remove_cards (match ids with Some l => l | None => identifiers c end) c with
    | (Ok transferred, c') =>
        (Ok tt,
         put_player p
           (player_zone_set z'
              (add_cards transferred (player_zone_get z' pl))
              (player_zone_set z c' pl)) w)
    | (Raise e, c') => (Raise e, put_player p (player_zone_set z c' pl) w)
    end.
Proof.
  intros Hp Hz. rewrite transfer_run. cbv zeta.
  change (zone_get (PlayerZone p z) w)
    with (player_zone_get z (player_at p w)).
  destruct (remove_cards _ _) as [[transferred|e] c'].
  - rewrite (zone_set_player p z c' w) by done.
    rewrite zone_set_player by (by apply valid_put).
    rewrite player_at_put_eq, put_put by done.
    change (zone_get (PlayerZone p z') ?w')
      with (player_zone_get z' (player_at p w')).
    rewrite player_at_put_eq by done.
    by rewrite player_zone_get_set_ne.
  - by rewrite zone_set_player.
Qed.
End Store.

(** Running a sequence whose first part is known. *)
Lemma bind_run {A B} (m : M A) (k : A -> M B) w a w' :
  m w = (Ok a, w') -> bind m k w = k a w'.
Proof. unfold bind. by intros ->. Qed.

Lemma bind_raise {A B} (m : M A) (k : A -> M B) w e w' :
  m w = (Raise e, w') -> bind m k w = (Raise e, w').
Proof. unfold bind. by intros ->. Qed.

(** ** Buying *)

Lemma find_pile_identifies id z w :
  identifies (supply w) id z -> find_pile id w = (Ok (Some z), w).
Proof.
  intros H. unfold find_pile, bind, gets, expect, Py.contains.
  destruct H as [k Hin Hk|k Hnin Hin Hk].
  - rewrite bool_decide_eq_true_2 by done. by rewrite Hk.
  - rewrite bool_decide_eq_false_2 by done.
    rewrite bool_decide_eq_true_2 by done. by rewrite Hk.
Qed.

Lemma zone_get_set_stdin z i w : zone_get z (set_stdin i w) = zone_get z w.
Proof. by destruct z. Qed.

(** C7. A buy attempt on a pile whose card costs more than the coins of
    the player is rejected: the prompt goes on with the next answer, in a
    store that differs from the one before the attempt only in the answer
    read from the console.  So the buys and the coins of the turn of the
    player, the discard pile and all the piles of the supply are as they
    were. *)
Theorem buy_rejected_when_too_expensive self id rest w z c :
  identifies (supply w) id z ->
  Py.index (cards (zone_get z w)) 0 = Some c ->
  coins (player_at self w) < cost c ->
  buy_prompt self (RInt id :: rest) w = buy_prompt self rest (set_stdin rest w).
Proof.
  intros Hid Hc Hcoins.
  cbn [buy_prompt]. unfold bind at 1. unfold modify at 1.
  rewrite (bind_run _ _ (set_stdin rest w) (Some z) (set_stdin rest w)).
  2:{ by apply find_pile_identifies. }
  unfold bind at 1. unfold gets at 1. 
  destruct (num_cards (zone_get z (set_stdin rest w)) <? 1); [done|].
  rewrite zone_get_set_stdin, Hc. unfold bind, expect, ret, gets.
  change (player_at self (set_stdin rest w)) with (player_at self w).
  destruct (Z.ltb_spec (coins (player_at self w)) (cost c)); [done|lia].
Qed.

(** ** Playing an action card *)

Lemma zone_ok_identifiers c id :
  zone_ok c -> id ∈ identifiers c <-> 0 <= id < Py.len (cards c).
Proof.
  intros [[_ ->] ->]. unfold Py.len.
  rewrite (imap_seq_0 (cards c) (fun j => Z.of_nat j + 0)).
  rewrite list_elem_of_fmap. setoid_rewrite elem_of_seq. split.
  - intros (k & -> & Hk). lia.
  - intros H. exists (Z.to_nat id). lia.
Qed.

Lemma set_coins_run self w :
  valid self w ->
  Player_set_coins self w
  = (Ok tt, put_player self (coins_counted (player_at self w)) w).
Proof.
  intros Hv. unfold Player_set_coins, Player_count_coins, bind, modify.
  rewrite !update_player_put by (rewrite ?update_player_put by done; by rewrite ?valid_put).
  by rewrite player_at_put_eq, put_put.
Qed.

Lemma play_card_run self (k : nat) c w :
  valid self w ->
  zone_ok (hand (player_at self w)) ->
  zone_ok (play_mat (player_at self w)) ->
  cards (hand (player_at self w)) !! k = Some c ->
  play_card self (Z.of_nat k) w
  = (card_action c >>
     transfer (PlayerZone self PlayMat) (PlayerZone self DiscardPile) (Some [-1]))
      (put_player self (card_played k c (player_at self w)) w).
Proof.
  intros Hv [Hh Hh0] [Hm Hm0] Hk. unfold play_card.
  unfold bind at 1, modify at 1.
  rewrite update_player_put by done.
  erewrite bind_run; cycle 1.
  { rewrite transfer_player by (by rewrite ?valid_put).
    rewrite player_at_put_eq by done. cbn [player_zone_get hand set_actions].
    pose proof (remove_cards_one (hand (player_at self w)) k c Hk) as Hr.
    rewrite Hh0, Z.add_0_r in Hr. rewrite Hr. rewrite put_put. done. }
  unfold bind at 1, gets at 1. rewrite player_at_put_eq by done.
  cbn [play_mat player_zone_set player_zone_get set_hand set_play_mat set_actions add_cards_refresh].
  rewrite add_cards_refresh, cards_refresh.
  unfold Py.index. rewrite norm_index_neg.
  2:{ rewrite length_app. simpl. lia. }
  rewrite length_app. cbn [length].
  replace (Z.to_nat (-1 + Z.of_nat (length (cards (play_mat (player_at self w))) + 1)))
    with (length (cards (play_mat (player_at self w)))) by lia.
  cbn [mbind option_bind].
  rewrite list_lookup_middle by done.
  unfold bind at 1, expect, ret. done.
Qed.

Lemma hand_coins_counted pl : hand (coins_counted pl) = hand pl.
Proof. done. Qed.

Lemma action_in_parent_classes c :
  Py.contains "Action" (get_parent_classes c) = true <-> class_of c = Action.
Proof.
  destruct c; split; intros H; try done; try (by vm_compute in H).
Qed.

Lemma Human_action_play self (k : nat) c rest w :
  valid self w ->
  zone_ok (hand (player_at self w)) ->
  zone_ok (play_mat (player_at self w)) ->
  1 <= actions (player_at self w) ->
  stdin w = RInt (Z.of_nat k) :: rest ->
  cards (hand (player_at self w)) !! k = Some c ->
  class_of c = Action ->
  Human_action self w
  = (card_action c >>
     transfer (PlayerZone self PlayMat) (PlayerZone self DiscardPile) (Some [-1]))
      (put_player self (card_played k c (coins_counted (player_at self w)))
         (set_stdin rest w)).
Proof.
  intros Hv Hh Hm Ha Hin Hk Hc. unfold Human_action.
  rewrite (bind_run _ _ _ _ _ (set_coins_run self w Hv)).
  unfold bind at 1, gets at 1. rewrite player_at_put_eq by done.
  change (actions (coins_counted ?p)) with (actions p).
  destruct (Z.ltb_spec (actions (player_at self w)) 1); [lia|].
  unfold bind at 1, gets at 1.
  change (stdin (put_player ?p ?pl ?w)) with (stdin w). rewrite Hin.
  cbn [action_prompt]. unfold bind at 1, modify at 1.
  unfold bind at 1, gets at 1.
  change (player_at self (set_stdin ?i (put_player ?p ?pl ?w0)))
    with (player_at self (put_player p pl w0)).
  rewrite player_at_put_eq by done. rewrite hand_coins_counted.
  unfold Py.contains at 1. rewrite bool_decide_eq_true_2.
  2:{ apply zone_ok_identifiers; [done|]. apply lookup_lt_Some in Hk.
      unfold Py.len. lia. }
  unfold Py.index. rewrite norm_index_nonneg.
  2:{ apply lookup_lt_Some in Hk. lia. }
  rewrite Nat2Z.id. cbn [mbind option_bind]. rewrite Hk.
  unfold bind at 1, expect at 1, ret at 1.
  apply action_in_parent_classes in Hc. rewrite Hc. cbn [negb].
  change (set_stdin rest (put_player self ?pl w))
    with (put_player self pl (set_stdin rest w)).
  rewrite play_card_run with (c := c);
    try (by rewrite ?player_at_put_eq); try (by apply valid_put).
  by rewrite player_at_put_eq, put_put.
Qed.

Lemma increment_actions_run self n w :
  valid self w ->
  Player_increment_actions self n w
  = (Ok tt, put_player self
              (set_actions (actions (player_at self w) + n) (player_at self w)) w).
Proof. intros. unfold Player_increment_actions, modify. by rewrite update_player_put. Qed.

Lemma increment_buys_run self n w :
  valid self w ->
  Player_increment_buys self n w
  = (Ok tt, put_player self
              (set_buys (buys (player_at self w) + n) (player_at self w)) w).
Proof. intros. unfold Player_increment_buys, modify. by rewrite update_player_put. Qed.

Lemma increment_coins_run self n w :
  valid self w ->
  Player_increment_coins self n w
  = (Ok tt, put_player self
              (set_turn_coins (turn_coins (player_at self w) + n)
                 (player_at self w)) w).
Proof. intros. unfold Player_increment_coins, modify. by rewrite update_player_put. Qed.

Lemma Festival_action_run w :
  valid (current_player w) w ->
  Festival_action w
  = (Ok tt,
     put_player (current_player w)
       (let pl := player_at (current_player w) w in
        set_turn_coins (turn_coins pl + 2)
          (set_buys (buys pl + 1) (set_actions (actions pl + 2) pl))) w).
Proof.
  intros Hv. unfold Festival_action. unfold bind at 1, gets at 1.
  rewrite (bind_run _ _ _ _ _ (increment_actions_run _ _ _ Hv)).
  erewrite bind_run; [|by apply increment_buys_run, valid_put].
  rewrite increment_coins_run by (by rewrite !valid_put).
  by rewrite !player_at_put_eq, !put_put by (by rewrite ?valid_put).
Qed.

(** C6. Playing an action card takes one action before the effect of the
    card runs: the effect of Festival starts in the store of the player
    who has spent the action and put the card on the play mat.  After the
    play the player has one action less and two more, one more buy and
    two more coins for the turn; from 1 action, 1 buy and 0 coins the
    play ends with 2 actions, 2 buys and 2 coins. *)
Theorem festival_decrement_then_effect self (k : nat) rest w :
  valid self w ->
  current_player w = self ->
  player_ok (player_at self w) ->
  1 <= actions (player_at self w) ->
  stdin w = RInt (Z.of_nat k) :: rest ->
  cards (hand (player_at self w)) !! k = Some Festival ->
  let pl := player_at self w in
  let before_effect := card_played k Festival (coins_counted pl) in
  Human_action self w
  = (Festival_action >>
     transfer (PlayerZone self PlayMat) (PlayerZone self DiscardPile) (Some [-1]))
      (put_player self before_effect (set_stdin rest w)) /\
  actions before_effect = actions pl - 1 /\
  exists w',
    Human_action self w = (Ok tt, w') /\
    actions (player_at self w') = actions pl - 1 + 2 /\
    buys (player_at self w') = buys pl + 1 /\
    turn_coins (player_at self w') = turn_coins pl + 2 /\
    cards (hand (player_at self w')) = delete k (cards (hand pl)) /\
    cards (play_mat (player_at self w')) = cards (play_mat pl) /\
    cards (discard_pile (player_at self w'))
    = cards (discard_pile pl) ++ [Festival] /\
    (actions pl = 1 -> buys pl = 1 -> turn_coins pl = 0 ->
     actions (player_at self w') = 2 /\ buys (player_at self w') = 2 /\
     turn_coins (player_at self w') = 2).
Proof.
  intros Hv Hcur (Hd & Hh & Hdp & Hm) Ha Hin Hk pl before_effect.
  pose proof (Human_action_play self k Festival rest w Hv Hh Hm Ha Hin Hk eq_refl)
    as Hrun.
  split; [exact Hrun|]. split; [done|].
  rewrite Hrun. cbn [card_action].
  assert (valid self (put_player self before_effect (set_stdin rest w))) as Hv'.
  { by apply valid_put. }
  erewrite bind_run; cycle 1.
  { rewrite Festival_action_run; change (current_player (put_player ?p ?x ?w0))
      with (current_player w0); change (current_player (set_stdin ?i ?w0))
      with (current_player w0); rewrite Hcur; [|done].
    rewrite player_at_put_eq, put_put by done. done. }
  rewrite transfer_player by (by rewrite ?valid_put).
  rewrite player_at_put_eq by done.
  cbn [player_zone_get play_mat set_turn_coins set_buys set_actions
         before_effect card_played set_play_mat].
  subst before_effect. cbn [card_played play_mat set_play_mat].
  rewrite (remove_cards_last _ (cards (play_mat pl)) Festival);
    [|apply Hm|done].
  rewrite put_put.
  eexists. split; [done|].
  rewrite player_at_put_eq by done.
  subst pl. simpl. split_and!; try done; lia.
Qed.

(** ** Drawing *)

Lemma with_zones_id pl :
  player_ok pl ->
  with_zones (cards (deck pl)) (cards (hand pl)) (cards (discard_pile pl)) pl = pl.
Proof.
  intros ([Hd _] & [Hh _] & [Hp _] & _). unfold with_zones.
  rewrite !refresh_id by done. by destruct pl.
Qed.

Lemma with_zones_with_zones d h dp d' h' dp' pl :
  with_zones d h dp (with_zones d' h' dp' pl) = with_zones d h dp pl.
Proof. done. Qed.

Lemma player_ok_with_zones d h dp pl :
  player_ok pl -> player_ok (with_zones d h dp pl).
Proof.
  intros ([_ Hd] & [_ Hh] & [_ Hp] & Hm). unfold with_zones.
  split_and!; simpl; try done; by apply zone_ok_refresh.
Qed.

Lemma try_except_ok {A} (m h : M A) e w a w' :
  m w = (Ok a, w') -> try_except m e h w = (Ok a, w').
Proof. unfold try_except. by intros ->. Qed.

Lemma try_except_caught {A} (m h : M A) e w w' :
  m w = (Raise e, w') -> try_except m e h w = h w'.
Proof. unfold try_except. intros ->. by rewrite decide_True. Qed.

Lemma try_except_passed {A} (m h : M A) e e' w w' :
  m w = (Raise e', w') -> e' <> e -> try_except m e h w = (Raise e', w').
Proof. unfold try_except. intros -> ?. by rewrite decide_False. Qed.

(** Drawing the top card of a deck that has one. *)
Lemma draw_card_top self w x d :
  valid self w -> player_ok (player_at self w) ->
  cards (deck (player_at self w)) = x :: d ->
  draw_card self w
  = (Ok tt,
     put_player self
       (with_zones d (cards (hand (player_at self w)) ++ [x])
          (cards (discard_pile (player_at self w))) (player_at self w)) w).
Proof.
  intros Hv Hok Hd. unfold draw_card.
  apply try_except_ok.
  rewrite transfer_player by done. cbn [player_zone_get].
  rewrite (remove_cards_first _ x d); [|apply Hok|done].
  do 2 f_equal.
  rewrite <- (with_zones_id (player_at self w)) at 1 by done.
  rewrite <- (with_zones_id (player_at self w)) at 3 by done.
  unfold with_zones. destruct Hok as ([Hd1 _] & [Hh1 _] & [Hp1 _] & _).
  simpl. rewrite !refresh_id by done. rewrite add_cards_refresh. done.
Qed.

Lemma shuffle_refresh c g :
  container_ok c ->
  shuffle c g = (refresh (Py.shuffle (cards c) g).1 c, (Py.shuffle (cards c) g).2).
Proof.
  intros [Hn _]. unfold shuffle.
  pose proof (shuffle_perm (cards c) g) as Hp.
  destruct (Py.shuffle (cards c) g) as [cs g']. simpl in *.
  f_equal. unfold refresh, count_cards, set_identifiers, with_cards. simpl.
  f_equal. rewrite Hn. unfold Py.len. by rewrite Hp.
Qed.

Lemma shuffle_at_player self w :
  valid self w -> container_ok (deck (player_at self w)) ->
  shuffle_at (PlayerZone self Deck) w
  = (Ok tt,
     set_rng (Py.shuffle (cards (deck (player_at self w))) (rng w)).2
       (put_player self
          (set_deck
             (refresh (Py.shuffle (cards (deck (player_at self w))) (rng w)).1
                (deck (player_at self w)))
             (player_at self w)) w)).
Proof.
  intros Hv Hok. unfold shuffle_at, modify. f_equal.
  change (zone_get (PlayerZone self Deck) w) with (deck (player_at self w)).
  rewrite shuffle_refresh by done.
  by rewrite zone_set_player.
Qed.

(** Drawing from an empty deck: the discard pile becomes the deck, is
    shuffled, and its top card is drawn. *)
Lemma draw_card_reshuffle self w x d g' :
  valid self w -> player_ok (player_at self w) ->
  cards (deck (player_at self w)) = [] ->
  Py.shuffle (reverse (cards (discard_pile (player_at self w)))) (rng w)
  = (x :: d, g') ->
  draw_card self w
  = (Ok tt,
     set_rng g'
       (put_player self
          (with_zones d (cards (hand (player_at self w)) ++ [x]) []
             (player_at self w)) w)).
Proof.
  intros Hv Hok Hd Hs. unfold draw_card.
  pose proof Hok as ([Hd1 Hd0] & [Hh1 Hh0] & [Hp1 Hp0] & _).
  erewrite try_except_caught; cycle 1.
  { rewrite transfer_player by done. cbn [player_zone_get].
    rewrite remove_cards_empty by done.
    replace (player_zone_set Deck (deck (player_at self w)) (player_at self w))
      with (player_at self w) by (by destruct (player_at self w)).
    by rewrite put_same. }
  erewrite bind_run; cycle 1.
  { rewrite transfer_player by done. cbn [player_zone_get].
    by rewrite remove_cards_all. }
  erewrite bind_run; cycle 1.
  { rewrite shuffle_at_player; [|by apply valid_put|];
      rewrite player_at_put_eq by done; [|done].
    cbn [player_zone_set deck set_deck set_discard_pile].
    rewrite add_cards_refresh, cards_refresh, Hd. cbn [app].
    change (rng (put_player ?p ?pl ?w0)) with (rng w0).
    rewrite Hs. cbn [fst snd]. rewrite put_put. done. }
  change (set_rng g' (put_player self ?pl w))
    with (put_player self pl (set_rng g' w)).
  rewrite transfer_player by (by rewrite ?valid_put).
  rewrite player_at_put_eq by done.
  cbn [player_zone_get deck set_deck].
  rewrite (remove_cards_first _ x d); [|done|done].
  by rewrite put_put.
Qed.

Lemma set_rng_put_put p pl pl' g g' w :
  set_rng g' (put_player p pl' (set_rng g (put_player p pl w)))
  = set_rng g' (put_player p pl' w).
Proof.
  destruct w. unfold set_rng, put_player, set_players. simpl. f_equal.
  apply list_insert_insert_eq.
Qed.

Lemma for_range_S n (body : M unit) w :
  for_range (S n) body w = (body >> for_range n body) w.
Proof. done. Qed.

Lemma draw_loop self (n : nat) w :
  valid self w -> player_ok (player_at self w) ->
  (n <= length (cards (deck (player_at self w)))
        + length (cards (discard_pile (player_at self w))))%nat ->
  exists d' drawn dp' g',
    for_range n (draw_card self) w
    = (Ok tt,
       set_rng g'
         (put_player self
            (with_zones d' (cards (hand (player_at self w)) ++ drawn) dp'
               (player_at self w)) w)) /\
    length drawn = n /\
    drawn ++ d' ++ dp'
      ≡ₚ cards (deck (player_at self w))
         ++ cards (discard_pile (player_at self w)) /\
    ((n <= length (cards (deck (player_at self w))))%nat ->
     drawn = take n (cards (deck (player_at self w))) /\
     d' = drop n (cards (deck (player_at self w))) /\
     dp' = cards (discard_pile (player_at self w)) /\
     g' = rng w) /\
    ((length (cards (deck (player_at self w))) < n)%nat ->
     dp' = [] /\
     exists rest,
       drawn = cards (deck (player_at self w)) ++ rest /\
       rest ++ d' ≡ₚ cards (discard_pile (player_at self w))).
Proof.
  revert w. induction n as [|n IH]; intros w Hv Hok Hn.
  { exists (cards (deck (player_at self w))), [],
      (cards (discard_pile (player_at self w))), (rng w).
    split_and!; try done.
    - simpl. rewrite app_nil_r, with_zones_id, put_same by done.
      by destruct w.
    - lia. }
  destruct (cards (deck (player_at self w))) as [|x d] eqn:Hd.
  - (* the deck is empty: the discard pile is shuffled into it *)
    simpl in Hn.
    destruct (Py.shuffle (reverse (cards (discard_pile (player_at self w))))
                (rng w)) as [s g1] eqn:Hs.
    assert (s ≡ₚ cards (discard_pile (player_at self w))) as Hp.
    { pose proof (shuffle_perm
                    (reverse (cards (discard_pile (player_at self w)))) (rng w))
        as H. rewrite Hs in H. simpl in H. by rewrite H, reverse_Permutation. }
    destruct s as [|x d].
    { apply Permutation_length in Hp. simpl in Hp. lia. }
    set (pl1 := with_zones d (cards (hand (player_at self w)) ++ [x]) []
                  (player_at self w)).
    set (w1 := set_rng g1 (put_player self pl1 w)).
    assert (valid self w1) as Hv1 by (by apply valid_put).
    assert (player_at self w1 = pl1) as Hpl1.
    { subst w1. change (player_at self (set_rng ?g ?w0)) with (player_at self w0).
      by rewrite player_at_put_eq. }
    destruct (IH w1) as (d' & drawn & dp' & g' & Hrun & Hlen & Hperm & Hle & Hlt).
    { done. }
    { rewrite Hpl1. by apply player_ok_with_zones. }
    { rewrite Hpl1. simpl. apply Permutation_length in Hp. simpl in Hp. lia. }
    rewrite Hpl1 in *. simpl in Hperm, Hle, Hlt.
    assert (dp' = []) as ->.
    { destruct (decide (n <= length d)%nat) as [H|H].
      - by destruct (Hle H) as (_ & _ & -> & _).
      - by destruct Hlt as [-> _]; [lia|]. }
    exists d', (x :: drawn), [], g'. split_and!.
    + rewrite for_range_S.
      rewrite (bind_run _ _ _ _ _ (draw_card_reshuffle self w x d g1 Hv Hok Hd Hs)).
      fold pl1. fold w1. rewrite Hrun. f_equal.
      subst w1 pl1. rewrite set_rng_put_put. do 2 f_equal.
      unfold with_zones. simpl. by rewrite <- app_assoc.
    + simpl. lia.
    + rewrite !app_nil_r in Hperm. simpl. by rewrite app_nil_r, Hperm.
    + simpl. lia.
    + intros _. split; [done|]. exists (x :: drawn). split; [done|].
      rewrite !app_nil_r in Hperm. simpl. by rewrite Hperm.
  - (* the deck has a card *)
    set (pl1 := with_zones d (cards (hand (player_at self w)) ++ [x])
                  (cards (discard_pile (player_at self w))) (player_at self w)).
    set (w1 := put_player self pl1 w).
    assert (valid self w1) as Hv1 by (by apply valid_put).
    assert (player_at self w1 = pl1) as Hpl1 by (by apply player_at_put_eq).
    destruct (IH w1) as (d' & drawn & dp' & g' & Hrun & Hlen & Hperm & Hle & Hlt).
    { done. }
    { rewrite Hpl1. by apply player_ok_with_zones. }
    { rewrite Hpl1. simpl in *. lia. }
    rewrite Hpl1 in *. simpl in Hperm, Hle, Hlt.
    exists d', (x :: drawn), dp', g'. split_and!.
    + rewrite for_range_S.
      rewrite (bind_run _ _ _ _ _ (draw_card_top self w x d Hv Hok Hd)).
      fold pl1. fold w1. rewrite Hrun. do 2 f_equal.
      subst w1 pl1. simpl. rewrite put_put. f_equal.
      unfold with_zones. simpl. by rewrite <- app_assoc.
    + simpl. lia.
    + simpl. by rewrite Hperm.
    + simpl. intros H. destruct Hle as (-> & -> & -> & ->); [lia|]. done.
    + simpl. intros H. destruct Hlt as (-> & rest & -> & Hrest); [lia|].
      split; [done|]. by exists rest.
Qed.

Lemma Player_draw_short self (n : nat) w :
  container_ok (deck (player_at self w)) ->
  container_ok (discard_pile (player_at self w)) ->
  (length (cards (deck (player_at self w)))
   + length (cards (discard_pile (player_at self w))) < n)%nat ->
  Player_draw self (Z.of_nat n) w = (Raise DominionError, w).
Proof.
  intros [Hd _] [Hp _] Hn. unfold Player_draw, bind, gets.
  rewrite Hd, Hp. unfold Py.len.
  by destruct (Z.ltb_spec
    (Z.of_nat (length (cards (deck (player_at self w))))
     + Z.of_nat (length (cards (discard_pile (player_at self w)))))
    (Z.of_nat n)); [|lia].
Qed.

Lemma Player_draw_enough self (n : nat) w :
  container_ok (deck (player_at self w)) ->
  container_ok (discard_pile (player_at self w)) ->
  (n <= length (cards (deck (player_at self w)))
        + length (cards (discard_pile (player_at self w))))%nat ->
  Player_draw self (Z.of_nat n) w = for_range n (draw_card self) w.
Proof.
  intros [Hd _] [Hp _] Hn. unfold Player_draw, bind, gets.
  rewrite Hd, Hp. unfold Py.len.
  destruct (Z.ltb_spec
    (Z.of_nat (length (cards (deck (player_at self w))))
     + Z.of_nat (length (cards (discard_pile (player_at self w)))))
    (Z.of_nat n)); [lia|].
  by rewrite Nat2Z.id.
Qed.

(** C5. [Player.draw(n)] checks once, before drawing, that the deck and
    the discard pile together hold [n] cards.  If they do not, it raises
    [DominionError] and the store is unchanged.  If they do, it succeeds
    and the hand has exactly [n] more cards, the cards drawn; no card is
    lost.  When the deck holds [n] cards they come off its top and the
    discard pile is not touched; when the deck runs out midway the
    discard pile is shuffled into the deck: the deck is drawn first, the
    discard pile ends empty and the rest comes from it. *)
Theorem draw_checks_once_then_draws (self : nat) (n : nat) (w : World) :
  valid self w ->
  player_ok (player_at self w) ->
  let pl := player_at self w in
  let available :=
    (length (cards (deck pl)) + length (cards (discard_pile pl)))%nat in
  ((available < n)%nat ->
   Player_draw self (Z.of_nat n) w = (Raise DominionError, w)) /\
  ((n <= available)%nat ->
   exists w' drawn,
     Player_draw self (Z.of_nat n) w = (Ok tt, w') /\
     let pl' := player_at self w' in
     cards (hand pl') = cards (hand pl) ++ drawn /\
     length drawn = n /\
     num_cards (hand pl') = num_cards (hand pl) + Z.of_nat n /\
     drawn ++ cards (deck pl') ++ cards (discard_pile pl')
       ≡ₚ cards (deck pl) ++ cards (discard_pile pl) /\
     ((n <= length (cards (deck pl)))%nat ->
      drawn = take n (cards (deck pl)) /\
      cards (deck pl') = drop n (cards (deck pl)) /\
      cards (discard_pile pl') = cards (discard_pile pl)) /\
     ((length (cards (deck pl)) < n)%nat ->
      cards (discard_pile pl') = [] /\
      exists rest,
        drawn = cards (deck pl) ++ rest /\
        rest ++ cards (deck pl') ≡ₚ cards (discard_pile pl)) /\
     player_ok pl' /\
     play_mat pl' = play_mat pl /\
     (forall q, q <> self -> player_at q w' = player_at q w) /\
     supply w' = supply w /\ trash w' = trash w /\ stdin w' = stdin w).
Proof.
  intros Hv Hok pl available. subst pl available. split.
  - intros Hn. apply Player_draw_short; [apply Hok..|done].
  - intros Hn.
    destruct (draw_loop self n w Hv Hok Hn)
      as (d' & drawn & dp' & g' & Hrun & Hlen & Hperm & Hle & Hlt).
    eexists _, drawn. split.
    { rewrite Player_draw_enough; [exact Hrun|apply Hok..|done]. }
    change (player_at self (set_rng ?g ?w0)) with (player_at self w0).
    rewrite player_at_put_eq by done.
    split_and!; try done.
    + simpl. destruct Hok as (_ & [[-> _] _] & _).
      unfold Py.len. rewrite length_app. lia.
    + intros H. by destruct (Hle H) as (-> & -> & -> & _).
    + by apply player_ok_with_zones.
    + intros q Hq.
      change (player_at q (set_rng ?g ?w0)) with (player_at q w0).
      by rewrite player_at_put_ne.
Qed.

(** ** Setting up the game *)

Lemma reset_points_run self w :
  valid self w ->
  Player_reset_points self w
  = (Ok tt,
     put_player self
       (set_turn_coins 0 (set_buys 1 (set_actions 1 (player_at self w)))) w).
Proof. intros. unfold Player_reset_points, modify. by rewrite update_player_put. Qed.

Lemma Human_init_run nm w :
  exists s g',
    Py.shuffle (replicate 7 Copper ++ replicate 3 Estate) (rng w) = (s, g') /\
    Human_init nm w
    = (Ok (length (players w)),
       set_rng g'
         (set_players
            (players w ++
             [coins_counted
                (set_turn_coins 0 (set_buys 1 (set_actions 1
                  (mkPlayer nm (CardContainer_init (drop 5 s) 0)
                     (CardContainer_init (take 5 s) 0)
                     empty_container empty_container 0 0 0 0 0 0 0))))]) w)).
Proof.
  destruct (Py.shuffle (replicate 7 Copper ++ replicate 3 Estate) (rng w))
    as [s g'] eqn:Hs.
  exists s, g'. split; [done|].
  assert (length s = 10%nat) as Hlen.
  { pose proof (shuffle_perm (replicate 7 Copper ++ replicate 3 Estate) (rng w))
      as H. rewrite Hs in H. simpl in H. by rewrite H. }
  set (self := length (players w)).
  set (fresh := mkPlayer nm
         (CardContainer_init (cards (CardDeck Copper 7) ++ cards (CardDeck Estate 3)) 0)
         empty_container empty_container empty_container 0 0 0 0 0 0 0).
  set (w0 := set_players (players w ++ [fresh]) w).
  assert (valid self w0) as Hv0.
  { unfold valid, w0, self. simpl. rewrite length_app. simpl. lia. }
  assert (player_at self w0 = fresh) as Hp0.
  { unfold player_at, w0, self. simpl. apply list_lookup_total_correct.
    by rewrite list_lookup_middle. }
  unfold Human_init. unfold bind at 1, gets at 1. fold self.
  unfold bind at 1, modify at 1. fold fresh. fold w0.
  erewrite bind_run; cycle 1.
  { rewrite shuffle_at_player; [|done|by rewrite Hp0].
    rewrite Hp0. change (rng w0) with (rng w).
    change (cards (deck fresh)) with (replicate 7 Copper ++ replicate 3 Estate).
    rewrite Hs. done. }
  cbn [fst snd].
  set (pl1 := set_deck (refresh s (deck fresh)) fresh).
  set (w1 := set_rng g' (put_player self pl1 w0)).
  assert (valid self w1) as Hv1 by (by apply valid_put).
  assert (player_at self w1 = pl1) as Hp1.
  { unfold w1. change (player_at self (set_rng ?g ?x)) with (player_at self x).
    by rewrite player_at_put_eq. }
  assert (player_ok pl1) as Hok1 by (by split_and!).
  destruct (draw_loop self 5 w1 Hv1) as
    (d' & drawn & dp' & g2 & Hrun & _ & _ & Hle & _).
  { by rewrite Hp1. }
  { rewrite Hp1. simpl. lia. }
  rewrite Hp1 in Hle, Hrun. simpl in Hle.
  destruct Hle as (-> & -> & -> & ->); [lia|].
  erewrite bind_run; cycle 1.
  { unfold Player_draw_hand.
    change (Player_draw self 5) with (Player_draw self (Z.of_nat 5%nat)).
    rewrite (Player_draw_enough self 5 w1);
      [exact Hrun|rewrite Hp1; apply Hok1..|rewrite Hp1; simpl; lia]. }
  change (rng w1) with g'.
  set (pl2 := with_zones (drop 5 s) (cards (hand pl1) ++ take 5 s) [] pl1).
  set (w2 := set_rng g' (put_player self pl2 w1)).
  assert (valid self w2) as Hv2.
  { unfold w2. by apply valid_set_rng, valid_put. }
  assert (player_at self w2 = pl2) as Hp2.
  { unfold w2. change (player_at self (set_rng ?g ?x)) with (player_at self x).
    by rewrite player_at_put_eq. }
  rewrite (bind_run _ _ _ _ _ (reset_points_run self w2 Hv2)).
  erewrite bind_run; [|by apply set_coins_run, valid_put].
  unfold ret. f_equal.
  rewrite player_at_put_eq, put_put, Hp2 by done.
  unfold w2, w1, w0, put_player, set_rng, set_players. simpl. f_equal.
  rewrite !list_insert_insert_eq.
  replace self with (length (players w) + 0)%nat by (unfold self; lia).
  rewrite insert_app_r. simpl. done.
Qed.

(** C8. For a game of 1 to 4 players the base supply is built with
    [60 - 7p] Copper and with 8 cards in each of the Estate, Duchy and
    Province piles when at most two play, 12 otherwise (46 Copper for two
    players).  A new player owns the 7 Copper and 3 Estate of the starting
    deck; after the first hand of 5 is drawn, 5 of the 10 cards are in the
    hand and the other 5 in the deck and the discard pile. *)
Theorem setup_pile_and_deck_sizes (p : Z) (nm : string) (w : World) :
  1 <= p <= 4 ->
  (exists b,
     Base_init p = Ok b /\
     cards <$> base_decks b
     = [ replicate (Z.to_nat (60 - 7 * p)) Copper;
         replicate 40 Silver;
         replicate 30 Gold;
         replicate (if (p <=? 2)%Z then 8 else 12)%nat Estate;
         replicate (if (p <=? 2)%Z then 8 else 12)%nat Duchy;
         replicate (if (p <=? 2)%Z then 8 else 12)%nat Province ] /\
     num_cards <$> base_decks b
     = [ 60 - 7 * p; 40; 30;
         if p <=? 2 then 8 else 12;
         if p <=? 2 then 8 else 12;
         if p <=? 2 then 8 else 12 ] /\
     (p = 2 -> exists copper,
        base_decks b !! 0%nat = Some copper /\ num_cards copper = 46)) /\
  cards (CardDeck Copper 7) ++ cards (CardDeck Estate 3)
  = replicate 7 Copper ++ replicate 3 Estate /\
  (exists w',
     Human_init nm w = (Ok (length (players w)), w') /\
     let pl := player_at (length (players w)) w' in
     cards (hand pl) ++ cards (deck pl)
       ≡ₚ replicate 7 Copper ++ replicate 3 Estate /\
     length (cards (hand pl)) = 5%nat /\
     (length (cards (deck pl)) + length (cards (discard_pile pl)) = 5)%nat).
Proof.
  intros Hp. split_and!.
  - assert (p = 1 \/ p = 2 \/ p = 3 \/ p = 4) as Hcases by lia.
    destruct Hcases as [Hc|[Hc|[Hc|Hc]]]; subst p;
      (eexists; split; [by vm_compute|]); split_and!; try done.
    intros _. by eexists.
  - done.
  - destruct (Human_init_run nm w) as (s & g' & Hs & Hrun).
    assert (s ≡ₚ replicate 7 Copper ++ replicate 3 Estate) as Hperm.
    { pose proof (shuffle_perm (replicate 7 Copper ++ replicate 3 Estate) (rng w))
        as H. by rewrite Hs in H. }
    pose proof (Permutation_length Hperm) as Hlen. simpl in Hlen.
    eexists. split; [exact Hrun|].
    unfold player_at. cbn [players set_rng set_players].
    rewrite (list_lookup_total_correct _ _ _ (list_lookup_middle _ [] _ _ eq_refl)).
    cbn. rewrite take_drop. split_and!; [done|..].
    + rewrite length_take. lia.
    + rewrite length_drop. lia.
Qed.

(** ** The Militia attack *)

Lemma discarded_nothing pl :
  player_ok pl -> discarded (cards (hand pl)) [] pl = pl.
Proof.
  intros (_ & [Hh _] & [Hp _] & _). unfold discarded.
  rewrite app_nil_r, !refresh_id by done. by destruct pl.
Qed.

Lemma discarded_discarded h h' moved moved' pl :
  discarded h' moved' (discarded h moved pl) = discarded h' (moved ++ moved') pl.
Proof. unfold discarded. simpl. by rewrite app_assoc. Qed.

Lemma player_ok_discarded h moved pl :
  player_ok pl -> player_ok (discarded h moved pl).
Proof.
  intros (Hd & [_ Hh] & [_ Hp] & Hm). unfold discarded.
  split_and!; simpl; try done; by apply zone_ok_refresh.
Qed.

Lemma set_stdin_same w : set_stdin (stdin w) w = w.
Proof. by destruct w. Qed.

Lemma set_stdin_set_stdin i j w : set_stdin i (set_stdin j w) = set_stdin i w.
Proof. done. Qed.

Lemma discard_step_skip self ins w r w' :
  (length ins < length (stdin w))%nat ->
  discard_step self (set_stdin ins w) r w' -> discard_step self w r w'.
Proof.
  intros Hlen H. inversion H as [k x rest Hk Hl| rest Hl | rest Hl |]; subst.
  - change (player_at self (set_stdin ins w)) with (player_at self w) in *.
    rewrite set_stdin_set_stdin. constructor; [done|]. simpl in Hl. lia.
  - rewrite set_stdin_set_stdin. constructor. simpl in Hl. lia.
  - rewrite set_stdin_set_stdin. constructor. simpl in Hl. lia.
  - rewrite set_stdin_set_stdin. constructor.
Qed.

Lemma discard_prompt_step self ins w r w' :
  stdin w = ins -> valid self w -> player_ok (player_at self w) ->
  discard_prompt self ins w = (r, w') -> discard_step self w r w'.
Proof.
  revert w. induction ins as [|a ins IH]; intros w Hin Hv Hok Hrun.
  { simpl in Hrun. injection Hrun as <- <-.
    pose proof (discard_step_eof self w) as H.
    rewrite <- Hin, set_stdin_same in H. exact H. }
  assert (discard_prompt self ins (set_stdin ins w) = (r, w') ->
          discard_step self w r w') as Hskip.
  { intros H. apply (discard_step_skip self ins); [rewrite Hin; simpl; lia|].
    by apply IH. }
  cbn [discard_prompt] in Hrun. unfold bind at 1, modify at 1 in Hrun.
  destruct a as [| | | |id]; try (by apply Hskip).
  - injection Hrun as <- <-. constructor. rewrite Hin. simpl. lia.
  - injection Hrun as <- <-. constructor. rewrite Hin. simpl. lia.
  - unfold bind at 1, gets at 1 in Hrun.
    change (player_at self (set_stdin ins w)) with (player_at self w) in Hrun.
    unfold Py.contains in Hrun.
    destruct (bool_decide_reflect (id ∈ identifiers (hand (player_at self w))))
      as [Hid|Hid]; [|by apply Hskip].
    apply zone_ok_identifiers in Hid; [|apply Hok].
    unfold Py.index, Py.len in *. rewrite norm_index_nonneg in Hrun by lia.
    cbn [mbind option_bind] in Hrun.
    destruct (lookup_lt_is_Some_2 (cards (hand (player_at self w))) (Z.to_nat id))
      as [x Hx]; [lia|].
    rewrite Hx in Hrun. unfold bind at 1, expect at 1, ret at 1 in Hrun.
    rewrite transfer_player in Hrun by done.
    cbn [player_zone_get] in Hrun.
    change (player_at self (set_stdin ins w)) with (player_at self w) in Hrun.
    pose proof (remove_cards_one (hand (player_at self w)) (Z.to_nat id) x Hx)
      as Hr.
    destruct Hok as (_ & [Hh Hh0] & _). rewrite Hh0 in Hr.
    replace (Z.of_nat (Z.to_nat id) + 0) with id in Hr by lia.
    rewrite Hr in Hrun. injection Hrun as <- <-.
    replace (player_zone_set DiscardPile _ _)
      with (discarded (delete (Z.to_nat id) (cards (hand (player_at self w)))) [x]
              (player_at self w)) by done.
    constructor; [done|]. rewrite Hin. simpl. lia.
Qed.

Lemma Human_discard_step self w r w' :
  valid self w -> player_ok (player_at self w) ->
  Human_discard self w = (r, w') -> discard_step self w r w'.
Proof. intros ? ? H. unfold Human_discard, bind, gets in H. by eapply discard_prompt_step. Qed.

Lemma put_stdin_put_stdin p a b i j w :
  put_player p a (set_stdin i (put_player p b (set_stdin j w)))
  = put_player p a (set_stdin i w).
Proof.
  destruct w. unfold put_player, set_stdin, set_players. simpl. f_equal.
  apply list_insert_insert_eq.
Qed.

Lemma put_same_stdin p i w :
  put_player p (player_at p w) (set_stdin i w) = set_stdin i w.
Proof.
  change (player_at p w) with (player_at p (set_stdin i w)). apply put_same.
Qed.

Lemma forced_discard_nothing player w r i :
  player_ok (player_at player w) ->
  attack_outcome r ->
  (r = Ok tt -> (length (cards (hand (player_at player w))) <= 3)%nat) ->
  forced_discard player w r (set_stdin i w).
Proof.
  intros Hok Hr Hle.
  exists (cards (hand (player_at player w))), [], i. split_and!; try done.
  - by rewrite discarded_nothing, put_same_stdin.
  - by rewrite app_nil_r.
Qed.

Lemma Militia_loop_spec fuel player w r w' :
  valid player w -> player_ok (player_at player w) ->
  (length (stdin w) < fuel)%nat ->
  Militia_loop fuel player w = (r, w') ->
  forced_discard player w r w'.
Proof.
  revert w. induction fuel as [|fuel IH]; intros w Hv Hok Hfuel Hrun; [lia|].
  cbn [Militia_loop] in Hrun. unfold bind at 1, gets at 1 in Hrun.
  destruct (Z.ltb_spec 3 (Py.len (cards (hand (player_at player w)))))
    as [Hlong|Hshort]; cycle 1.
  { injection Hrun as <- <-. rewrite <- (set_stdin_same w) at 2.
    apply forced_discard_nothing; [done|by left|].
    intros _. unfold Py.len in Hshort. lia. }
  destruct (Human_discard player w) as [r1 w1] eqn:Hd.
  pose proof (Human_discard_step player w r1 w1 Hv Hok Hd) as Hstep.
  unfold bind at 1, try_except in Hrun. rewrite Hd in Hrun.
  inversion Hstep as [k x rest Hk Hl| rest Hl | rest Hl |]; subst r1 w1.
  - (* a card was discarded: the loop goes on *)
    apply IH in Hrun; cycle 1.
    { by apply valid_put. }
    { rewrite player_at_put_eq by done. by apply player_ok_discarded. }
    { simpl. lia. }
    destruct Hrun as (h & moved & rest' & -> & Hperm & Hout & Hle).
    rewrite player_at_put_eq in Hperm by done.
    rewrite player_at_put_eq by done.
    exists h, ([x] ++ moved), rest'. split_and!; try done.
    + by rewrite discarded_discarded, put_stdin_put_stdin.
    + simpl in Hperm. rewrite (delete_Permutation _ _ _ Hk), Hperm.
      simpl. by rewrite Permutation_middle.
  - (* pass: caught, the loop goes on *)
    rewrite decide_True in Hrun by done. unfold ret in Hrun.
    apply IH in Hrun; [|done|done|simpl; lia].
    destruct Hrun as (h & moved & rest' & -> & Hperm & Hout & Hle).
    by exists h, moved, rest'.
  - rewrite decide_False in Hrun by done. injection Hrun as <- <-.
    apply forced_discard_nothing; [done|by right; left|done].
  - rewrite decide_False in Hrun by done. injection Hrun as <- <-.
    apply forced_discard_nothing; [done|by right; right|done].
Qed.




Lemma Militia_attack_spec q w r w' :
  valid q w -> player_ok (player_at q w) ->
  Militia_attack q w = (r, w') ->
  (reveals_moat (player_at q w) -> r = Ok tt /\ w' = w) /\
  (~ reveals_moat (player_at q w) -> forced_discard q w r w').
Proof.
  intros Hv Hok Hrun. unfold Militia_attack in Hrun.
  unfold bind at 1, gets at 1, Py.contains in Hrun.
  destruct (bool_decide_reflect ("Moat" ∈ name <$> cards (hand (player_at q w))))
    as [Hm|Hm].
  - injection Hrun as <- <-. by split.
  - split; [done|]. intros _.
    unfold bind at 1, gets at 1 in Hrun.
    eapply Militia_loop_spec; [done|done| |exact Hrun]. lia.
Qed.



Lemma Militia_attack_no_moat player w :
  ~ reveals_moat (player_at player w) ->
  Militia_attack player w = Militia_loop (S (length (stdin w))) player w.
Proof.
  intros Hm. unfold Militia_attack, bind, gets, Py.contains.
  by rewrite bool_decide_eq_false_2.
Qed.

Lemma Militia_loop_pass fuel player rest w :
  (3 < length (cards (hand (player_at player w))))%nat ->
  stdin w = RPass :: rest ->
  Militia_loop (S fuel) player w = Militia_loop fuel player (set_stdin rest w).
Proof.
  intros Hlong Hin. cbn [Militia_loop]. unfold bind at 1, gets at 1.
  destruct (Z.ltb_spec 3 (Py.len (cards (hand (player_at player w)))))
    as [_|Hshort]; [|unfold Py.len in Hshort; lia].
  unfold bind at 1, try_except, Human_discard.
  unfold bind at 1, gets at 1. rewrite Hin. cbn [discard_prompt].
  unfold bind at 1, modify at 1, raise.
  by rewrite decide_True.
Qed.

(** C3 (amended). A Pass answered by a defender without Moat whose hand
    holds more than 3 cards is caught and ignored: only the answer is used
    up and the defender is prompted again.  The resolution never ends with
    the Pass signal, and when it ends normally the hand holds at most 3
    cards. *)
Theorem militia_pass_is_ignored (player : nat) (rest : list response)
  (w : World) :
  valid player w ->
  player_ok (player_at player w) ->
  ~ reveals_moat (player_at player w) ->
  (3 < length (cards (hand (player_at player w))))%nat ->
  stdin w = RPass :: rest ->
  Militia_attack player w = Militia_attack player (set_stdin rest w) /\
  forall r w',
    Militia_attack player w = (r, w') ->
    r <> Raise DominionPassError /\
    (r = Ok tt -> (length (cards (hand (player_at player w'))) <= 3)%nat).
Proof.
  intros Hv Hok Hm Hlong Hin. split.
  - rewrite !Militia_attack_no_moat by done. rewrite Hin.
    by apply Militia_loop_pass.
  - intros r w' Hrun.
    destruct (Militia_attack_spec player w r w' Hv Hok Hrun) as [_ Hf].
    destruct (Hf Hm) as (h & moved & rest' & -> & _ & Hout & Hle).
    split.
    + by destruct Hout as [->|[->| ->]].
    + intros Hr. rewrite player_at_put_eq by done. simpl. by apply Hle.
Qed.

(** ** Frames: what a method does not touch *)

Section Frame.
Context {X : Type} (obs : World -> X).

(** The containers and the player updates that [obs] does not see. *)
Variable zone_free : zone -> Prop.
Variable update_free : nat -> (Player -> Player) -> Prop.

Hypothesis obs_zone :
  forall z c w, zone_free z -> obs (zone_set z c w) = obs w.
Hypothesis obs_update :
  forall p f w, update_free p f -> obs (update_player p f w) = obs w.
Hypothesis obs_stdin : forall i w, obs (set_stdin i w) = obs w.
Hypothesis obs_rng : forall g w, obs (set_rng g w) = obs w.

Lemma preserves_ret {A} (a : A) : preserves obs (ret a).
Proof. done. Qed.

Lemma preserves_raise {A} e : preserves obs (@raise A e).
Proof. done. Qed.

Lemma preserves_gets {A} (f : World -> A) : preserves obs (gets f).
Proof. done. Qed.

Lemma preserves_expect {A} (o : option A) e : preserves obs (expect o e).
Proof. by destruct o. Qed.

Lemma preserves_bind {A B} (m : M A) (k : A -> M B) :
  preserves obs m -> (forall a, preserves obs (k a)) ->
  preserves obs (bind m k).
Proof.
  intros Hm Hk w. unfold bind. specialize (Hm w).
  destruct (m w) as [[a|e] w1]; simpl in *; [|done].
  by rewrite Hk.
Qed.

Lemma preserves_bind_result {A B} (P : A -> Prop) (m : M A) (k : A -> M B) :
  preserves obs m ->
  (forall w a w', m w = (Ok a, w') -> P a) ->
  (forall a, P a -> preserves obs (k a)) ->
  preserves obs (bind m k).
Proof.
  intros Hm HP Hk w. unfold bind. specialize (Hm w). specialize (HP w).
  destruct (m w) as [[a|e] w1]; simpl in *; [|done].
  rewrite Hk; [done|]. by eapply HP.
Qed.

Lemma preserves_try_except {A} (m h : M A) e :
  preserves obs m -> preserves obs h -> preserves obs (try_except m e h).
Proof.
  intros Hm Hh w. unfold try_except. specialize (Hm w).
  destruct (m w) as [[a|e'] w1]; simpl in *; [done|].
  destruct (decide (e' = e)); [|done]. by rewrite Hh.
Qed.

Lemma preserves_for_range n (body : M unit) :
  preserves obs body -> preserves obs (for_range n body).
Proof.
  intros Hb. induction n as [|n IH]; [done|].
  by apply preserves_bind.
Qed.

Lemma preserves_for_each {A} (l : list A) (body : A -> M unit) :
  (forall x, x ∈ l -> preserves obs (body x)) ->
  preserves obs (for_each l body).
Proof.
  induction l as [|x l IH]; intros Hb; [done|].
  apply preserves_bind; [apply Hb, list_elem_of_here|].
  intros _. apply IH. intros y Hy. by apply Hb, list_elem_of_further.
Qed.

Lemma preserves_set_stdin i : preserves obs (modify (set_stdin i)).
Proof. intros w. apply obs_stdin. Qed.

Lemma preserves_update p f :
  update_free p f -> preserves obs (modify (update_player p f)).
Proof. intros H w. by apply obs_update. Qed.

Lemma preserves_remove_cards_at z ids :
  zone_free z -> preserves obs (remove_cards_at z ids).
Proof.
  intros Hz w. unfold remove_cards_at.
  destruct (remove_cards ids (zone_get z w)) as [r c]. by apply obs_zone.
Qed.

Lemma preserves_add_cards_at z new :
  zone_free z -> preserves obs (add_cards_at z new).
Proof. intros Hz w. by apply obs_zone. Qed.

Lemma preserves_shuffle_at z :
  zone_free z -> preserves obs (shuffle_at z).
Proof.
  intros Hz w. unfold shuffle_at, modify. simpl.
  destruct (shuffle (zone_get z w) (rng w)) as [c g].
  by rewrite obs_rng, obs_zone.
Qed.

Lemma preserves_transfer source target ids :
  zone_free source -> zone_free target ->
  preserves obs (transfer source target ids).
Proof.
  intros Hs Ht. unfold transfer. apply preserves_bind.
  - destruct ids; [by apply preserves_remove_cards_at|].
    apply preserves_bind; [apply preserves_gets|].
    intros. by apply preserves_remove_cards_at.
  - intros. by apply preserves_add_cards_at.
Qed.
End Frame.

(** *** The play mats *)

Lemma play_mats_update p f w :
  keeps_mat f -> play_mats (update_player p f w) = play_mats w.
Proof.
  intros Hf. unfold play_mats, update_player. simpl.
  apply list_eq. intros i. rewrite !list_lookup_fmap, list_lookup_alter.
  destruct (decide (p = i)) as [->|]; [|done].
  destruct (players w !! i); simpl; [|done]. by rewrite Hf.
Qed.

Lemma play_mats_zone z c w : off_mat z -> play_mats (zone_set z c w) = play_mats w.
Proof.
  intros Hz. destruct z as [p pz| |i|i]; try done.
  apply play_mats_update. intros pl. destruct pz; try done.
  by destruct (Hz p).
Qed.

Lemma off_mat_player p pz : pz <> PlayMat -> off_mat (PlayerZone p pz).
Proof. intros H q [= _ ?]. done. Qed.

Lemma off_mat_trash : off_mat TrashZone.
Proof. done. Qed.

Lemma off_mat_base i : off_mat (BaseDeck i).
Proof. done. Qed.

Lemma off_mat_kingdom i : off_mat (KingdomDeck i).
Proof. done. Qed.

Create HintDb frame discriminated.

Lemma mats_transfer source target ids :
  off_mat source -> off_mat target ->
  preserves play_mats (transfer source target ids).
Proof.
  apply (preserves_transfer play_mats off_mat). intros. by apply play_mats_zone.
Qed.

Lemma mats_shuffle_at z : off_mat z -> preserves play_mats (shuffle_at z).
Proof.
  apply (preserves_shuffle_at play_mats off_mat); [|done].
  intros. by apply play_mats_zone.
Qed.

Lemma mats_update p f :
  keeps_mat f -> preserves play_mats (modify (update_player p f)).
Proof. intros H w. by apply play_mats_update. Qed.

Lemma mats_set_stdin i : preserves play_mats (modify (set_stdin i)).
Proof. done. Qed.

Global Hint Resolve off_mat_player off_mat_trash off_mat_base off_mat_kingdom
  mats_transfer mats_shuffle_at mats_update mats_set_stdin : frame.
Global Hint Extern 1 (_ <> PlayMat) => discriminate : frame.
Global Hint Extern 1 (keeps_mat _) => (by intros ?) : frame.

(** Takes a sequence apart and closes the parts that are primitive. *)
Ltac frame :=
  repeat first
    [ solve [eauto with frame]
    | match goal with
      | |- preserves _ (ret _) => apply preserves_ret
      | |- preserves _ (raise _) => apply preserves_raise
      | |- preserves _ (gets _) => apply preserves_gets
      | |- preserves _ (expect _ _) => apply preserves_expect
      | |- preserves _ (try_except _ _ _) => apply preserves_try_except
      | |- preserves _ (bind _ _) => apply preserves_bind; [|intros ?]
      | |- preserves _ (if ?b then _ else _) => destruct b
      | |- preserves _ (match ?x with _ => _ end) => destruct x
      end ].

Lemma mats_draw_card self : preserves play_mats (draw_card self).
Proof. unfold draw_card. frame. Qed.

Lemma mats_Player_draw self n : preserves play_mats (Player_draw self n).
Proof.
  unfold Player_draw. frame.
  apply preserves_for_range, mats_draw_card.
Qed.

Lemma mats_increment_actions self n :
  preserves play_mats (Player_increment_actions self n).
Proof. unfold Player_increment_actions. frame. Qed.

Lemma mats_increment_buys self n :
  preserves play_mats (Player_increment_buys self n).
Proof. unfold Player_increment_buys. frame. Qed.

Lemma mats_increment_coins self n :
  preserves play_mats (Player_increment_coins self n).
Proof. unfold Player_increment_coins. frame. Qed.

Lemma mats_set_coins self : preserves play_mats (Player_set_coins self).
Proof. unfold Player_set_coins, Player_count_coins. frame. Qed.

Global Hint Resolve mats_Player_draw mats_increment_actions
  mats_increment_buys mats_increment_coins mats_set_coins : frame.

Lemma mats_discard_prompt self ins : preserves play_mats (discard_prompt self ins).
Proof. induction ins as [|r ins IH]; simpl; frame. Qed.

Lemma mats_Human_discard self : preserves play_mats (Human_discard self).
Proof. unfold Human_discard. frame. apply mats_discard_prompt. Qed.

Lemma mats_trash_prompt self card_type ins :
  preserves play_mats (trash_prompt self card_type ins).
Proof. induction ins as [|r ins IH]; simpl; frame. Qed.

Lemma mats_Human_trash self card_type :
  preserves play_mats (Human_trash self card_type).
Proof. unfold Human_trash. frame. apply mats_trash_prompt. Qed.

Global Hint Resolve mats_Human_discard mats_Human_trash : frame.

Lemma find_pile_result id w pile w' :
  find_pile id w = (Ok pile, w') ->
  match pile with Some z => off_mat z | None => True end.
Proof.
  unfold find_pile, bind, gets, expect, ret, raise.
  repeat match goal with
         | |- context [if ?b then _ else _] => destruct b
         | |- context [match ?o with Some _ => _ | None => _ end] =>
             destruct o
         end; intros H; simplify_eq; done.
Qed.

Lemma mats_find_pile id : preserves play_mats (find_pile id).
Proof. unfold find_pile. frame. Qed.

Lemma mats_free_buy_prompt dest max_cost card_type ins :
  off_mat dest ->
  preserves play_mats (free_buy_prompt dest max_cost card_type ins).
Proof.
  intros Hd. induction ins as [|r ins IH]; simpl; [frame|].
  apply preserves_bind; [frame|]. intros _.
  destruct r; try (by frame).
  apply (preserves_bind_result _
           (fun pile => match pile with Some z => off_mat z | None => True end));
    [apply mats_find_pile|apply find_pile_result|].
  intros [z'|] Hz; frame.
Qed.

Lemma mats_Human_free_buy self max_cost card_type destination :
  preserves play_mats (Human_free_buy self max_cost card_type destination).
Proof.
  unfold Human_free_buy. frame; apply mats_free_buy_prompt; eauto with frame.
Qed.

Lemma mats_buy_prompt self ins : preserves play_mats (buy_prompt self ins).
Proof.
  induction ins as [|r ins IH]; simpl; [frame|].
  apply preserves_bind; [frame|]. intros _.
  destruct r; try (by frame).
  apply (preserves_bind_result _
           (fun pile => match pile with Some z => off_mat z | None => True end));
    [apply mats_find_pile|apply find_pile_result|].
  intros [z'|] Hz; frame.
Qed.

Lemma mats_Human_buy self : preserves play_mats (Human_buy self).
Proof. unfold Human_buy. frame. apply mats_buy_prompt. Qed.

Global Hint Resolve mats_Human_free_buy mats_Human_buy : frame.

Lemma mats_Cellar_loop fuel me n : preserves play_mats (Cellar_loop fuel me n).
Proof. revert n. induction fuel as [|fuel IH]; intros n; simpl; frame. Qed.

Lemma mats_Militia_loop fuel player : preserves play_mats (Militia_loop fuel player).
Proof. induction fuel as [|fuel IH]; simpl; frame. Qed.

Lemma mats_Militia_attack player : preserves play_mats (Militia_attack player).
Proof. unfold Militia_attack. frame. apply mats_Militia_loop. Qed.

(** No card effect touches a play mat. *)
Lemma mats_card_action c : preserves play_mats (card_action c).
Proof.
  destruct c; simpl;
    unfold Cellar_action, Market_action, Merchant_action, Militia_action,
      Mine_action, Moat_action, Remodel_action, Smithy_action, Village_action,
      Workshop_action, Festival_action, Laboratory_action;
    frame;
    try apply mats_Cellar_loop;
    try (apply preserves_for_each; intros; apply mats_Militia_attack).
Qed.

Lemma mats_buy_loop fuel self : preserves play_mats (buy_loop fuel self).
Proof. induction fuel as [|fuel IH]; simpl; frame. Qed.

Lemma mats_Human_buy_phase self : preserves play_mats (Human_buy_phase self).
Proof. unfold Human_buy_phase. frame. apply mats_buy_loop. Qed.

(** ** The play mat during a turn *)

Lemma mat_holds_valid self cs w : mat_holds self cs w -> valid self w.
Proof.
  intros (c & Hc & _). apply lookup_lt_Some in Hc.
  unfold play_mats in Hc. rewrite length_fmap in Hc. done.
Qed.

Lemma mat_holds_play_mat self cs w :
  mat_holds self cs w ->
  cards (play_mat (player_at self w)) = cs /\
  id_start (play_mat (player_at self w)) = 0.
Proof.
  intros (c & Hc & Hcs & H0). unfold play_mats in Hc.
  rewrite list_lookup_fmap in Hc.
  destruct (players w !! self) as [pl|] eqn:Hpl; [|done].
  injection Hc as <-. unfold player_at.
  by rewrite (list_lookup_total_correct _ _ _ Hpl).
Qed.

Lemma mat_holds_frame {A} (m : M A) self cs w :
  preserves play_mats m -> mat_holds self cs w -> mat_holds self cs (m w).2.
Proof. intros Hm (c & Hc & H). exists c. by rewrite Hm. Qed.

Lemma mat_holds_run {A} (m : M A) self cs w r w' :
  preserves play_mats m -> m w = (r, w') ->
  mat_holds self cs w -> mat_holds self cs w'.
Proof.
  intros Hm Hrun H. apply (mat_holds_frame m) in H; [|done].
  by rewrite Hrun in H.
Qed.

Lemma mat_holds_update self cs p f w :
  keeps_mat f -> mat_holds self cs w -> mat_holds self cs (update_player p f w).
Proof. intros Hf (c & Hc & H). exists c. by rewrite play_mats_update. Qed.

Lemma mat_holds_zone self cs z c w :
  off_mat z -> mat_holds self cs w -> mat_holds self cs (zone_set z c w).
Proof. intros Hf (c0 & Hc & H). exists c0. by rewrite play_mats_zone. Qed.

Lemma play_mats_set_mat p c w :
  play_mats (zone_set (PlayerZone p PlayMat) c w) = <[p := c]> (play_mats w).
Proof.
  unfold play_mats. simpl. apply list_eq. intros i.
  rewrite list_lookup_fmap, list_lookup_alter.
  destruct (decide (p = i)) as [->|Hne].
  - destruct (decide (i < length (players w))%nat) as [Hlt|Hge].
    + rewrite list_lookup_insert_eq by (by rewrite length_fmap).
      destruct (lookup_lt_is_Some_2 _ _ Hlt) as [pl ->]. done.
    + rewrite list_insert_ge by (rewrite length_fmap; lia).
      rewrite list_lookup_fmap.
      by rewrite (lookup_ge_None_2 (players w) i) by lia.
  - by rewrite list_lookup_insert_ne, list_lookup_fmap.
Qed.

Lemma mat_holds_set_mat self cs cs' c w :
  mat_holds self cs w -> id_start c = 0 ->
  mat_holds self cs' (zone_set (PlayerZone self PlayMat) (refresh cs' c) w).
Proof.
  intros Hm H0. exists (refresh cs' c). rewrite play_mats_set_mat.
  split; [|done]. apply list_lookup_insert_eq.
  destruct Hm as (c0 & Hc0 & _). by apply lookup_lt_Some in Hc0.
Qed.

Lemma remove_cards_singleton i c removed c' :
  remove_cards [i] c = (Ok removed, c') -> exists x, removed = [x].
Proof.
  unfold remove_cards. destruct (_ <? _); [done|].
  rewrite sorted_reverse_singleton. simpl.
  destruct (Py.pop (cards c) (i - id_start c)) as [[x cs']|]; [|done].
  intros [= <- _]. by exists x.
Qed.

Lemma index_last {A} (l : list A) x : Py.index (l ++ [x]) (-1) = Some x.
Proof.
  unfold Py.index. rewrite norm_index_neg by (rewrite length_app; simpl; lia).
  rewrite length_app. simpl.
  replace (Z.to_nat (-1 + Z.of_nat (length l + 1))) with (length l) by lia.
  by rewrite list_lookup_middle.
Qed.

(** From an equation between runs to its two halves, without computing
    in them. *)
Ltac run_eq H r w :=
  let Hr := fresh "Hr" in
  let Hw := fresh "Hw" in
  pose proof (f_equal fst H) as Hr; pose proof (f_equal snd H) as Hw;
  cbn [fst snd] in Hr, Hw; clear H; subst r; subst w.

(** The four statements that play a card: the card goes to the play mat,
    its effect runs without touching a play mat, and the card leaves. *)
Lemma play_card_mat self id cs w r w' :
  mat_holds self cs w ->
  play_card self id w = (r, w') ->
  (r = Ok tt /\ mat_holds self cs w' /\
   exists x, last (cards (discard_pile (player_at self w'))) = Some x) \/
  (exists e, r = Raise e /\
     (mat_holds self cs w' \/ exists x, mat_holds self (cs ++ [x]) w')).
Proof.
  intros Hm Hrun. unfold play_card in Hrun.
  unfold bind at 1, modify at 1 in Hrun.
  set (w1 := update_player self _ w) in Hrun.
  assert (mat_holds self cs w1) as Hm1.
  { apply (mat_holds_frame (modify (update_player self
             (fun p => set_actions (actions p - 1) p))) self cs w); [|done].
    eauto with frame. }
  unfold bind at 1 in Hrun. rewrite transfer_run in Hrun. cbv zeta in Hrun.
  destruct (remove_cards [id] (zone_get (PlayerZone self Hand) w1))
    as [[removed|e] c'] eqn:Hrem; cycle 1.
  { run_eq Hrun r w'. right. exists e. split; [done|]. left.
    apply (mat_holds_zone self cs (PlayerZone self Hand)); eauto with frame. }
  destruct (remove_cards_singleton _ _ _ _ Hrem) as [x ->].
  set (w1' := zone_set (PlayerZone self Hand) c' w1) in Hrun.
  assert (mat_holds self cs w1') as Hm1'.
  { apply mat_holds_zone; eauto with frame. }
  destruct (mat_holds_play_mat _ _ _ Hm1') as [Hcs H0].
  change (zone_get (PlayerZone self PlayMat) w1')
    with (play_mat (player_at self w1')) in Hrun.
  rewrite add_cards_refresh, Hcs in Hrun.
  set (w2 := zone_set (PlayerZone self PlayMat) _ w1') in Hrun.
  assert (mat_holds self (cs ++ [x]) w2) as Hm2.
  { by apply mat_holds_set_mat with (cs := cs). }
  unfold bind at 1, gets at 1 in Hrun.
  destruct (mat_holds_play_mat _ _ _ Hm2) as [Hcs2 H02].
  rewrite Hcs2, index_last in Hrun.
  unfold bind at 1, expect at 1, ret at 1 in Hrun.
  unfold bind at 1 in Hrun.
  destruct (card_action x w2) as [[[]|e] w3] eqn:Hact; cycle 1.
  { run_eq Hrun r w'. right. exists e. split; [done|]. right.
    exists x. by eapply mat_holds_run; [apply mats_card_action|exact Hact|]. }
  assert (mat_holds self (cs ++ [x]) w3) as Hm3.
  { by eapply mat_holds_run; [apply mats_card_action|exact Hact|]. }
  destruct (mat_holds_play_mat _ _ _ Hm3) as [Hcs3 H03].
  rewrite transfer_run in Hrun. cbv zeta in Hrun.
  change (zone_get (PlayerZone self PlayMat) w3)
    with (play_mat (player_at self w3)) in Hrun.
  rewrite (remove_cards_last _ cs x) in Hrun by done.
  set (w3' := zone_set (PlayerZone self PlayMat) _ w3) in Hrun.
  assert (mat_holds self cs w3') as Hm3'.
  { by apply mat_holds_set_mat with (cs := cs ++ [x]). }
  run_eq Hrun r w'. left. split; [done|].
  split.
  - apply (mat_holds_zone self cs (PlayerZone self DiscardPile));
      eauto with frame.
  - exists x. rewrite zone_set_player by (by eapply mat_holds_valid).
    rewrite player_at_put_eq by (by eapply mat_holds_valid).
    simpl. by rewrite last_snoc.
Qed.

Lemma action_prompt_mat self ins cs w r w' :
  mat_holds self cs w ->
  action_prompt self ins w = (r, w') ->
  (r = Ok tt /\ mat_holds self cs w' /\
   exists x, last (cards (discard_pile (player_at self w'))) = Some x) \/
  (exists e, r = Raise e /\
     (mat_holds self cs w' \/ exists x, mat_holds self (cs ++ [x]) w')).
Proof.
  revert w. induction ins as [|a ins IH]; intros w Hm Hrun.
  { run_eq Hrun r w'. right. exists EOFError. split; [done|]. by left. }
  cbn [action_prompt] in Hrun. unfold bind at 1, modify at 1 in Hrun.
  assert (mat_holds self cs (set_stdin ins w)) as Hm' by done.
  destruct a as [| | | |id]; try (by eapply IH).
  - run_eq Hrun r w'. right. exists DominionPassError. split; [done|]. by left.
  - run_eq Hrun r w'. right. exists DominionQuitError. split; [done|]. by left.
  - unfold bind at 1, gets at 1 in Hrun.
    destruct (Py.contains id _); [|by eapply IH].
    destruct (Py.index _ id) as [c|].
    + unfold bind at 1, expect at 1, ret at 1 in Hrun.
      destruct (negb _); [by eapply IH|].
      by eapply play_card_mat.
    + run_eq Hrun r w'. right. exists IndexError. split; [done|]. by left.
Qed.

(** One call of [Human.action]. *)
Lemma Human_action_mat self cs w r w' :
  mat_holds self cs w ->
  Human_action self w = (r, w') ->
  action_outcome self cs w r w'.
Proof.
  intros Hm Hrun. unfold Human_action in Hrun.
  pose proof (mat_holds_valid _ _ _ Hm) as Hv.
  rewrite (bind_run _ _ _ _ _ (set_coins_run self w Hv)) in Hrun.
  set (w1 := put_player self _ w) in Hrun.
  assert (mat_holds self cs w1) as Hm1.
  { eapply mat_holds_run; [apply (mats_set_coins self)|apply set_coins_run|];
      done. }
  unfold bind at 1, gets at 1 in Hrun.
  assert (actions (player_at self w1) = actions (player_at self w)) as Ha.
  { unfold w1. by rewrite player_at_put_eq. }
  rewrite Ha in Hrun.
  destruct (Z.ltb_spec (actions (player_at self w)) 1) as [Hno|Hyes].
  { run_eq Hrun r w'. by apply no_action_left. }
  unfold bind at 1, gets at 1 in Hrun.
  destruct (action_prompt_mat _ _ _ _ _ _ Hm1 Hrun)
    as [(-> & Hm' & x & Hx)|(e & -> & [Hm'|[x Hm']])].
  - by eapply card_completed.
  - by apply prompt_left.
  - by eapply effect_raised.
Qed.

(** One round of the loop of the action phase. *)
Lemma action_loop_step fuel self w :
  action_loop (S fuel) self w
  = if 0 <? actions (player_at self w) then
      match Human_action self w with
      | (Ok _, w1) => action_loop fuel self w1
      | (Raise e, w1) =>
          if decide (e = DominionPassError)
          then (Ok tt, update_player self (set_actions 0) w1)
          else (Raise e, w1)
      end
    else (Ok tt, w).
Proof.
  cbn [action_loop]. unfold bind at 1, gets at 1.
  destruct (0 <? actions (player_at self w)); [|done].
  unfold bind at 1, try_except. unfold bind at 1.
  destruct (Human_action self w) as [[[]|e] w1]; [done|].
  by destruct (decide (e = DominionPassError)).
Qed.

Lemma action_loop_mat fuel self w r w' :
  mat_holds self [] w ->
  action_loop fuel self w = (r, w') ->
  mat_holds self [] w' \/ exists x, mat_holds self [x] w'.
Proof.
  revert w. induction fuel as [|fuel IH]; intros w Hm Hrun.
  { run_eq Hrun r w'. by left. }
  rewrite action_loop_step in Hrun.
  destruct (0 <? actions (player_at self w)); cycle 1.
  { run_eq Hrun r w'. by left. }
  destruct (Human_action self w) as [r1 w1] eqn:Hact.
  pose proof (Human_action_mat self [] w r1 w1 Hm Hact) as Hout.
  assert (keeps_mat (set_actions 0)) as Hk by (by intros ?).
  destruct r1 as [[]|e].
  - apply (IH w1); [|done]. by inversion Hout.
  - assert (mat_holds self [] w1 \/ exists x, mat_holds self [x] w1) as Hm1.
    { inversion Hout as [| |e' w2 Hm2|e' x w2 Hm2]; [by left|right; by exists x]. }
    destruct (decide (e = DominionPassError)).
    + run_eq Hrun r w'. destruct Hm1 as [Hm1|[x Hm1]].
      * left. by apply mat_holds_update.
      * right. exists x. by apply mat_holds_update.
    + by run_eq Hrun r w'.
Qed.

Lemma Human_action_phase_mat self w r w' :
  mat_holds self [] w ->
  Human_action_phase self w = (r, w') ->
  mat_holds self [] w' \/ exists x, mat_holds self [x] w'.
Proof.
  intros Hm Hrun. unfold Human_action_phase in Hrun.
  unfold bind at 1, gets at 1 in Hrun.
  destruct (0 <? actions (player_at self w)); cycle 1.
  { run_eq Hrun r w'. by left. }
  pose proof (mat_holds_valid _ _ _ Hm) as Hv.
  rewrite (bind_run _ _ _ _ _ (set_coins_run self w Hv)) in Hrun.
  unfold bind at 1, gets at 1 in Hrun.
  eapply action_loop_mat; [|exact Hrun].
  eapply mat_holds_run; [apply (mats_set_coins self)|apply set_coins_run|];
    done.
Qed.

(** The loop calls [Human.action] again after a call that returned. *)
Lemma action_loop_next fuel self w w1 :
  0 < actions (player_at self w) ->
  Human_action self w = (Ok tt, w1) ->
  action_loop (S fuel) self w = action_loop fuel self w1.
Proof.
  intros Ha Hact. rewrite action_loop_step, Hact.
  by destruct (Z.ltb_spec 0 (actions (player_at self w))); [|lia].
Qed.

Lemma offered_mat self w w1 :
  mat_holds self [] w -> offered self w w1 -> mat_holds self [] w1.
Proof.
  intros Hm. induction 1 as [|w1 w2 _ IH Hact _]; [done|].
  pose proof (Human_action_mat self [] w1 (Ok tt) w2 IH Hact) as Hout.
  by inversion Hout.
Qed.

(** The first statement of [Player.cleanup] and of [Player.end_game]. *)
Lemma transfer_mat_to_discard self w :
  valid self w ->
  container_ok (play_mat (player_at self w)) ->
  transfer (PlayerZone self PlayMat) (PlayerZone self DiscardPile) None w
  = (Ok tt,
     put_player self
       (set_discard_pile
          (refresh (cards (discard_pile (player_at self w))
                    ++ reverse (cards (play_mat (player_at self w))))
             (discard_pile (player_at self w)))
          (set_play_mat (refresh [] (play_mat (player_at self w)))
             (player_at self w))) w).
Proof.
  intros Hv Hok. rewrite transfer_player by done. cbn [player_zone_get].
  by rewrite remove_cards_all.
Qed.

(** C10 (amended). A call of [Human.action] by a player whose play mat is
    empty ends in one of four ways: at once, when no action is left; with
    the effect of the played card completed, the card off the play mat and
    last on the discard pile; with no card played (pass, quit, end of
    input); or with the effect of the played card raising, the card still
    on the play mat.  So the play mat is empty whenever the action phase
    offers the next choice.  At the end of the buy phase, which is the
    entry to cleanup, the play mat is empty or holds the one card whose
    effect raised (the Pass of a declined gain ends the action phase that
    way).  The transfer at the start of cleanup moves the cards of the
    play mat, last card first, to the end of the discard pile: it moves
    none exactly when the play mat is empty. *)
Theorem play_mat_through_the_turn (self : nat) (w : World) :
  mat_holds self [] w ->
  (forall r w', Human_action self w = (r, w') ->
                action_outcome self [] w r w') /\
  (forall w1, offered self w w1 -> mat_holds self [] w1) /\
  (forall r w',
     (Human_action_phase self >> Human_buy_phase self) w = (r, w') ->
     mat_holds self [] w' \/ exists x, mat_holds self [x] w') /\
  (forall w1,
     valid self w1 ->
     container_ok (play_mat (player_at self w1)) ->
     transfer (PlayerZone self PlayMat) (PlayerZone self DiscardPile) None w1
     = (Ok tt,
        put_player self
          (set_discard_pile
             (refresh (cards (discard_pile (player_at self w1))
                       ++ reverse (cards (play_mat (player_at self w1))))
                (discard_pile (player_at self w1)))
             (set_play_mat (refresh [] (play_mat (player_at self w1)))
                (player_at self w1))) w1)).
Proof.
  intros Hm. split_and!.
  - intros r w'. by apply Human_action_mat.
  - intros w1. by apply offered_mat.
  - intros r w' Hrun. unfold bind in Hrun.
    destruct (Human_action_phase self w) as [r1 w1] eqn:Hact.
    pose proof (Human_action_phase_mat self w r1 w1 Hm Hact) as Hm1.
    destruct r1 as [[]|e]; [|by run_eq Hrun r w'].
    destruct Hm1 as [Hm1|[x Hm1]]; [left|right; exists x];
      by eapply mat_holds_run; [apply mats_Human_buy_phase|exact Hrun|].
  - intros w1. apply transfer_mat_to_discard.
Qed.

(** ** The end of the game *)



Lemma insert_pair_desc_spec x l r :
  StronglySorted (fun a b : Z * nat => b.1 <= a.1) l ->
  insert_pair_desc x l = Ok r ->
  StronglySorted (fun a b : Z * nat => b.1 <= a.1) r /\ r ≡ₚ x :: l.
Proof.
  revert r. induction l as [|y l IH]; intros r Hs Hr; simpl in Hr.
  { injection Hr as <-. split; [|done]. by repeat constructor. }
  apply StronglySorted_inv in Hs as [Hs Hy].
  destruct (Z.ltb_spec y.1 x.1) as [Hlt|Hge].
  { injection Hr as <-. split; [|done].
    constructor; [by constructor|].
    constructor; [lia|]. eapply Forall_impl; [exact Hy|]. simpl. lia. }
  destruct (Z.ltb_spec x.1 y.1) as [Hlt|Hge'].
  - destruct (insert_pair_desc x l) as [r'|e] eqn:Hins; [|done].
    injection Hr as <-. destruct (IH r' Hs eq_refl) as [Hs' Hp'].
    split.
    + constructor; [done|]. rewrite Hp'. constructor; [lia|done].
    + rewrite Hp'. apply perm_swap.
  - destruct (decide (x.2 = y.2)); [|done].
    injection Hr as <-. split; [|done].
    constructor; [by constructor|].
    constructor; [lia|]. eapply Forall_impl; [exact Hy|]. simpl. lia.
Qed.

Lemma sorted_pairs_reverse_spec l r :
  sorted_pairs_reverse l = Ok r ->
  StronglySorted (fun a b : Z * nat => b.1 <= a.1) r /\ r ≡ₚ l.
Proof.
  revert r. induction l as [|x l IH]; intros r Hr; simpl in Hr.
  { injection Hr as <-. split; [constructor|done]. }
  destruct (sorted_pairs_reverse l) as [r'|e]; [|done].
  destruct (IH r' eq_refl) as [Hs Hp].
  destruct (insert_pair_desc_spec x r' r Hs Hr) as [Hs' Hp'].
  split; [done|]. by rewrite Hp', Hp.
Qed.




(** [Player.end_game] on a well kept player: every card ends in the deck
    and the victory values of all of them are added to the score. *)
Lemma Player_end_game_run self w :
  valid self w -> player_ok (player_at self w) ->
  exists all,
    all ≡ₚ cards (deck (player_at self w)) ++ cards (hand (player_at self w))
           ++ cards (discard_pile (player_at self w))
           ++ cards (play_mat (player_at self w)) /\
    Player_end_game self w
    = (Ok tt,
       put_player self
         (set_victory_points
            (victory_points (player_at self w) + sum_list (victory <$> all))
            (set_play_mat (refresh [] (play_mat (player_at self w)))
               (with_zones all [] [] (player_at self w)))) w).
Proof.
  intros Hv (Hd & Hh & Hp & Hm).
  set (pl := player_at self w) in *.
  eexists. split; cycle 1.
  - unfold Player_end_game.
    erewrite bind_run; [|by apply transfer_mat_to_discard; [|apply Hm]].
    fold pl.
    erewrite bind_run; cycle 1.
    { rewrite transfer_player by (by rewrite ?valid_put).
      rewrite player_at_put_eq by done. cbn [player_zone_get hand
        set_discard_pile set_play_mat].
      rewrite remove_cards_all by apply Hh. rewrite put_put. done. }
    erewrite bind_run; cycle 1.
    { rewrite transfer_player by (by rewrite ?valid_put).
      rewrite player_at_put_eq by done.
      cbn [player_zone_get player_zone_set hand discard_pile set_hand
             set_discard_pile set_play_mat].
      rewrite remove_cards_all by done. rewrite put_put. done. }
    unfold modify. rewrite update_player_put by (by rewrite ?valid_put).
    rewrite player_at_put_eq, put_put by done.
    cbn [player_zone_get player_zone_set deck hand discard_pile set_hand
           set_deck set_discard_pile set_play_mat victory_points].
    rewrite !add_cards_refresh, !cards_refresh. reflexivity.
  - rewrite !reverse_Permutation. f_equiv. apply Permutation_app_comm.
Qed.


(** ** Fuel: the loops of the model never run out *)

Lemma bounded_ret {A} n (a : A) : bounded n (ret a).
Proof. by intros w Hw. Qed.

Lemma bounded_raise {A} n e : e <> OutOfFuel -> bounded n (@raise A e).
Proof. intros He w Hw. split; [|done]. simpl. congruence. Qed.

Lemma bounded_gets {A} n (f : World -> A) : bounded n (gets f).
Proof. by intros w Hw. Qed.

Lemma bounded_expect {A} n (o : option A) e :
  e <> OutOfFuel -> bounded n (expect o e).
Proof. intros. destruct o; [apply bounded_ret|by apply bounded_raise]. Qed.

Lemma bounded_modify n (f : World -> World) :
  (forall w, stdin (f w) = stdin w) -> bounded n (modify f).
Proof. intros Hf w Hw. split; [done|]. simpl. by rewrite Hf. Qed.

Lemma bounded_bind {A B} n (m : M A) (k : A -> M B) :
  bounded n m -> (forall a, bounded n (k a)) -> bounded n (bind m k).
Proof.
  intros Hm Hk w Hw. unfold bind. destruct (Hm w Hw) as [Hr Hl].
  destruct (m w) as [[a|e] w1]; simpl in *; [by apply Hk|].
  split; [|done]. intros [= ->]. by apply Hr.
Qed.

Lemma bounded_try_except {A} n (m h : M A) e :
  bounded n m -> bounded n h -> bounded n (try_except m e h).
Proof.
  intros Hm Hh w Hw. unfold try_except. destruct (Hm w Hw) as [Hr Hl].
  destruct (m w) as [[a|e'] w1]; simpl in *; [done|].
  destruct (decide (e' = e)); [by apply Hh|done].
Qed.

Lemma bounded_for_range n k (body : M unit) :
  bounded n body -> bounded n (for_range k body).
Proof.
  intros Hb. induction k as [|k IH]; [apply bounded_ret|].
  by apply bounded_bind.
Qed.

Lemma bounded_for_each {A} n (l : list A) (body : A -> M unit) :
  (forall x, bounded n (body x)) -> bounded n (for_each l body).
Proof.
  intros Hb. induction l as [|x l IH]; [apply bounded_ret|].
  by apply bounded_bind.
Qed.

(** A loop that is given one more unit of fuel than there are answers. *)
Lemma bounded_fuel {A} n (k : nat -> M A) :
  (forall n' fuel, (n' < fuel)%nat -> bounded n' (k fuel)) ->
  bounded n (bind (gets (fun w => S (length (stdin w)))) k).
Proof.
  intros Hk w Hw. unfold bind, gets.
  destruct (Hk (length (stdin w)) (S (length (stdin w))) (Nat.lt_succ_diag_r _) w)
    as [Hr Hl]; [done|].
  split; [done|]. lia.
Qed.

Lemma bounded_le {A} n (m : M A) w :
  bounded (length (stdin w)) m -> (length (stdin w) <= n)%nat ->
  (m w).1 <> Raise OutOfFuel /\ (length (stdin (m w).2) <= n)%nat.
Proof. intros Hm Hw. destruct (Hm w) as [Hr Hl]; [done|]. split; [done|lia]. Qed.

Lemma stdin_zone_set z c w : stdin (zone_set z c w) = stdin w.
Proof. by destruct z. Qed.

Lemma remove_cards_raises ids c e c' :
  remove_cards ids c = (Raise e, c') -> e = DominionError \/ e = IndexError.
Proof.
  unfold remove_cards. destruct (_ <? _); [intros [= <- _]; by left|].
  destruct (pop_cards _ _ _ _) as [[removed|e'] cs] eqn:Hpop; [done|].
  intros [= <- _]. right.
  apply (pop_cards_raises (Py.sorted_reverse ids) (id_start c) (cards c) []).
  by rewrite Hpop.
Qed.

Lemma bounded_transfer n source target ids : bounded n (transfer source target ids).
Proof.
  intros w Hw. rewrite transfer_run. cbv zeta.
  destruct (remove_cards _ _) as [[transferred|e] c'] eqn:Hrem.
  - split; [done|]. simpl. by rewrite !stdin_zone_set.
  - split; [|simpl; by rewrite stdin_zone_set].
    simpl. by destruct (remove_cards_raises _ _ _ _ Hrem) as [-> | ->].
Qed.

Lemma bounded_shuffle_at n z : bounded n (shuffle_at z).
Proof.
  intros w Hw. unfold shuffle_at, modify. split; [done|]. simpl.
  destruct (shuffle (zone_get z w) (rng w)) as [c g]. simpl.
  by rewrite stdin_zone_set.
Qed.

Lemma bounded_update n p f : bounded n (modify (update_player p f)).
Proof. by apply bounded_modify. Qed.

Lemma bounded_set_stdin n i :
  (length i <= n)%nat -> bounded n (modify (set_stdin i)).
Proof. by intros Hi w Hw. Qed.

Create HintDb fuel discriminated.

Global Hint Resolve bounded_transfer bounded_shuffle_at bounded_update : fuel.
Global Hint Extern 1 (_ <> OutOfFuel) => discriminate : fuel.

(** Takes a sequence apart, as [frame] does. *)
Ltac fuel :=
  repeat first
    [ solve [eauto with fuel]
    | match goal with
      | |- bounded _ (ret _) => apply bounded_ret
      | |- bounded _ (raise _) => apply bounded_raise
      | |- bounded _ (gets _) => apply bounded_gets
      | |- bounded _ (expect _ _) => apply bounded_expect
      | |- bounded _ (try_except _ _ _) => apply bounded_try_except
      | |- bounded _ (bind (gets (fun w => S (length (stdin w)))) _) =>
          apply bounded_fuel; intros ? ? ?
      | |- bounded _ (bind _ _) => apply bounded_bind; [|intros ?]
      | |- bounded _ (for_range _ _) => apply bounded_for_range
      | |- bounded _ (for_each _ _) => apply bounded_for_each; intros ?
      | |- bounded _ (let _ := _ in _) => cbv zeta
      | |- bounded _ (if ?b then _ else _) => destruct b
      | |- bounded _ (match ?x with _ => _ end) => destruct x
      end ].

Lemma bounded_draw_card n self : bounded n (draw_card self).
Proof. unfold draw_card. fuel. Qed.

Lemma bounded_Player_draw n self k : bounded n (Player_draw self k).
Proof. unfold Player_draw. fuel. apply bounded_draw_card. Qed.

Lemma bounded_increment_actions n self k :
  bounded n (Player_increment_actions self k).
Proof. unfold Player_increment_actions. fuel. Qed.

Lemma bounded_increment_buys n self k : bounded n (Player_increment_buys self k).
Proof. unfold Player_increment_buys. fuel. Qed.

Lemma bounded_increment_coins n self k :
  bounded n (Player_increment_coins self k).
Proof. unfold Player_increment_coins. fuel. Qed.

Lemma bounded_set_coins n self : bounded n (Player_set_coins self).
Proof. unfold Player_set_coins, Player_count_coins. fuel. Qed.

Lemma bounded_reset_points n self : bounded n (Player_reset_points self).
Proof. unfold Player_reset_points. fuel. Qed.

Lemma bounded_find_pile n id : bounded n (find_pile id).
Proof. unfold find_pile. fuel. Qed.

Global Hint Resolve bounded_Player_draw bounded_increment_actions
  bounded_increment_buys bounded_increment_coins bounded_set_coins
  bounded_reset_points bounded_find_pile : fuel.


(** A prompt takes the first answer off the console before anything
    else. *)
Lemma bounded_after_read {A} n rest (k : M A) w :
  (length rest <= n)%nat -> bounded n k ->
  ((modify (set_stdin rest) >> k) w).1 <> Raise OutOfFuel /\
  (length (stdin ((modify (set_stdin rest) >> k) w).2) <= n)%nat.
Proof. intros Hn Hk. unfold bind, modify. simpl. by apply Hk. Qed.

Lemma discard_prompt_fuel self ins n w :
  (prompt_room ins w <= n)%nat ->
  (discard_prompt self ins w).1 <> Raise OutOfFuel /\
  (length (stdin (discard_prompt self ins w).2) <= n)%nat.
Proof.
  revert n w. induction ins as [|a rest IH]; intros n w Hn; [done|].
  assert (bounded n (discard_prompt self rest)) as Hrec.
  { intros w1 Hw1. apply IH. destruct rest; simpl in *; lia. }
  cbn [discard_prompt]. apply bounded_after_read; [done|]. fuel.
Qed.

Lemma trash_prompt_fuel self card_type ins n w :
  (prompt_room ins w <= n)%nat ->
  (trash_prompt self card_type ins w).1 <> Raise OutOfFuel /\
  (length (stdin (trash_prompt self card_type ins w).2) <= n)%nat.
Proof.
  revert n w. induction ins as [|a rest IH]; intros n w Hn; [done|].
  assert (bounded n (trash_prompt self card_type rest)) as Hrec.
  { intros w1 Hw1. apply IH. destruct rest; simpl in *; lia. }
  cbn [trash_prompt]. apply bounded_after_read; [done|]. fuel.
Qed.

Lemma free_buy_prompt_fuel dest max_cost card_type ins n w :
  (prompt_room ins w <= n)%nat ->
  (free_buy_prompt dest max_cost card_type ins w).1 <> Raise OutOfFuel /\
  (length (stdin (free_buy_prompt dest max_cost card_type ins w).2) <= n)%nat.
Proof.
  revert n w. induction ins as [|a rest IH]; intros n w Hn; [done|].
  assert (bounded n (free_buy_prompt dest max_cost card_type rest)) as Hrec.
  { intros w1 Hw1. apply IH. destruct rest; simpl in *; lia. }
  cbn [free_buy_prompt]. apply bounded_after_read; [done|]. fuel.
Qed.

Lemma buy_prompt_fuel self ins n w :
  (prompt_room ins w <= n)%nat ->
  (buy_prompt self ins w).1 <> Raise OutOfFuel /\
  (length (stdin (buy_prompt self ins w).2) <= n)%nat.
Proof.
  revert n w. induction ins as [|a rest IH]; intros n w Hn; [done|].
  assert (bounded n (buy_prompt self rest)) as Hrec.
  { intros w1 Hw1. apply IH. destruct rest; simpl in *; lia. }
  cbn [buy_prompt]. apply bounded_after_read; [done|]. fuel.
Qed.

(** A prompt started on the console as it stands. *)
Lemma bounded_on_console {A} n (prompt : list response -> M A) :
  (forall ins n w, (prompt_room ins w <= n)%nat ->
     (prompt ins w).1 <> Raise OutOfFuel /\
     (length (stdin (prompt ins w).2) <= n)%nat) ->
  bounded n (let* ins := gets stdin in prompt ins).
Proof.
  intros Hp w Hw. unfold bind, gets. apply Hp.
  destruct (stdin w) eqn:Hin; simpl in *; rewrite ?Hin; simpl; lia.
Qed.

Lemma reads_on_console {A} (prompt : list response -> M A) w :
  prompt [] w = (Raise EOFError, w) ->
  (forall ins n w, (prompt_room ins w <= n)%nat ->
     (prompt ins w).1 <> Raise OutOfFuel /\
     (length (stdin (prompt ins w).2) <= n)%nat) ->
  reads_answer (let* ins := gets stdin in prompt ins) w.
Proof.
  intros Hnil Hp. unfold reads_answer, bind, gets.
  destruct (stdin w) as [|a rest] eqn:Hin.
  - left. by rewrite Hnil.
  - right. destruct (Hp (a :: rest) (length rest) w) as [_ Hl]; [done|].
    simpl. lia.
Qed.

Lemma bounded_Human_discard n self : bounded n (Human_discard self).
Proof. apply bounded_on_console. apply discard_prompt_fuel. Qed.

Lemma bounded_Human_trash n self card_type :
  bounded n (Human_trash self card_type).
Proof. apply bounded_on_console. apply trash_prompt_fuel. Qed.

Lemma bounded_Human_free_buy n self max_cost card_type destination :
  bounded n (Human_free_buy self max_cost card_type destination).
Proof.
  unfold Human_free_buy.
  destruct (String.eqb _ _); [|destruct (String.eqb _ _)].
  - apply bounded_on_console. apply free_buy_prompt_fuel.
  - apply bounded_on_console. apply free_buy_prompt_fuel.
  - fuel.
Qed.

Lemma bounded_Human_buy n self : bounded n (Human_buy self).
Proof.
  unfold Human_buy. apply bounded_bind; [fuel|intros _].
  apply bounded_bind; [fuel|intros me]. destruct (buys me <? 1); [fuel|].
  apply bounded_on_console. apply buy_prompt_fuel.
Qed.

Lemma reads_Human_discard self w : reads_answer (Human_discard self) w.
Proof. apply reads_on_console; [done|]. apply discard_prompt_fuel. Qed.

Global Hint Resolve bounded_Human_discard bounded_Human_trash
  bounded_Human_free_buy bounded_Human_buy : fuel.

(** One round of a loop: the body reads an answer, so what follows needs
    less fuel. *)
Lemma bounded_round {A B} n (m : M A) (k : A -> M B) w :
  bounded n m -> reads_answer m w ->
  (forall a n', (n' < n)%nat -> bounded n' (k a)) ->
  (length (stdin w) <= n)%nat ->
  (bind m k w).1 <> Raise OutOfFuel /\
  (length (stdin (bind m k w).2) <= n)%nat.
Proof.
  intros Hm Hread Hk Hw. unfold bind.
  destruct (Hm w Hw) as [Hr Hl]. unfold reads_answer in Hread.
  destruct (m w) as [[a|e] w1]; simpl in *.
  - destruct Hread as [?|Hlt]; [done|].
    destruct (Hk a (length (stdin w1)) ltac:(lia) w1) as [? ?]; [done|].
    split; [done|lia].
  - split; [|done]. intros [= ->]. by apply Hr.
Qed.

(** A handler that reads nothing keeps the round a reading one. *)
Lemma reads_try_except {A} (m h : M A) e w :
  reads_answer m w -> e <> EOFError ->
  (forall w1, (length (stdin (h w1).2) <= length (stdin w1))%nat) ->
  reads_answer (try_except m e h) w.
Proof.
  unfold reads_answer, try_except. intros Hm He Hh.
  destruct (m w) as [[a|e'] w1]; simpl in *; [done|].
  destruct (decide (e' = e)) as [->|]; [|done].
  destruct Hm as [[=]|Hlt]; [done|]. right. specialize (Hh w1). lia.
Qed.

Lemma reads_then {A B} (m : M A) (k : A -> M B) w :
  reads_answer m w ->
  (forall a w1, (length (stdin (k a w1).2) <= length (stdin w1))%nat) ->
  (forall a w1, (k a w1).1 <> Raise EOFError) ->
  reads_answer (bind m k) w.
Proof.
  unfold reads_answer, bind. intros Hm Hk Hne.
  destruct (m w) as [[a|e] w1]; simpl in *.
  - destruct Hm as [[=]|Hlt]. right. specialize (Hk a w1). lia.
  - destruct Hm as [[= ->]|Hlt]; [by left|by right].
Qed.

Lemma Cellar_loop_fuel fuel me num_discards n :
  (n < fuel)%nat -> bounded n (Cellar_loop fuel me num_discards).
Proof.
  revert n num_discards.
  induction fuel as [|fuel IH]; intros n num_discards Hn; [lia|].
  cbn [Cellar_loop]. apply bounded_bind; [fuel|intros p].
  destruct (0 <? _); [|fuel]. intros w Hw.
  apply bounded_round; [fuel| | |done].
  - apply reads_try_except; [|done|done].
    apply reads_then; [apply reads_Human_discard|done|done].
  - intros [k|] n' Hn'; [apply IH; lia|fuel].
Qed.

Lemma Militia_loop_fuel fuel player n :
  (n < fuel)%nat -> bounded n (Militia_loop fuel player).
Proof.
  revert n. induction fuel as [|fuel IH]; intros n Hn; [lia|].
  cbn [Militia_loop]. apply bounded_bind; [fuel|intros p].
  destruct (3 <? _); [|fuel]. intros w Hw.
  apply bounded_round; [fuel| | |done].
  - apply reads_try_except; [apply reads_Human_discard|done|done].
  - intros _ n' Hn'. apply IH. lia.
Qed.

Lemma bounded_card_action n c : bounded n (card_action c).
Proof.
  destruct c; cbn [card_action];
    unfold Cellar_action, Market_action, Merchant_action, Militia_action,
      Mine_action, Moat_action, Remodel_action, Smithy_action, Village_action,
      Workshop_action, Festival_action, Laboratory_action, Militia_attack;
    fuel; first [by apply Cellar_loop_fuel | by apply Militia_loop_fuel].
Qed.

Lemma update_player_invalid p f w : ~ valid p w -> update_player p f w = w.
Proof.
  intros Hp. unfold update_player.
  rewrite (list_alter_ext f id (players w) (players w) p); [|  |done].
  - rewrite list_alter_id; [by destruct w|done].
  - intros x Hx. apply lookup_lt_Some in Hx. by destruct Hp.
Qed.

Lemma player_at_update p f w :
  player_at p (update_player p f w)
  = if decide (p < length (players w))%nat
    then f (player_at p w) else player_at p w.
Proof.
  destruct (decide (p < length (players w))%nat) as [Hp|Hp].
  - by apply list_lookup_total_alter_eq.
  - by rewrite update_player_invalid.
Qed.

Lemma set_coins_keeps self w :
  Player_set_coins self w = (Ok tt, (Player_set_coins self w).2) /\
  stdin (Player_set_coins self w).2 = stdin w /\
  actions (player_at self (Player_set_coins self w).2)
  = actions (player_at self w) /\
  buys (player_at self (Player_set_coins self w).2) = buys (player_at self w).
Proof.
  split; [done|]. split; [done|].
  unfold Player_set_coins, Player_count_coins, bind, modify. simpl.
  rewrite !player_at_update.
  repeat destruct (decide _); try done.
Qed.

Lemma bounded_play_card n self id : bounded n (play_card self id).
Proof. unfold play_card. fuel. apply bounded_card_action. Qed.

Lemma action_prompt_fuel self ins n w :
  (prompt_room ins w <= n)%nat ->
  (action_prompt self ins w).1 <> Raise OutOfFuel /\
  (length (stdin (action_prompt self ins w).2) <= n)%nat.
Proof.
  revert n w. induction ins as [|a rest IH]; intros n w Hn; [done|].
  assert (bounded n (action_prompt self rest)) as Hrec.
  { intros w1 Hw1. apply IH. destruct rest; simpl in *; lia. }
  cbn [action_prompt]. apply bounded_after_read; [done|]. fuel.
  apply bounded_play_card.
Qed.

Lemma bounded_Human_action n self : bounded n (Human_action self).
Proof.
  unfold Human_action. apply bounded_bind; [fuel|intros _].
  apply bounded_bind; [fuel|intros me]. destruct (actions me <? 1); [fuel|].
  apply bounded_on_console. apply action_prompt_fuel.
Qed.

(** With an action left, [Human.action] asks for a card. *)
Lemma reads_Human_action self w :
  0 < actions (player_at self w) -> reads_answer (Human_action self) w.
Proof.
  intros Hact. destruct (set_coins_keeps self w) as (Hrun & Hin & Ha & _).
  unfold reads_answer, Human_action, bind.
  destruct (Player_set_coins self w) as [r w1]. simpl in *.
  injection Hrun as ->. rewrite Ha.
  destruct (Z.ltb_spec (actions (player_at self w)) 1) as [|_]; [lia|].
  rewrite <- Hin.
  change (reads_answer (let* ins := gets stdin in action_prompt self ins) w1).
  apply (reads_on_console (action_prompt self)); [done|].
  apply action_prompt_fuel.
Qed.

Lemma reads_Human_buy self w :
  0 < buys (player_at self w) -> reads_answer (Human_buy self) w.
Proof.
  intros Hbuy. destruct (set_coins_keeps self w) as (Hrun & Hin & _ & Hb).
  unfold reads_answer, Human_buy, bind.
  destruct (Player_set_coins self w) as [r w1]. simpl in *.
  injection Hrun as ->. rewrite Hb.
  destruct (Z.ltb_spec (buys (player_at self w)) 1) as [|_]; [lia|].
  rewrite <- Hin.
  change (reads_answer (let* ins := gets stdin in buy_prompt self ins) w1).
  apply (reads_on_console (buy_prompt self)); [done|].
  apply buy_prompt_fuel.
Qed.

Lemma bind_gets {A B} (f : World -> A) (k : A -> M B) w :
  bind (gets f) k w = k (f w) w.
Proof. done. Qed.

Lemma action_loop_fuel fuel self n :
  (n < fuel)%nat -> bounded n (action_loop fuel self).
Proof.
  revert n. induction fuel as [|fuel IH]; intros n Hn; [lia|].
  intros w Hw. cbn [action_loop]. rewrite bind_gets.
  destruct (Z.ltb_spec 0 (actions (player_at self w))) as [Hact|_]; [|done].
  apply bounded_round; [fuel; apply bounded_Human_action| | |done].
  - apply reads_try_except; [|done|done].
    apply reads_then; [by apply reads_Human_action|done|done].
  - intros [|] n' Hn'; [apply IH; lia|fuel].
Qed.

Lemma buy_loop_fuel fuel self n :
  (n < fuel)%nat -> bounded n (buy_loop fuel self).
Proof.
  revert n. induction fuel as [|fuel IH]; intros n Hn; [lia|].
  intros w Hw. cbn [buy_loop]. rewrite bind_gets.
  destruct (Z.ltb_spec 0 (buys (player_at self w))) as [Hbuy|_]; [|done].
  apply bounded_round; [fuel| | |done].
  - apply reads_try_except; [|done|done].
    apply reads_then; [by apply reads_Human_buy|done|done].
  - intros [|] n' Hn'; [apply IH; lia|fuel].
Qed.

Lemma bounded_Human_action_phase n self : bounded n (Human_action_phase self).
Proof. unfold Human_action_phase. fuel. by apply action_loop_fuel. Qed.

Lemma bounded_Human_buy_phase n self : bounded n (Human_buy_phase self).
Proof. unfold Human_buy_phase. fuel. by apply buy_loop_fuel. Qed.

Lemma bounded_Player_cleanup n self : bounded n (Player_cleanup self).
Proof. unfold Player_cleanup, Player_draw_hand. fuel. Qed.

(** X1: every loop of a turn reads an answer from the console in each
    round.  So a turn ends on every console input: it never needs more
    rounds of a loop than there are answers left, which is what the loops
    are given, and it only takes answers off the console. *)
Theorem turn_ends_on_any_input (self : nat) (w : World) :
  (Human_turn self w).1 <> Raise OutOfFuel /\
  (length (stdin (Human_turn self w).2) <= length (stdin w))%nat.
Proof.
  assert (bounded (length (stdin w)) (Human_turn self)) as Hturn;
    [|by apply Hturn].
  unfold Human_turn. fuel.
  - apply bounded_Human_action_phase.
  - apply bounded_Human_buy_phase.
  - apply bounded_Player_cleanup.
Qed.

(** ** Containers: what [remove_cards] and [shuffle] keep *)

Lemma pop_perm {A} (l : list A) i x l' :
  Py.pop l i = Some (x, l') -> l ≡ₚ x :: l'.
Proof.
  intros (k & _ & Hx & -> & _)%pop_Some. by apply delete_Permutation.
Qed.

(** The loop of [remove_cards] only moves cards from the list to the
    cards removed, also when it stops at a bad index. *)
Lemma pop_cards_moves ids start cs removed r cs' :
  pop_cards ids start cs removed = (r, cs') ->
  exists popped,
    popped ++ cs' ≡ₚ cs /\
    match r with
    | Ok out => out = removed ++ popped /\ length popped = length ids
    | Raise e => e = IndexError /\ (length popped < length ids)%nat
    end.
Proof.
  revert cs removed.
  induction ids as [|i ids IH]; intros cs removed; simpl.
  { intros [= <- <-]. exists []. by rewrite app_nil_r. }
  destruct (Py.pop cs (i - start)) as [[x cs1]|] eqn:Hpop.
  - intros H. apply IH in H as (popped & Hperm & Hr).
    exists (x :: popped). split.
    + simpl. rewrite Hperm. symmetry. by eapply pop_perm.
    + destruct r as [out|e].
      * destruct Hr as [-> Hlen]. split; [by rewrite <- app_assoc|].
        simpl. lia.
      * destruct Hr as [-> Hlen]. split; [done|]. simpl. lia.
  - intros [= <- <-]. exists []. split; [done|]. split; [done|]. simpl. lia.
Qed.

Lemma sorted_reverse_length l : length (Py.sorted_reverse l) = length l.
Proof. by rewrite sorted_reverse_perm. Qed.

(** X2: when [remove_cards] returns, it returns as many cards as it was
    given identifiers, whatever the identifiers are; the cards returned
    and the cards left are together the cards the container held; the
    container is left with its count and identifiers brought up to
    date. *)
Theorem remove_cards_moves_cards (ids : list Z) (c : CardContainer)
  (removed : list card) (c' : CardContainer) :
  remove_cards ids c = (Ok removed, c') ->
  length removed = length ids /\
  removed ++ cards c' ≡ₚ cards c /\
  container_ok c' /\ id_start c' = id_start c.
Proof.
  unfold remove_cards. destruct (_ <? _); [done|].
  destruct (pop_cards _ _ _ _) as [[out|e] cs] eqn:Hpop; [|done].
  intros [= <- <-].
  apply pop_cards_moves in Hpop as (popped & Hperm & -> & Hlen).
  rewrite sorted_reverse_length in Hlen. simpl. by split_and!.
Qed.


Lemma swap_length {A} (x : list A) i j : length (Py.swap x i j) = length x.
Proof.
  unfold Py.swap. destruct (x !! i), (x !! j); try done.
  by rewrite !length_insert.
Qed.

Lemma randbelow_rest n g : length (Py.randbelow n g).2 = (length g - 1)%nat.
Proof. destruct g; simpl; lia. Qed.

Lemma shuffle_from_draws {A} i (x : list A) g :
  length (Py.shuffle_from i x g).2 = (length g - i)%nat.
Proof.
  revert x g. induction i as [|i IH]; intros x g; simpl; [lia|].
  pose proof (randbelow_rest (S (S i)) g) as Hg.
  destruct (Py.randbelow (S (S i)) g) as [j g']. simpl in Hg.
  rewrite IH. lia.
Qed.

(** X4: [shuffle] keeps the cards of the container, in some order, renumbers
    them from [id_start] and leaves the count alone, so a well-kept
    container stays well kept; it takes one number from the random source
    for each card but one. *)
Theorem shuffle_keeps_the_cards (c : CardContainer) (g : list nat) :
  cards (shuffle c g).1 ≡ₚ cards c /\
  id_start (shuffle c g).1 = id_start c /\
  num_cards (shuffle c g).1 = num_cards c /\
  identifiers (shuffle c g).1
  = (fun k => Z.of_nat k + id_start c) <$> seq 0 (length (cards c)) /\
  (container_ok c -> container_ok (shuffle c g).1) /\
  length (shuffle c g).2 = (length g - (length (cards c) - 1))%nat.
Proof.
  unfold shuffle.
  pose proof (shuffle_perm (cards c) g) as Hperm.
  pose proof (shuffle_from_draws (length (cards c) - 1) (cards c) g) as Hg.
  fold (Py.shuffle (cards c) g) in Hg.
  destruct (Py.shuffle (cards c) g) as [cs g']. simpl in *.
  split_and!; try done.
  - rewrite (imap_seq_0 cs (fun k => Z.of_nat k + id_start c)).
    by rewrite Hperm.
  - intros [Hn Hi]. split; simpl; [|done].
    rewrite Hn. unfold Py.len. by rewrite Hperm.
Qed.

(** ** Setting up the supply *)

Lemma CardDeck_cards card_type num :
  cards (CardDeck card_type num) = replicate (Z.to_nat num) card_type.
Proof. done. Qed.

Lemma deck_has_first card_type num :
  is_Some (Py.index (cards (CardDeck card_type num)) 0) <-> 0 < num.
Proof.
  rewrite CardDeck_cards. destruct (Z.to_nat num) as [|k] eqn:Hk; simpl.
  - split; [by intros [? [=]]|lia].
  - split; [lia|]. intros _. by eexists.
Qed.

(** X5: [Base] keeps a reference card of every pile, so it cannot be
    built with an empty Copper pile: [Base(num_players)], and with it
    [Supply(num_players)], raises [IndexError] exactly from nine players
    on, where [60 - 7 * num_players] is no longer positive.  Below that
    the six piles hold [60 - 7 * num_players] Copper, 40 Silver, 30 Gold
    and 12 (8 up to two players) of each Victory card. *)
Theorem base_supply_needs_copper (num_players : Z) :
  (9 <= num_players ->
   Base_init num_players = Raise IndexError /\
   Supply_init num_players = Raise IndexError) /\
  (num_players < 9 ->
   exists b, Base_init num_players = Ok b /\
     Supply_init num_players
     = Ok (mkSupply b (Kingdom_init num_players 6)) /\
     base_identifiers b = [0; 1; 2; 3; 4; 5] /\
     (cards <$> base_decks b)
     = [ replicate (Z.to_nat (60 - num_players * 7)) Copper;
         replicate 40 Silver; replicate 30 Gold;
         replicate (Z.to_nat (if 2 <? num_players then 12 else 8)) Estate;
         replicate (Z.to_nat (if 2 <? num_players then 12 else 8)) Duchy;
         replicate (Z.to_nat (if 2 <? num_players then 12 else 8)) Province ]).
Proof.
  assert (forall v, (if 2 <? num_players then 12 else 8) = v ->
                    0 < v) as Hv by (intros v <-; by destruct (2 <? _)).
  split; intros Hn.
  - assert (Base_init num_players = Raise IndexError) as Hb.
    { unfold Base_init. cbv zeta. cbn [forallb].
      rewrite (bool_decide_eq_false_2
                 (is_Some (Py.index (cards (CardDeck Copper _)) 0))); [done|].
      rewrite deck_has_first. lia. }
    split; [done|]. unfold Supply_init. by rewrite Hb.
  - assert (exists b, Base_init num_players = Ok b /\
              base_decks b
              = [ CardDeck Copper (60 - num_players * 7);
                  CardDeck Silver 40; CardDeck Gold 30;
                  CardDeck Estate (if 2 <? num_players then 12 else 8);
                  CardDeck Duchy (if 2 <? num_players then 12 else 8);
                  CardDeck Province (if 2 <? num_players then 12 else 8) ] /\
              base_identifiers b = [0; 1; 2; 3; 4; 5]) as (b & Hb & Hd & Hi).
    { unfold Base_init. cbv zeta. cbn [forallb].
      rewrite !bool_decide_eq_true_2;
        [by eexists|rewrite deck_has_first..];
        first [lia | by destruct (2 <? num_players)]. }
    exists b. split; [done|]. split_and!; [|done|].
    + unfold Supply_init. by rewrite Hb, Hd.
    + rewrite Hd. cbn [fmap list_fmap]. by rewrite !CardDeck_cards.
Qed.

(** ** Trashing and gaining *)

Lemma trash_step_skip self card_type ins w r w' :
  (length ins < length (stdin w))%nat ->
  trash_step self card_type (set_stdin ins w) r w' ->
  trash_step self card_type w r w'.
Proof.
  intros Hlen H. inversion H as [k x rest Hk Ht Hl| rest Hl | rest Hl |]; subst.
  - change (player_at self (set_stdin ins w)) with (player_at self w) in *.
    change (trash (set_stdin ins w)) with (trash w).
    rewrite set_stdin_set_stdin. constructor; [done|done|]. simpl in Hl. lia.
  - rewrite set_stdin_set_stdin. constructor. simpl in Hl. lia.
  - rewrite set_stdin_set_stdin. constructor. simpl in Hl. lia.
  - rewrite set_stdin_set_stdin. constructor.
Qed.

Lemma contains_of_type card_type c :
  match card_type with
  | None => true
  | Some t => Py.contains t (get_parent_classes c)
  end = true <-> of_type card_type c.
Proof.
  unfold of_type, Py.contains. destruct card_type as [t|].
  - rewrite bool_decide_eq_true. split; [by intros H t' [= <-]|eauto].
  - split; [by intros _ t' [=]|done].
Qed.

(** Moving the card at position [k] of the hand to the trash. *)
Lemma transfer_to_trash self (k : nat) x w :
  valid self w -> zone_ok (hand (player_at self w)) ->
  cards (hand (player_at self w)) !! k = Some x ->
  transfer (PlayerZone self Hand) TrashZone (Some [Z.of_nat k]) w
  = (Ok tt,
     set_trash (refresh (cards (trash w) ++ [x]) (trash w))
       (put_player self
          (set_hand
             (refresh (delete k (cards (hand (player_at self w))))
                (hand (player_at self w)))
             (player_at self w)) w)).
Proof.
  intros Hv [Hok H0] Hx. rewrite transfer_run. cbv zeta.
  change (zone_get (PlayerZone self Hand) w) with (hand (player_at self w)).
  pose proof (remove_cards_one (hand (player_at self w)) k x Hx) as Hr.
  rewrite H0 in Hr. replace (Z.of_nat k + 0) with (Z.of_nat k) in Hr by lia.
  rewrite Hr. rewrite zone_set_player by done.
  by rewrite add_cards_refresh.
Qed.

Lemma trash_prompt_step self card_type ins w r w' :
  stdin w = ins -> valid self w -> zone_ok (hand (player_at self w)) ->
  trash_prompt self card_type ins w = (r, w') ->
  trash_step self card_type w r w'.
Proof.
  revert w. induction ins as [|a ins IH]; intros w Hin Hv Hok Hrun.
  { simpl in Hrun. injection Hrun as <- <-.
    pose proof (trash_step_eof self card_type w) as H.
    rewrite <- Hin, set_stdin_same in H. exact H. }
  assert (trash_prompt self card_type ins (set_stdin ins w) = (r, w') ->
          trash_step self card_type w r w') as Hskip.
  { intros H. apply (trash_step_skip self card_type ins);
      [rewrite Hin; simpl; lia|].
    by apply IH. }
  cbn [trash_prompt] in Hrun. unfold bind at 1, modify at 1 in Hrun.
  destruct a as [| | | |id]; try (by apply Hskip).
  - injection Hrun as <- <-. constructor. rewrite Hin. simpl. lia.
  - injection Hrun as <- <-. constructor. rewrite Hin. simpl. lia.
  - unfold bind at 1, gets at 1 in Hrun.
    change (player_at self (set_stdin ins w)) with (player_at self w) in Hrun.
    unfold Py.contains at 1 in Hrun.
    destruct (bool_decide_reflect (id ∈ identifiers (hand (player_at self w))))
      as [Hid|Hid]; [|by apply Hskip].
    apply zone_ok_identifiers in Hid; [|done].
    unfold Py.index, Py.len in *. rewrite norm_index_nonneg in Hrun by lia.
    cbn [mbind option_bind] in Hrun.
    destruct (lookup_lt_is_Some_2 (cards (hand (player_at self w))) (Z.to_nat id))
      as [x Hx]; [lia|].
    rewrite Hx in Hrun. unfold bind at 1, expect at 1, ret at 1 in Hrun.
    cbv zeta in Hrun.
    destruct (match card_type with
              | None => true
              | Some t => Py.contains t (get_parent_classes x)
              end) eqn:Hacc; [|by apply Hskip].
    apply contains_of_type in Hacc.
    replace id with (Z.of_nat (Z.to_nat id)) in Hrun at 1 by lia.
    rewrite (bind_run _ _ _ tt _
               (transfer_to_trash self _ x (set_stdin ins w) Hv Hok Hx))
      in Hrun.
    injection Hrun as <- <-.
    change (player_at self (set_stdin ins w)) with (player_at self w).
    change (trash (set_stdin ins w)) with (trash w).
    constructor; [done|done|]. rewrite Hin. simpl. lia.
Qed.


Lemma gain_step_skip dest max_cost card_type ins w r w' :
  (length ins < length (stdin w))%nat ->
  gain_step dest max_cost card_type (set_stdin ins w) r w' ->
  gain_step dest max_cost card_type w r w'.
Proof.
  intros Hlen H.
  inversion H as [id z c pile_rest rest Hid Hc Ht Hcost Hl| rest Hl | rest Hl |];
    subst.
  - rewrite zone_get_set_stdin in Hc.
    change (supply (set_stdin ins w)) with (supply w) in Hid.
    rewrite set_stdin_set_stdin. econstructor; try done. simpl in Hl. lia.
  - rewrite set_stdin_set_stdin. constructor. simpl in Hl. lia.
  - rewrite set_stdin_set_stdin. constructor. simpl in Hl. lia.
  - rewrite set_stdin_set_stdin. constructor.
Qed.

Lemma imap_identifiers {A} (l : list A) (start id : Z) :
  id ∈ imap (fun i _ => Z.of_nat i + start) l
  <-> 0 <= id - start < Z.of_nat (length l).
Proof.
  rewrite (imap_seq_0 l (fun j => Z.of_nat j + start)).
  rewrite list_elem_of_fmap. setoid_rewrite elem_of_seq. split.
  - intros (k & -> & Hk). lia.
  - intros H. exists (Z.to_nat (id - start)). lia.
Qed.

(** In a well-formed supply an identifier names one pile, or none. *)
Lemma find_pile_wf id w :
  supply_wf (supply w) ->
  (exists z, identifies (supply w) id z /\
             find_pile id w = (Ok (Some z), w) /\
             zone_ok (zone_get z w)) \/
  ((forall z, ~ identifies (supply w) id z) /\ find_pile id w = (Ok None, w)).
Proof.
  intros (Hpiles & Hb & Hk).
  assert (forall l : list CardContainer, imap (fun i _ => Z.of_nat i) l
            = imap (fun i _ => Z.of_nat i + 0) l) as Himap.
  { intros l. apply imap_ext. intros. lia. }
  destruct (decide (id ∈ base_identifiers (base_supply (supply w)))) as [Hin|Hin].
  - left. pose proof Hin as Hin'. rewrite Hb, Himap, imap_identifiers in Hin'.
    assert (Py.norm_index (length (base_decks (base_supply (supply w)))) id
            = Some (Z.to_nat id)) as Hn by (apply norm_index_nonneg; lia).
    exists (BaseDeck (Z.to_nat id)). split_and!.
    + by constructor.
    + apply find_pile_identifies. by constructor.
    + eapply Forall_forall; [exact Hpiles|]. unfold all_piles.
      apply elem_of_app. left. simpl.
      apply list_elem_of_lookup_total_2. lia.
  - destruct (decide (id ∈ kingdom_identifiers (kingdom_supply (supply w))))
      as [Hin2|Hin2].
    + left. pose proof Hin2 as Hin'. rewrite Hk, imap_identifiers in Hin'.
      assert (Py.norm_index (length (kingdom_decks (kingdom_supply (supply w))))
                (id - kingdom_id_start (kingdom_supply (supply w)))
              = Some (Z.to_nat (id - kingdom_id_start (kingdom_supply (supply w)))))
        as Hn by (apply norm_index_nonneg; lia).
      exists (KingdomDeck (Z.to_nat (id - kingdom_id_start (kingdom_supply (supply w))))).
      split_and!.
      * by constructor.
      * apply find_pile_identifies. by constructor.
      * eapply Forall_forall; [exact Hpiles|]. unfold all_piles.
        apply elem_of_app. right. simpl.
        apply list_elem_of_lookup_total_2. lia.
    + right. split.
      * intros z Hz. by inversion Hz.
      * unfold find_pile, bind, gets, Py.contains.
        by rewrite !bool_decide_eq_false_2.
Qed.

(** Moving the first card of the pile [z] to [dest]. *)
Lemma transfer_gain z dest c pile_rest w :
  id_start (zone_get z w) = 0 -> cards (zone_get z w) = c :: pile_rest ->
  transfer z dest (Some [0]) w = (Ok tt, gained z dest c pile_rest w).
Proof.
  intros H0 Hc. rewrite transfer_run. cbv zeta.
  rewrite (remove_cards_first _ c pile_rest H0 Hc).
  by rewrite add_cards_refresh.
Qed.

Lemma free_buy_prompt_step dest max_cost card_type ins w r w' :
  stdin w = ins -> supply_wf (supply w) ->
  free_buy_prompt dest max_cost card_type ins w = (r, w') ->
  gain_step dest max_cost card_type w r w'.
Proof.
  revert w. induction ins as [|a ins IH]; intros w Hin Hwf Hrun.
  { simpl in Hrun. injection Hrun as <- <-.
    pose proof (gain_step_eof dest max_cost card_type w) as H.
    rewrite <- Hin, set_stdin_same in H. exact H. }
  assert (free_buy_prompt dest max_cost card_type ins (set_stdin ins w)
          = (r, w') -> gain_step dest max_cost card_type w r w') as Hskip.
  { intros H. apply (gain_step_skip dest max_cost card_type ins);
      [rewrite Hin; simpl; lia|].
    by apply IH. }
  cbn [free_buy_prompt] in Hrun. unfold bind at 1, modify at 1 in Hrun.
  destruct a as [| | | |id]; try (by apply Hskip).
  - injection Hrun as <- <-. constructor. rewrite Hin. simpl. lia.
  - injection Hrun as <- <-. constructor. rewrite Hin. simpl. lia.
  - destruct (find_pile_wf id (set_stdin ins w) Hwf)
      as [(z & Hid & Hfind & [[Hn Hids] H0])|[_ Hfind]].
    2:{ rewrite (bind_run _ _ _ _ _ Hfind) in Hrun. by apply Hskip. }
    rewrite (bind_run _ _ _ _ _ Hfind) in Hrun.
    unfold bind at 1, gets at 1 in Hrun.
    rewrite Hn in Hrun. unfold Py.len in Hrun.
    destruct (cards (zone_get z (set_stdin ins w))) as [|c pile_rest] eqn:Hc.
    { by apply Hskip. }
    destruct (Z.ltb_spec (Z.of_nat (length (c :: pile_rest))) 1) as [Hl|_];
      [simpl in Hl; lia|].
    change (Py.index (c :: pile_rest) 0) with (Some c) in Hrun.
    unfold bind at 1, expect at 1, ret at 1 in Hrun. cbv zeta in Hrun.
    destruct (match card_type with
              | None => true
              | Some t => Py.contains t (get_parent_classes c)
              end) eqn:Hacc; [|by apply Hskip].
    apply contains_of_type in Hacc. cbn [negb] in Hrun.
    destruct (Z.ltb_spec max_cost (cost c)) as [|Hcost]; [by apply Hskip|].
    rewrite (transfer_gain z dest c pile_rest _ H0 Hc) in Hrun.
    injection Hrun as <- <-.
    rewrite zone_get_set_stdin in Hc.
    econstructor; try done. rewrite Hin. simpl. lia.
Qed.


(** ** Buying a card *)

Lemma buy_step_skip self ins w r w' :
  (length ins < length (stdin w))%nat ->
  buy_step self (set_stdin ins w) r w' -> buy_step self w r w'.
Proof.
  intros Hlen H.
  inversion H as [id z c pile_rest rest Hid Hc Hcost Hl| rest Hl | rest Hl |];
    subst.
  - rewrite zone_get_set_stdin in Hc.
    change (supply (set_stdin ins w)) with (supply w) in Hid.
    change (player_at self (set_stdin ins w)) with (player_at self w) in Hcost.
    rewrite set_stdin_set_stdin. econstructor; try done. simpl in Hl. lia.
  - rewrite set_stdin_set_stdin. constructor. simpl in Hl. lia.
  - rewrite set_stdin_set_stdin. constructor. simpl in Hl. lia.
  - rewrite set_stdin_set_stdin. constructor.
Qed.

Lemma identifies_pile s id z :
  identifies s id z -> (exists k, z = BaseDeck k) \/ (exists k, z = KingdomDeck k).
Proof. intros [k ? ?|k ? ? ?]; eauto. Qed.

Lemma zone_get_pile_update z p f w :
  (exists k, z = BaseDeck k) \/ (exists k, z = KingdomDeck k) ->
  zone_get z (update_player p f w) = zone_get z w.
Proof. by intros [[k ->]|[k ->]]. Qed.

Lemma buy_prompt_step self ins w r w' :
  stdin w = ins -> supply_wf (supply w) ->
  buy_prompt self ins w = (r, w') -> buy_step self w r w'.
Proof.
  revert w. induction ins as [|a ins IH]; intros w Hin Hwf Hrun.
  { simpl in Hrun. injection Hrun as <- <-.
    pose proof (buy_step_eof self w) as H.
    rewrite <- Hin, set_stdin_same in H. exact H. }
  assert (buy_prompt self ins (set_stdin ins w) = (r, w') ->
          buy_step self w r w') as Hskip.
  { intros H. apply (buy_step_skip self ins); [rewrite Hin; simpl; lia|].
    by apply IH. }
  cbn [buy_prompt] in Hrun. unfold bind at 1, modify at 1 in Hrun.
  destruct a as [| | | |id]; try (by apply Hskip).
  - injection Hrun as <- <-. constructor. rewrite Hin. simpl. lia.
  - injection Hrun as <- <-. constructor. rewrite Hin. simpl. lia.
  - destruct (find_pile_wf id (set_stdin ins w) Hwf)
      as [(z & Hid & Hfind & [[Hn Hids] H0])|[_ Hfind]].
    2:{ rewrite (bind_run _ _ _ _ _ Hfind) in Hrun. by apply Hskip. }
    rewrite (bind_run _ _ _ _ _ Hfind) in Hrun.
    unfold bind at 1, gets at 1 in Hrun.
    rewrite Hn in Hrun. unfold Py.len in Hrun.
    destruct (cards (zone_get z (set_stdin ins w))) as [|c pile_rest] eqn:Hc.
    { by apply Hskip. }
    destruct (Z.ltb_spec (Z.of_nat (length (c :: pile_rest))) 1) as [Hl|_];
      [simpl in Hl; lia|].
    change (Py.index (c :: pile_rest) 0) with (Some c) in Hrun.
    unfold bind at 1, expect at 1, ret at 1 in Hrun.
    unfold bind at 1, gets at 1 in Hrun.
    change (player_at self (set_stdin ins w)) with (player_at self w) in Hrun.
    destruct (Z.ltb_spec (coins (player_at self w)) (cost c)) as [|Hcost];
      [by apply Hskip|].
    unfold bind at 1, modify at 1 in Hrun.
    pose proof (identifies_pile _ _ _ Hid) as Hz.
    rewrite (transfer_gain z _ c pile_rest) in Hrun;
      [|by rewrite zone_get_pile_update..].
    injection Hrun as <- <-.
    rewrite zone_get_set_stdin in Hc.
    econstructor; try done. rewrite Hin. simpl. lia.
Qed.


(** ** Mine and Remodel *)

Lemma trash_step_table self card_type w r w' :
  trash_step self card_type w r w' -> supply w' = supply w.
Proof. by intros []. Qed.

Lemma trash_then_gain_run me card_type bonus destination dest w r w' :
  valid me w -> zone_ok (hand (player_at me w)) -> supply_wf (supply w) ->
  (forall max_cost w1,
     Human_free_buy me max_cost card_type destination w1
     = free_buy_prompt dest max_cost card_type (stdin w1) w1) ->
  try_except
    (let* card_cost := Human_trash me card_type in
     Human_free_buy me (card_cost + bonus) card_type destination)
    DominionPassError (ret tt) w = (r, w') ->
  trash_then_gain me card_type bonus dest w r w'.
Proof.
  intros Hv Hok Hwf Hfree Hrun.
  unfold try_except, bind at 1 in Hrun.
  destruct (Human_trash me card_type w) as [r1 w1] eqn:Htrash.
  assert (trash_step me card_type w r1 w1) as Hstep.
  { unfold Human_trash, bind, gets in Htrash. by eapply trash_prompt_step. }
  exists r1, w1. split; [done|].
  destruct r1 as [card_cost|e].
  - rewrite Hfree in Hrun.
    destruct (free_buy_prompt dest (card_cost + bonus) card_type (stdin w1) w1)
      as [r2 w2] eqn:Hgain.
    assert (gain_step dest (card_cost + bonus) card_type w1 r2 w2) as Hg.
    { eapply free_buy_prompt_step; [done| |done].
      by rewrite (trash_step_table _ _ _ _ _ Hstep). }
    destruct r2 as [[]|e].
    + injection Hrun as <- <-. by exists (Ok tt).
    + destruct (decide (e = DominionPassError)) as [->|Hne].
      * injection Hrun as <- <-. by exists (Raise DominionPassError).
      * injection Hrun as <- <-. exists (Raise e). split; [done|].
        by destruct e.
  - destruct (decide (e = DominionPassError)) as [->|Hne].
    + by injection Hrun as <- <-.
    + injection Hrun as <- <-. split; [done|]. by destruct e.
Qed.


(** ** Cellar *)

Lemma Cellar_loop_spec fuel me n w r w' :
  valid me w -> player_ok (player_at me w) ->
  (length (stdin w) < fuel)%nat ->
  Cellar_loop fuel me n w = (r, w') ->
  exists h moved rest,
    w' = put_player me (discarded h moved (player_at me w)) (set_stdin rest w) /\
    cards (hand (player_at me w)) ≡ₚ h ++ moved /\
    (r = Ok (n + Z.of_nat (length moved)) \/
     r = Raise DominionQuitError \/ r = Raise EOFError).
Proof.
  revert n w. induction fuel as [|fuel IH]; intros n w Hv Hok Hfuel Hrun; [lia|].
  assert (forall i, put_player me
                      (discarded (cards (hand (player_at me w))) []
                         (player_at me w)) (set_stdin i w)
                    = set_stdin i w) as Hnothing.
  { intros i. by rewrite discarded_nothing, put_same_stdin. }
  cbn [Cellar_loop] in Hrun. rewrite bind_gets in Hrun.
  destruct (0 <? num_cards (hand (player_at me w))); cycle 1.
  { injection Hrun as <- <-.
    exists (cards (hand (player_at me w))), [], (stdin w).
    rewrite Hnothing, set_stdin_same, app_nil_r. split_and!; [done|done|].
    left. simpl. f_equal. lia. }
  destruct (Human_discard me w) as [r1 w1] eqn:Hd.
  pose proof (Human_discard_step me w r1 w1 Hv Hok Hd) as Hstep.
  unfold bind at 1, try_except, bind at 1 in Hrun. rewrite Hd in Hrun.
  inversion Hstep as [k x rest Hk Hl| rest Hl | rest Hl |]; subst r1 w1.
  - unfold ret at 1 in Hrun. apply IH in Hrun; cycle 1.
    { by apply valid_put. }
    { rewrite player_at_put_eq by done. by apply player_ok_discarded. }
    { simpl. lia. }
    destruct Hrun as (h & moved & rest' & -> & Hperm & Hout).
    rewrite player_at_put_eq in Hperm by done.
    rewrite player_at_put_eq by done.
    exists h, ([x] ++ moved), rest'. split_and!.
    + by rewrite discarded_discarded, put_stdin_put_stdin.
    + simpl in Hperm. rewrite (delete_Permutation _ _ _ Hk), Hperm.
      simpl. by rewrite Permutation_middle.
    + destruct Hout as [->|Hout]; [left|by right].
      f_equal. rewrite length_app. simpl. lia.
  - rewrite decide_True in Hrun by done. injection Hrun as <- <-.
    exists (cards (hand (player_at me w))), [], rest.
    rewrite Hnothing, app_nil_r. split_and!; [done|done|].
    left. simpl. f_equal. lia.
  - rewrite decide_False in Hrun by done. injection Hrun as <- <-.
    exists (cards (hand (player_at me w))), [], rest.
    rewrite Hnothing, app_nil_r. split_and!; [done|done|]. right. by left.
  - rewrite decide_False in Hrun by done. injection Hrun as <- <-.
    exists (cards (hand (player_at me w))), [], [].
    rewrite Hnothing, app_nil_r. split_and!; [done|done|]. right. by right.
Qed.

(** X10: Cellar gives the player one action, lets the player discard cards
    of the hand one at a time until the player passes or the hand is
    empty, and then draws as many cards as were discarded.  That draw
    cannot fail for want of cards, since the discarded cards are in the
    discard pile by then: the effect ends normally, or with the quit
    signal or at the end of the input, and never with [DominionError].
    When it ends normally the hand is as large as before, and the deck,
    the hand and the discard pile together hold the cards they held. *)
Theorem cellar_redraws_what_was_discarded (w : World) (r : result unit)
  (w' : World) :
  valid (current_player w) w ->
  player_ok (player_at (current_player w) w) ->
  Cellar_action w = (r, w') ->
  let me := current_player w in
  let pl := player_at me w in
  let pl' := player_at me w' in
  effect_outcome r /\
  actions pl' = actions pl + 1 /\
  play_mat pl' = play_mat pl /\
  (forall q, q <> me -> player_at q w' = player_at q w) /\
  supply w' = supply w /\ trash w' = trash w /\
  exists h moved,
    cards (hand pl) ≡ₚ h ++ moved /\
    match r with
    | Ok _ =>
        exists drawn,
          cards (hand pl') = h ++ drawn /\
          length drawn = length moved /\
          length (cards (hand pl')) = length (cards (hand pl)) /\
          drawn ++ cards (deck pl') ++ cards (discard_pile pl')
            ≡ₚ cards (deck pl) ++ cards (discard_pile pl) ++ moved
    | Raise _ => pl' = discarded h moved (set_actions (actions pl + 1) pl)
    end.
Proof.
  intros Hv Hok Hrun me pl pl'.
  unfold Cellar_action in Hrun. rewrite bind_gets in Hrun.
  rewrite (bind_run _ _ _ _ _ (increment_actions_run _ 1 _ Hv)) in Hrun.
  fold me pl in Hrun.
  set (pl0 := set_actions (actions pl + 1) pl) in *.
  set (w0 := put_player me pl0 w) in *.
  rewrite bind_gets in Hrun.
  assert (valid me w0) as Hv0 by (by apply valid_put).
  assert (player_at me w0 = pl0) as Hpl0 by (by apply player_at_put_eq).
  assert (player_ok pl0) as Hok0 by exact Hok.
  unfold bind in Hrun.
  destruct (Cellar_loop (S (length (stdin w0))) me 0 w0) as [r1 w1] eqn:Hloop.
  apply Cellar_loop_spec in Hloop as (h & moved & rest & -> & Hperm & Hr1);
    [|done|by rewrite Hpl0|lia].
  rewrite Hpl0 in Hperm, Hrun.
  set (pl1 := discarded h moved pl0) in *.
  set (w1 := put_player me pl1 (set_stdin rest w0)) in *.
  assert (valid me w1) as Hv1 by (by apply valid_put).
  assert (player_at me w1 = pl1) as Hpl1 by (by apply player_at_put_eq).
  assert (player_ok pl1) as Hok1 by (by apply player_ok_discarded).
  assert (forall q, q <> me -> player_at q w1 = player_at q w) as Hothers.
  { intros q Hq. unfold w1. rewrite player_at_put_ne by done.
    change (player_at q (set_stdin rest w0)) with (player_at q w0).
    unfold w0. by rewrite player_at_put_ne. }
  destruct Hr1 as [->|[->| ->]]; cycle 1.
  { injection Hrun as <- <-. unfold pl'. rewrite Hpl1.
    split_and!; try done; [by right; left|by exists h, moved]. }
  { injection Hrun as <- <-. unfold pl'. rewrite Hpl1.
    split_and!; try done; [by right; right|by exists h, moved]. }
  replace (0 + Z.of_nat (length moved)) with (Z.of_nat (length moved)) in Hrun
    by lia.
  assert (length moved
          <= length (cards (deck (player_at me w1)))
             + length (cards (discard_pile (player_at me w1))))%nat as Henough.
  { rewrite Hpl1. simpl. rewrite length_app. lia. }
  rewrite Player_draw_enough in Hrun;
    [|rewrite Hpl1; apply Hok1..|done].
  destruct (draw_loop me (length moved) w1 Hv1) as
    (d' & drawn & dp' & g' & Hdraw & Hlen & Hcons & _); [by rewrite Hpl1|done|].
  rewrite Hdraw in Hrun. injection Hrun as <- <-.
  rewrite Hpl1 in Hcons.
  assert (pl' = with_zones d' (h ++ drawn) dp' pl1) as ->.
  { unfold pl'. change (player_at me (set_rng g' ?x)) with (player_at me x).
    rewrite player_at_put_eq by done. by rewrite Hpl1. }
  change (cards (hand pl0)) with (cards (hand pl)) in Hperm.
  split_and!; try done.
  - by left.
  - intros q Hq. change (player_at q (set_rng g' ?x)) with (player_at q x).
    rewrite player_at_put_ne by done. by apply Hothers.
  - exists h, moved. split; [done|]. exists drawn. split_and!; try done.
    + cbn [with_zones hand cards set_discard_pile set_hand refresh
             count_cards set_identifiers with_cards].
      by rewrite length_app, Hlen, Hperm, length_app.
Qed.

(** ** Clean-up *)

Lemma player_ok_swept pl : player_ok pl -> player_ok (swept pl).
Proof.
  intros (Hd & [_ Hh] & [_ Hp] & [_ Hm]). unfold swept.
  split_and!; simpl; try done; by apply zone_ok_refresh.
Qed.

Lemma cleanup_sweeps self w :
  valid self w -> player_ok (player_at self w) ->
  (transfer (PlayerZone self PlayMat) (PlayerZone self DiscardPile) None >>
   transfer (PlayerZone self Hand) (PlayerZone self DiscardPile) None) w
  = (Ok tt, put_player self (swept (player_at self w)) w).
Proof.
  intros Hv (Hd & Hh & Hp & Hm).
  erewrite bind_run; [|by apply transfer_mat_to_discard; [|apply Hm]].
  rewrite transfer_player by (by rewrite ?valid_put).
  rewrite player_at_put_eq by done.
  cbn [player_zone_get hand set_discard_pile set_play_mat].
  rewrite remove_cards_all by apply Hh. rewrite put_put.
  cbn [player_zone_get player_zone_set discard_pile set_discard_pile
         set_play_mat].
  rewrite add_cards_refresh, cards_refresh, refresh_refresh, <- app_assoc.
  done.
Qed.

(** X11: [Player.cleanup] moves the play mat and then the hand to the
    discard pile, each last card first, and draws five cards.  If the
    deck and the discard pile then hold fewer than five cards it stops
    with [DominionError]: the hand is left empty and the points of the
    turn are not reset.  Otherwise the new hand is the five cards drawn
    (the first five of the deck when it has that many, else the whole deck
    and the first cards of the shuffled discard pile), no card is lost,
    and the player is left with one action, one buy, no coins of the turn
    and the coins of the new hand counted. *)
Theorem cleanup_deals_a_new_hand (self : nat) (w : World) (r : result unit)
  (w' : World) :
  valid self w -> player_ok (player_at self w) ->
  Player_cleanup self w = (r, w') ->
  let pl := swept (player_at self w) in
  let available :=
    (length (cards (deck pl)) + length (cards (discard_pile pl)))%nat in
  ((available < 5)%nat ->
   r = Raise DominionError /\ w' = put_player self pl w) /\
  ((5 <= available)%nat ->
   r = Ok tt /\
   exists d' drawn dp' g',
     w' = set_rng g'
            (put_player self (readied (with_zones d' drawn dp' pl)) w) /\
     length drawn = 5%nat /\
     drawn ++ d' ++ dp' ≡ₚ cards (deck pl) ++ cards (discard_pile pl) /\
     ((5 <= length (cards (deck pl)))%nat ->
      drawn = take 5 (cards (deck pl)) /\ d' = drop 5 (cards (deck pl)) /\
      dp' = cards (discard_pile pl) /\ g' = rng w) /\
     ((length (cards (deck pl)) < 5)%nat ->
      dp' = [] /\
      exists rest, drawn = cards (deck pl) ++ rest /\
                   rest ++ d' ≡ₚ cards (discard_pile pl))).
Proof.
  intros Hv Hok Hrun pl available.
  assert (player_ok pl) as Hokpl by (by apply player_ok_swept).
  set (w2 := put_player self pl w).
  assert (valid self w2) as Hv2 by (by apply valid_put).
  assert (player_at self w2 = pl) as Hpl2 by (by apply player_at_put_eq).
  assert (Player_cleanup self w
          = (Player_draw self (Z.of_nat 5) >>
             Player_reset_points self >> Player_set_coins self) w2) as Hstart.
  { unfold Player_cleanup, Player_draw_hand.
    pose proof (cleanup_sweeps self w Hv Hok) as Hs.
    unfold bind in Hs |- *.
    destruct (transfer (PlayerZone self PlayMat) _ None w) as [[[]|e] wa];
      [|done].
    by rewrite Hs. }
  rewrite Hstart in Hrun. clear Hstart.
  split; intros Havail.
  - rewrite (bind_raise _ _ _ DominionError w2) in Hrun.
    { by injection Hrun as <- <-. }
    apply Player_draw_short; rewrite Hpl2; [apply Hokpl..|done].
  - destruct (draw_loop self 5 w2 Hv2) as
      (d' & drawn & dp' & g' & Hdraw & Hlen & Hcons & Htop & Hshuf);
      [by rewrite Hpl2|by rewrite Hpl2|].
    rewrite Hpl2 in *.
    erewrite bind_run in Hrun; cycle 1.
    { rewrite Player_draw_enough; [exact Hdraw|rewrite Hpl2; apply Hokpl..|].
      by rewrite Hpl2. }
    change (cards (hand pl) ++ drawn) with drawn in Hrun.
    unfold w2 in Hrun. rewrite put_put in Hrun.
    erewrite bind_run in Hrun; cycle 1.
    { apply reset_points_run. by apply valid_put. }
    assert (forall pl1 pl2,
              valid self (put_player self pl1
                            (set_rng g' (put_player self pl2 w)))) as Hv3.
    { intros. apply valid_put, valid_set_rng. by apply valid_put. }
    rewrite set_coins_run in Hrun by apply Hv3.
    change (player_at self (set_rng g' ?x)) with (player_at self x) in Hrun.
    rewrite !player_at_put_eq in Hrun
      by first [done | apply valid_set_rng; by apply valid_put].
    injection Hrun as <- <-. split; [done|].
    exists d', drawn, dp', g'. split_and!; try done.
    destruct w. unfold put_player, set_rng, set_players. simpl. f_equal.
    by rewrite !list_insert_insert_eq.
Qed.

(** ** The phases of a turn *)

Lemma player_at_invalid p w : ~ valid p w -> player_at p w = inhabitant.
Proof.
  intros Hp. unfold player_at. rewrite list_lookup_total_alt.
  rewrite lookup_ge_None_2; [done|]. unfold valid in Hp. lia.
Qed.

Lemma update_player_field p (f : Player -> Player) (field : Player -> Z) w :
  (forall pl, field (f pl) = 0) -> field inhabitant = 0 ->
  field (player_at p (update_player p f w)) = 0.
Proof.
  intros Hf H0. rewrite player_at_update.
  destruct (decide _) as [Hp|Hp]; [done|].
  by rewrite player_at_invalid.
Qed.

Lemma action_loop_ends fuel self w r w' :
  action_loop fuel self w = (r, w') ->
  r <> Raise DominionPassError /\
  (r = Ok tt -> actions (player_at self w') <= 0).
Proof.
  revert w. induction fuel as [|fuel IH]; intros w Hrun.
  { by injection Hrun as <- <-. }
  cbn [action_loop] in Hrun. rewrite bind_gets in Hrun.
  destruct (Z.ltb_spec 0 (actions (player_at self w))) as [_|Hle].
  2:{ injection Hrun as <- <-. split; [done|]. intros _. lia. }
  unfold bind at 1, try_except, bind at 1 in Hrun.
  destruct (Human_action self w) as [[[]|e] w1].
  - by apply IH in Hrun.
  - destruct (decide (e = DominionPassError)) as [->|].
    + injection Hrun as <- <-. split; [done|]. intros _.
      by rewrite (update_player_field self (set_actions 0) actions).
    + injection Hrun as <- <-. split; [congruence|done].
Qed.

Lemma buy_loop_ends fuel self w r w' :
  buy_loop fuel self w = (r, w') ->
  r <> Raise DominionPassError /\
  (r = Ok tt -> buys (player_at self w') <= 0).
Proof.
  revert w. induction fuel as [|fuel IH]; intros w Hrun.
  { by injection Hrun as <- <-. }
  cbn [buy_loop] in Hrun. rewrite bind_gets in Hrun.
  destruct (Z.ltb_spec 0 (buys (player_at self w))) as [_|Hle].
  2:{ injection Hrun as <- <-. split; [done|]. intros _. lia. }
  unfold bind at 1, try_except, bind at 1 in Hrun.
  destruct (Human_buy self w) as [[[]|e] w1].
  - by apply IH in Hrun.
  - destruct (decide (e = DominionPassError)) as [->|].
    + injection Hrun as <- <-. split; [done|]. intros _.
      by rewrite (update_player_field self (set_buys 0) buys).
    + injection Hrun as <- <-. split; [congruence|done].
Qed.

(** X12: the action phase and the buy phase of [Human] end normally only
    with the points of the phase used up: when [action_phase] returns,
    the player has no action left, and when [buy_phase] returns, no buy.
    A pass, also one given at a prompt of a card that is being played,
    ends the phase by setting the points to 0 and goes no further: the
    phases never end with the pass signal. *)
Theorem phases_use_up_the_points (self : nat) (w : World)
  (r : result unit) (w' : World) :
  (Human_action_phase self w = (r, w') ->
   r <> Raise DominionPassError /\
   (r = Ok tt -> actions (player_at self w') <= 0)) /\
  (Human_buy_phase self w = (r, w') ->
   r <> Raise DominionPassError /\
   (r = Ok tt -> buys (player_at self w') <= 0)).
Proof.
  split; intros Hrun.
  - unfold Human_action_phase in Hrun. rewrite bind_gets in Hrun.
    destruct (Z.ltb_spec 0 (actions (player_at self w))) as [_|Hle].
    2:{ injection Hrun as <- <-. split; [done|]. intros _. lia. }
    destruct (set_coins_keeps self w) as (Hcoins & _).
    rewrite (bind_run _ _ _ _ _ Hcoins), bind_gets in Hrun.
    by apply action_loop_ends in Hrun.
  - unfold Human_buy_phase in Hrun. rewrite bind_gets in Hrun.
    destruct (Z.ltb_spec 0 (buys (player_at self w))) as [_|Hle].
    2:{ injection Hrun as <- <-. split; [done|]. intros _. lia. }
    destruct (set_coins_keeps self w) as (Hcoins & _).
    rewrite (bind_run _ _ _ _ _ Hcoins), bind_gets in Hrun.
    by apply buy_loop_ends in Hrun.
Qed.

(** ** A new supply *)

Lemma zone_ok_CardDeck card_type num : zone_ok (CardDeck card_type num).
Proof. apply zone_ok_init. Qed.

Lemma num_cards_CardDeck card_type num :
  0 < num -> num_cards (CardDeck card_type num) = num.
Proof.
  intros. unfold CardDeck, CardContainer_init, Py.len. simpl.
  rewrite length_replicate. lia.
Qed.

Lemma piles_ok_decks (kinds : list card) num :
  Forall zone_ok ((fun c => CardDeck c num) <$> kinds).
Proof. apply Forall_fmap, Forall_forall. intros. apply zone_ok_CardDeck. Qed.

Lemma Kingdom_init_decks num_players start :
  exists kinds,
    length kinds = 10%nat /\
    kingdom_decks (Kingdom_init num_players start)
    = (fun c => CardDeck c 10) <$> kinds /\
    kingdom_id_start (Kingdom_init num_players start) = start /\
    kingdom_identifiers (Kingdom_init num_players start)
    = imap (fun i _ => Z.of_nat i + start)
        (kingdom_decks (Kingdom_init num_players start)).
Proof.
  unfold Kingdom_init. destruct (num_players =? 1).
  - by exists [Cellar; Market; Merchant; Mine; Remodel; Smithy; Village;
               Workshop; Festival; Laboratory].
  - by exists [Cellar; Market; Merchant; Militia; Mine; Moat; Remodel; Smithy;
               Village; Workshop].
Qed.

(** The base supply, when it can be built. *)
Lemma Base_init_Ok num_players b :
  Base_init num_players = Ok b ->
  exists copper victory,
    0 < copper /\ 0 < victory /\
    b = mkBase
          [ CardDeck Copper copper; CardDeck Silver 40; CardDeck Gold 30;
            CardDeck Estate victory; CardDeck Duchy victory;
            CardDeck Province victory ]
          [0; 1; 2; 3; 4; 5].
Proof.
  unfold Base_init. cbv zeta. cbn [forallb].
  destruct (bool_decide_reflect
              (is_Some (Py.index (cards (CardDeck Copper (60 - num_players * 7))) 0)))
    as [Hc|Hc]; [|done].
  apply deck_has_first in Hc.
  rewrite !bool_decide_eq_true_2
    by (apply deck_has_first; first [lia | by destruct (2 <? num_players)]).
  cbn [andb]. intros [= <-].
  exists (60 - num_players * 7), (if 2 <? num_players then 12 else 8).
  split_and!; [done|by destruct (2 <? _)|done].
Qed.

Lemma base_ids_range (id : Z) : id ∈ [0; 1; 2; 3; 4; 5] <-> 0 <= id < 6.
Proof.
  split.
  - intros H. repeat (apply elem_of_cons in H as [->|H]; [lia|]).
    by apply elem_of_nil in H.
  - intros H.
    assert (id = 0 \/ id = 1 \/ id = 2 \/ id = 3 \/ id = 4 \/ id = 5)
      as Hcase by lia.
    rewrite !elem_of_cons. tauto.
Qed.

Lemma no_empty_pile (l : list CardContainer) :
  Forall (fun d => num_cards d <> 0) l ->
  filter (fun d => num_cards d = 0) l = [].
Proof.
  induction 1 as [|d l Hd _ IH]; [done|].
  by rewrite filter_cons_False.
Qed.

(** X13: a supply that [Supply.__init__] has built is well formed: it has
    the six base piles and ten kingdom piles, every pile well kept and
    not empty, and the identifiers 0 to 15 name exactly these piles, the
    base piles first.  So [check_end_game] answers false on it: no game is
    over before the first turn. *)
Theorem new_supply_is_well_formed (num_players : Z) (s : Supply) :
  Supply_init num_players = Ok s ->
  supply_wf s /\ supply_ok s /\
  length (base_decks (base_supply s)) = 6%nat /\
  length (kingdom_decks (kingdom_supply s)) = 10%nat /\
  Forall (fun d => cards d <> []) (all_piles s) /\
  (forall id, (exists z, identifies s id z) <-> 0 <= id < 16) /\
  (forall id k, identifies s id (BaseDeck k) -> 0 <= id < 6) /\
  (forall id k, identifies s id (KingdomDeck k) -> 6 <= id < 16) /\
  Supply_check_end_game s = Ok false.
Proof.
  unfold Supply_init.
  destruct (Base_init num_players) as [b|e] eqn:Hb; [|done]. intros [= <-].
  apply Base_init_Ok in Hb as (copper & victory & Hcopper & Hvictory & ->).
  destruct (Kingdom_init_decks num_players 6)
    as (kinds & Hlen & Hdecks & Hstart & Hids).
  change (Py.len (base_decks _)) with 6.
  set (k := Kingdom_init num_players 6) in *.
  remember (mkSupply _ k) as s eqn:Hs.
  assert (base_decks (base_supply s)
          = [CardDeck Copper copper; CardDeck Silver 40; CardDeck Gold 30;
             CardDeck Estate victory; CardDeck Duchy victory;
             CardDeck Province victory]) as Hbd by (by rewrite Hs).
  assert (base_identifiers (base_supply s) = [0; 1; 2; 3; 4; 5]) as Hbi
    by (by rewrite Hs).
  assert (kingdom_supply s = k) as Hk by (by rewrite Hs).
  clear Hs.
  assert (length (kingdom_decks k) = 10%nat) as Hlenk.
  { by rewrite Hdecks, length_fmap. }
  assert (piles_ok s) as Hpiles.
  { unfold piles_ok, all_piles. rewrite Hbd, Hk, Hdecks.
    apply Forall_app. split; [|apply piles_ok_decks].
    repeat (apply Forall_cons; split; [apply zone_ok_CardDeck|]).
    apply Forall_nil_2. }
  assert (Forall (fun d => num_cards d <> 0) (all_piles s)) as Hfull.
  { unfold all_piles. rewrite Hbd, Hk, Hdecks. apply Forall_app. split.
    - repeat (apply Forall_cons; split;
              [rewrite num_cards_CardDeck by lia; lia|]).
      apply Forall_nil_2.
    - apply Forall_fmap, Forall_forall. intros c _.
      unfold compose. rewrite num_cards_CardDeck by lia. lia. }
  assert (supply_wf s) as Hwf.
  { split_and!; [done|by rewrite Hbd, Hbi|]. by rewrite Hk, Hids, Hstart. }
  assert (forall id, id ∈ kingdom_identifiers (kingdom_supply s)
                     <-> 6 <= id < 16) as Hkid.
  { intros id. rewrite Hk, Hids, imap_identifiers, Hlenk. lia. }
  split_and!; try done.
  - split; [by rewrite Hbd|]. eapply Forall_impl; [exact Hpiles|].
    by intros d [? _].
  - by rewrite Hbd.
  - by rewrite Hk.
  - eapply Forall_impl; [apply Forall_and; split; [exact Hpiles|exact Hfull]|].
    intros d [[[Hn _] _] Hne] Hnil. simpl in *. rewrite Hn, Hnil in Hne. done.
  - intros id. split.
    + intros [z Hz]. inversion Hz as [j Hin Hj|j Hnin Hin Hj]; subst.
      * rewrite Hbi in Hin. apply base_ids_range in Hin. lia.
      * apply Hkid in Hin. lia.
    + intros Hid.
      destruct (find_pile_wf id (mkWorld [] 0 [] s empty_container [] []) Hwf)
        as [(z & Hz & _)|[Hnone _]]; [by exists z|].
      exfalso. cbn [supply] in Hnone. destruct (decide (id < 6)).
      * apply (Hnone (BaseDeck (Z.to_nat id))). constructor.
        -- rewrite Hbi. apply base_ids_range. lia.
        -- rewrite Hbd. apply norm_index_nonneg. simpl. lia.
      * apply (Hnone (KingdomDeck (Z.to_nat (id - 6)))). constructor.
        -- rewrite Hbi, base_ids_range. lia.
        -- apply Hkid. lia.
        -- rewrite Hk, Hstart, Hlenk. apply norm_index_nonneg. lia.
  - intros id j Hz. inversion Hz as [j' Hin Hj|]; subst.
    rewrite Hbi in Hin. by apply base_ids_range in Hin.
  - intros id j Hz. inversion Hz as [|j' Hnin Hin Hj]; subst.
    by apply Hkid in Hin.
  - unfold Supply_check_end_game. fold (all_piles s).
    rewrite no_empty_pile by done. rewrite Hbd.
    cbn [Py.len length].
    change (Py.index _ 5) with (Some (CardDeck Province victory)).
    cbv iota beta. rewrite num_cards_CardDeck by done.
    destruct (Z.eqb_spec victory 0); [lia|done].
Qed.

(** ** Invariants: what a method keeps true of the store *)

Section Invariant.
Context (I : World -> Prop).

Lemma keeps_ret {A} (a : A) : keeps I (ret a).
Proof. by intros w. Qed.

Lemma keeps_raise {A} e : keeps I (@raise A e).
Proof. by intros w. Qed.

Lemma keeps_gets {A} (f : World -> A) : keeps I (gets f).
Proof. by intros w. Qed.

Lemma keeps_expect {A} (o : option A) e : keeps I (expect o e).
Proof. destruct o; [apply keeps_ret|apply keeps_raise]. Qed.

Lemma keeps_bind {A B} (m : M A) (k : A -> M B) :
  keeps I m -> (forall a, keeps I (k a)) -> keeps I (bind m k).
Proof.
  intros Hm Hk w Hw. unfold bind. specialize (Hm w Hw).
  destruct (m w) as [[a|e] w1]; simpl in *; [by apply Hk|done].
Qed.

(** What is read from the store may be used with what the invariant says
    about it. *)
Lemma keeps_gets_bind {A B} (f : World -> A) (k : A -> M B) :
  (forall a, (exists w, I w /\ f w = a) -> keeps I (k a)) ->
  keeps I (bind (gets f) k).
Proof. intros Hk w Hw. apply (Hk (f w)); eauto. Qed.

Lemma keeps_try_except {A} (m h : M A) e :
  keeps I m -> keeps I h -> keeps I (try_except m e h).
Proof.
  intros Hm Hh w Hw. unfold try_except. specialize (Hm w Hw).
  destruct (m w) as [[a|e'] w1]; simpl in *; [done|].
  destruct (decide (e' = e)); [by apply Hh|done].
Qed.

Lemma keeps_for_range n (body : M unit) :
  keeps I body -> keeps I (for_range n body).
Proof.
  intros Hb. induction n as [|n IH]; [apply keeps_ret|].
  by apply keeps_bind.
Qed.

Lemma keeps_for_each {A} (l : list A) (body : A -> M unit) :
  (forall x, keeps I (body x)) -> keeps I (for_each l body).
Proof.
  intros Hb. induction l as [|x l IH]; [apply keeps_ret|].
  by apply keeps_bind.
Qed.

Lemma keeps_bind_result {A B} (P : A -> Prop) (m : M A) (k : A -> M B) :
  keeps I m ->
  (forall w a w', m w = (Ok a, w') -> P a) ->
  (forall a, P a -> keeps I (k a)) ->
  keeps I (bind m k).
Proof.
  intros Hm HP Hk w Hw. unfold bind. specialize (Hm w Hw). specialize (HP w).
  destruct (m w) as [[a|e] w1]; simpl in *; [|done].
  apply Hk; [by eapply HP|done].
Qed.

Lemma keeps_run {A} (m : M A) w r w' :
  keeps I m -> I w -> m w = (r, w') -> I w'.
Proof. intros Hm Hw Hrun. specialize (Hm w Hw). by rewrite Hrun in Hm. Qed.
End Invariant.

Create HintDb keep discriminated.

(** Takes a sequence apart; [current] says what to do where the current
    player is read. *)
Ltac keep_with current :=
  repeat first
    [ solve [eauto with keep]
    | match goal with
      | |- keeps _ (ret _) => apply keeps_ret
      | |- keeps _ (raise _) => apply keeps_raise
      | |- keeps _ (gets _) => apply keeps_gets
      | |- keeps _ (expect _ _) => apply keeps_expect
      | |- keeps _ (try_except _ _ _) => apply keeps_try_except
      | |- keeps _ (bind (gets current_player) _) => current
      | |- keeps _ (bind (gets (fun w => S (length (stdin w)))) _) =>
          apply keeps_bind; [apply keeps_gets|intros ?]
      | |- keeps _ (bind _ _) => apply keeps_bind; [|intros ?]
      | |- keeps _ (for_range _ _) => apply keeps_for_range
      | |- keeps _ (for_each _ _) => apply keeps_for_each; intros ?
      | |- keeps _ (let _ := _ in _) => cbv zeta
      | |- keeps _ (if ?b then _ else _) => destruct b
      | |- keeps _ (match ?x with _ => _ end) => destruct x
      end ].

Lemma find_pile_is_pile id w pile w' :
  find_pile id w = (Ok pile, w') -> is_pile pile.
Proof.
  unfold find_pile, bind, gets, expect, ret, raise.
  repeat match goal with
         | |- context [if ?b then _ else _] => destruct b
         | |- context [match ?o with Some _ => _ | None => _ end] =>
             destruct o
         end; intros H; simplify_eq; done.
Qed.

(** ** What a whole turn keeps

    A property of the store that the steps of a turn of [q] keep is kept
    by the turn. *)

Ltac solve_turn_transfer :=
  split;
  [ first
      [ left; eexists; split; [reflexivity|first [by left | by right]]
      | right; eexists; split;
        [reflexivity
        |first [left; by eexists | right; left; by eexists
               | right; right; by eexists]] ]
  | first [simpl; lia | by eexists _, _] ].

Global Hint Extern 1 (turn_transfer _ _ _ _) => solve_turn_transfer : keep.
Global Hint Extern 1 (keeps_zones _) => (by intros ?) : keep.

Section Turn.
Context (q : nat) (I : World -> Prop).
Hypothesis I_stdin : forall i, keeps I (modify (set_stdin i)).
Hypothesis I_update :
  forall f, keeps_zones f -> keeps I (modify (update_player q f)).
Hypothesis I_transfer :
  forall source target ids,
    turn_transfer q source target ids -> keeps I (transfer source target ids).
Hypothesis I_shuffle : keeps I (shuffle_at (PlayerZone q Deck)).
Hypothesis I_current :
  forall (B : Type) (k : nat -> M B),
    keeps I (k q) -> keeps I (bind (gets current_player) k).

Local Hint Resolve I_stdin I_update I_transfer I_shuffle : keep.

Ltac turn_step := keep_with ltac:(apply I_current; cbv beta).

Lemma turn_draw_card : keeps I (draw_card q).
Proof. unfold draw_card. turn_step. Qed.

Lemma turn_Player_draw n : keeps I (Player_draw q n).
Proof. unfold Player_draw. turn_step. apply turn_draw_card. Qed.

Lemma turn_set_coins : keeps I (Player_set_coins q).
Proof. unfold Player_set_coins, Player_count_coins. turn_step. Qed.

Lemma turn_discard_prompt player ins : keeps I (discard_prompt player ins).
Proof. induction ins as [|r ins IH]; simpl; turn_step. Qed.

Lemma turn_Human_discard player : keeps I (Human_discard player).
Proof. unfold Human_discard. turn_step. apply turn_discard_prompt. Qed.

Lemma turn_trash_prompt me card_type ins :
  keeps I (trash_prompt me card_type ins).
Proof. induction ins as [|r ins IH]; simpl; turn_step. Qed.

Lemma turn_Human_trash me card_type : keeps I (Human_trash me card_type).
Proof. unfold Human_trash. turn_step. apply turn_trash_prompt. Qed.

Lemma turn_find_pile id : keeps I (find_pile id).
Proof. unfold find_pile. turn_step. Qed.

Lemma turn_free_buy_prompt z max_cost card_type ins :
  keeps I (free_buy_prompt (PlayerZone q z) max_cost card_type ins).
Proof.
  induction ins as [|r ins IH]; simpl; [turn_step|].
  apply keeps_bind; [turn_step|]. intros _.
  destruct r; try (by turn_step).
  apply (keeps_bind_result _ is_pile);
    [apply turn_find_pile|apply find_pile_is_pile|].
  intros [[| |i|i]|] Hz; try done; turn_step.
Qed.

Lemma turn_Human_free_buy max_cost card_type destination :
  keeps I (Human_free_buy q max_cost card_type destination).
Proof.
  unfold Human_free_buy. turn_step; apply turn_free_buy_prompt.
Qed.

Lemma turn_buy_prompt ins : keeps I (buy_prompt q ins).
Proof.
  induction ins as [|r ins IH]; simpl; [turn_step|].
  apply keeps_bind; [turn_step|]. intros _.
  destruct r; try (by turn_step).
  apply (keeps_bind_result _ is_pile);
    [apply turn_find_pile|apply find_pile_is_pile|].
  intros [[| |i|i]|] Hz; try done; turn_step.
Qed.

Lemma turn_Human_buy : keeps I (Human_buy q).
Proof.
  unfold Human_buy. pose proof turn_set_coins.
  turn_step. apply turn_buy_prompt.
Qed.

Lemma turn_Cellar_loop fuel n : keeps I (Cellar_loop fuel q n).
Proof.
  pose proof turn_Human_discard.
  revert n. induction fuel as [|fuel IH]; intros n; simpl; turn_step.
Qed.

Lemma turn_Militia_loop fuel player : keeps I (Militia_loop fuel player).
Proof.
  pose proof turn_Human_discard.
  induction fuel as [|fuel IH]; simpl; turn_step.
Qed.

(** The effect of a card that the player [q] plays. *)
Lemma turn_card_action c : keeps I (card_action c).
Proof.
  pose proof turn_Player_draw. pose proof turn_Human_trash.
  pose proof turn_Human_free_buy.
  destruct c; simpl;
    unfold Cellar_action, Market_action, Merchant_action, Militia_action,
      Mine_action, Moat_action, Remodel_action, Smithy_action, Village_action,
      Workshop_action, Festival_action, Laboratory_action, Militia_attack,
      Player_increment_actions, Player_increment_buys,
      Player_increment_coins;
    turn_step;
    first [apply turn_Cellar_loop | apply turn_Militia_loop].
Qed.

Lemma turn_play_card id : keeps I (play_card q id).
Proof. unfold play_card. turn_step. apply turn_card_action. Qed.

Lemma turn_action_prompt ins : keeps I (action_prompt q ins).
Proof.
  pose proof turn_play_card.
  induction ins as [|r ins IH]; simpl; turn_step.
Qed.

Lemma turn_Human_action : keeps I (Human_action q).
Proof.
  unfold Human_action. pose proof turn_set_coins.
  turn_step. apply turn_action_prompt.
Qed.

Lemma turn_action_loop fuel : keeps I (action_loop fuel q).
Proof.
  pose proof turn_Human_action.
  induction fuel as [|fuel IH]; simpl; turn_step.
Qed.

Lemma turn_buy_loop fuel : keeps I (buy_loop fuel q).
Proof.
  pose proof turn_Human_buy.
  induction fuel as [|fuel IH]; simpl; turn_step.
Qed.

Lemma turn_Human_turn : keeps I (Human_turn q).
Proof.
  pose proof turn_set_coins. pose proof turn_Player_draw.
  unfold Human_turn, Human_action_phase, Human_buy_phase, Player_cleanup,
    Player_draw_hand, Player_reset_points.
  turn_step; first [apply turn_action_loop | apply turn_buy_loop].
Qed.
End Turn.

(** ** A turn and the players who stand by *)

Section StandsBy.
Context (q p : nat) (pl : Player).
Hypothesis Hqp : q <> p.

Lemma same_but_refl pl0 : same_but_hand_and_discard pl0 pl0.
Proof. by destruct pl0. Qed.

Lemma stands_by_stdin i w :
  stands_by q p pl w -> stands_by q p pl (set_stdin i w).
Proof. done. Qed.

Lemma stands_by_rng g w :
  stands_by q p pl w -> stands_by q p pl (set_rng g w).
Proof. done. Qed.

Lemma player_at_update_ne p1 p2 f w :
  p1 <> p2 -> player_at p2 (update_player p1 f w) = player_at p2 w.
Proof. intros. by apply list_lookup_total_alter_ne. Qed.

Lemma stands_by_update p' f w :
  p' <> p -> stands_by q p pl w -> stands_by q p pl (update_player p' f w).
Proof.
  intros Hne [Hc Hs]. split; [done|]. by rewrite player_at_update_ne.
Qed.

Lemma stands_by_zone z c w :
  beside p z -> stands_by q p pl w -> stands_by q p pl (zone_set z c w).
Proof.
  intros Hz [Hc Hs]. split; [by destruct z|].
  destruct z as [p' pz| |i|i]; try done. cbn [zone_set].
  destruct (decide (p' = p)) as [->|Hne].
  2:{ by rewrite (player_at_update_ne p' p). }
  rewrite player_at_update.
  destruct (decide _); [|done].
  unfold same_but_hand_and_discard in *.
  set (X := player_at p w) in *. clearbody X.
  destruct Hz as [?|[-> | ->]]; [done|..]; simpl; by rewrite Hs.
Qed.

Lemma keeps_stands_by_stdin i : keeps (stands_by q p pl) (modify (set_stdin i)).
Proof. intros w. apply stands_by_stdin. Qed.

Lemma keeps_stands_by_update p' f :
  p' <> p -> keeps (stands_by q p pl) (modify (update_player p' f)).
Proof. intros H w. by apply stands_by_update. Qed.

Lemma keeps_stands_by_transfer source target ids :
  beside p source -> beside p target ->
  keeps (stands_by q p pl) (transfer source target ids).
Proof.
  intros Hs Ht w Hw. rewrite transfer_run. cbv zeta.
  destruct (remove_cards _ _) as [[transferred|e] c']; simpl;
    repeat apply stands_by_zone; done.
Qed.

Lemma keeps_stands_by_shuffle z :
  beside p z -> keeps (stands_by q p pl) (shuffle_at z).
Proof.
  intros Hz w Hw. unfold shuffle_at, modify. simpl.
  destruct (shuffle (zone_get z w) (rng w)) as [c g].
  by apply stands_by_rng, stands_by_zone.
Qed.

Lemma keeps_stands_by_current {B} (k : nat -> M B) :
  keeps (stands_by q p pl) (k q) ->
  keeps (stands_by q p pl) (bind (gets current_player) k).
Proof.
  intros Hk. apply keeps_gets_bind. intros a (w & [Hc _] & Ha).
  by rewrite <- Ha, Hc.
Qed.
End StandsBy.

Lemma turn_transfer_beside q p source target ids :
  q <> p -> turn_transfer q source target ids ->
  beside p source /\ beside p target.
Proof.
  intros Hqp [[(a & -> & [-> | ->])|(z & -> & Hs)] _]; simpl.
  - split; [|done]. right. by left.
  - split; right; [by left|by right].
  - split; [|by left].
    destruct Hs as [[i ->]|[[i ->]|[z' ->]]]; simpl; [done|done|by left].
Qed.

Lemma stands_by_Human_turn q p pl :
  q <> p -> keeps (stands_by q p pl) (Human_turn q).
Proof.
  intros Hqp. apply turn_Human_turn.
  - intros i. apply keeps_stands_by_stdin.
  - intros f _. by apply keeps_stands_by_update.
  - intros source target ids Ht.
    destruct (turn_transfer_beside q p _ _ _ Hqp Ht).
    by apply keeps_stands_by_transfer.
  - apply keeps_stands_by_shuffle. by left.
  - intros B h. apply keeps_stands_by_current.
Qed.

(** X14: a turn of the player [q] leaves every other player as that
    player was, but for the hand and the discard pile (which an attack
    can change): the deck, the play mat, the turns, the actions, buys and
    coins and the victory points of the others are not touched, however
    the turn ends. *)
Theorem turn_leaves_the_others_be (q p : nat) (w : World) (r : result unit)
  (w' : World) :
  current_player w = q -> q <> p ->
  Human_turn q w = (r, w') ->
  current_player w' = q /\
  player_at p w'
  = set_discard_pile (discard_pile (player_at p w'))
      (set_hand (hand (player_at p w')) (player_at p w)).
Proof.
  intros Hq Hqp Hrun.
  apply (keeps_run (stands_by q p (player_at p w)) (Human_turn q) w r w');
    [by apply stands_by_Human_turn| |done].
  split; [done|apply same_but_refl].
Qed.

(** ** No card is made or lost *)

Lemma sum_list_with_insert {A} (f : A -> nat) (l : list A) i x y :
  l !! i = Some x ->
  (sum_list_with f (<[i := y]> l) + f x = sum_list_with f l + f y)%nat.
Proof.
  revert i. induction l as [|a l IH]; intros [|i] Hx; simplify_eq/=; [lia|].
  specialize (IH i Hx). lia.
Qed.

Lemma sum_list_with_alter {A} (f : A -> nat) (g : A -> A) (l : list A) i x :
  l !! i = Some x ->
  (sum_list_with f (alter g i l) + f x = sum_list_with f l + f (g x))%nat.
Proof.
  revert i. induction l as [|a l IH]; intros [|i] Hx; simplify_eq/=; [lia|].
  specialize (IH i Hx). lia.
Qed.

Lemma holds_refresh k cs c :
  holds k (refresh cs c) = count_occ card_eq_dec cs k.
Proof. done. Qed.

Lemma player_holds_zone_set k pz c pl :
  (player_holds k (player_zone_set pz c pl) + holds k (player_zone_get pz pl)
   = player_holds k pl + holds k c)%nat.
Proof. destruct pz; unfold player_holds; simpl; lia. Qed.

(** Replacing a container that is in the store. *)
Lemma stock_zone_set k z c w :
  zone_in z w ->
  (stock k (zone_set z c w) + holds k (zone_get z w) = stock k w + holds k c)%nat.
Proof.
  intros Hz. destruct z as [p pz| |i|i]; simpl in Hz.
  - destruct (lookup_lt_is_Some_2 (players w) p Hz) as [pl Hpl].
    pose proof (sum_list_with_alter (player_holds k) (player_zone_set pz c)
                  _ _ _ Hpl) as Hsum.
    pose proof (player_holds_zone_set k pz c pl) as Hp.
    unfold stock, zone_get, zone_set, update_player, player_at. simpl.
    rewrite (list_lookup_total_correct _ _ _ Hpl). lia.
  - unfold stock. simpl. lia.
  - destruct (lookup_lt_is_Some_2 _ i Hz) as [d Hd].
    pose proof (sum_list_with_insert (holds k) _ _ _ c Hd) as Hsum.
    unfold stock, zone_get. simpl.
    rewrite (list_lookup_total_correct _ _ _ Hd). lia.
  - destruct (lookup_lt_is_Some_2 _ i Hz) as [d Hd].
    pose proof (sum_list_with_insert (holds k) _ _ _ c Hd) as Hsum.
    unfold stock, zone_get. simpl.
    rewrite (list_lookup_total_correct _ _ _ Hd). lia.
Qed.

(** A reference that is not in the store stands for an empty container,
    and writing to it does nothing. *)
Lemma zone_out z c w :
  ~ zone_in z w -> zone_set z c w = w /\ zone_get z w = empty_container.
Proof.
  intros Hz. destruct z as [p pz| |i|i]; simpl in Hz.
  - split; [by apply update_player_invalid|].
    simpl. rewrite player_at_invalid by done. by destruct pz.
  - done.
  - split.
    + unfold zone_set. rewrite list_insert_ge by lia.
      by destruct w as [? ? ? [[? ?] ?] ? ? ?].
    + simpl. rewrite list_lookup_total_alt, lookup_ge_None_2; [done|lia].
  - split.
    + unfold zone_set. rewrite list_insert_ge by lia.
      by destruct w as [? ? ? [? [? ? ?]] ? ? ?].
    + simpl. rewrite list_lookup_total_alt, lookup_ge_None_2; [done|lia].
Qed.

Lemma zone_in_dec z w : zone_in z w \/ ~ zone_in z w.
Proof.
  destruct z as [p pz| |i|i]; simpl; unfold valid; [|by left|..];
    match goal with |- (?a < ?b)%nat \/ _ => destruct (decide (a < b)%nat) end;
    tauto.
Qed.

Lemma stock_zone_same k z c w :
  holds k c = holds k (zone_get z w) -> stock k (zone_set z c w) = stock k w.
Proof.
  intros Hc. destruct (zone_in_dec z w) as [Hz|Hz].
  - pose proof (stock_zone_set k z c w Hz). lia.
  - by destruct (zone_out z c w Hz) as [-> _].
Qed.

Lemma remove_cards_holds k ids c tr c' :
  remove_cards ids c = (Ok tr, c') ->
  (holds k c' + count_occ card_eq_dec tr k = holds k c)%nat /\
  container_ok c' /\ id_start c' = id_start c.
Proof.
  unfold remove_cards. destruct (_ <? _); [done|].
  destruct (pop_cards _ _ _ _) as [[out|e] cs] eqn:Hpop; [|done].
  intros [= <- <-].
  apply pop_cards_moves in Hpop as (popped & Hperm & -> & _).
  split; [|done]. unfold holds. simpl.
  rewrite <- (proj1 (Permutation_count_occ card_eq_dec _ _) Hperm k).
  rewrite count_occ_app. lia.
Qed.

Lemma remove_cards_fails_whole ids c e c' :
  (length ids <= 1)%nat ->
  remove_cards ids c = (Raise e, c') ->
  cards c' = cards c /\ num_cards c' = num_cards c /\
  id_start c' = id_start c /\ identifiers c' = identifiers c.
Proof.
  intros Hlen. unfold remove_cards. destruct (_ <? _); [by intros [= <- <-]|].
  destruct ids as [|i [|? ?]]; simpl in *; [done| |lia].
  destruct (Py.pop (cards c) (i - id_start c)) as [[x cs]|]; [done|].
  by intros [= <- <-].
Qed.

Lemma zone_ok_same c c' :
  cards c' = cards c -> num_cards c' = num_cards c ->
  id_start c' = id_start c -> identifiers c' = identifiers c ->
  zone_ok c -> zone_ok c'.
Proof.
  intros Hc Hn Hs Hi [[? ?] ?]. unfold zone_ok, container_ok.
  rewrite Hc, Hn, Hs, Hi. done.
Qed.

Lemma zone_set_frame z c w :
  current_player (zone_set z c w) = current_player w /\
  length (players (zone_set z c w)) = length (players w) /\
  (forall z', zone_in z' (zone_set z c w) <-> zone_in z' w).
Proof.
  destruct z as [p pz| |i|i]; simpl; (split; [done|]).
  - rewrite length_alter. split; [done|].
    intros [p' ?| |?|?]; simpl; unfold valid; simpl; by rewrite ?length_alter.
  - split; [done|]. by intros [p' ?| |?|?].
  - split; [done|].
    intros [p' ?| |?|?]; simpl; by rewrite ?length_insert.
  - split; [done|].
    intros [p' ?| |?|?]; simpl; by rewrite ?length_insert.
Qed.

Lemma player_ok_zone_set pz c pl :
  zone_ok c -> player_ok pl -> player_ok (player_zone_set pz c pl).
Proof. intros Hc (? & ? & ? & ?). by destruct pz; split_and!. Qed.

Lemma tidy_zone_set z c w :
  Forall player_ok (players w) ->
  (forall p pz, z = PlayerZone p pz -> zone_ok c) ->
  Forall player_ok (players (zone_set z c w)).
Proof.
  intros Htidy Hc. destruct z as [p pz| |i|i]; try done. simpl.
  apply Forall_alter; [done|]. intros pl _. apply player_ok_zone_set. eauto.
Qed.

Lemma zone_ok_empty : zone_ok empty_container.
Proof. by split. Qed.

Lemma tidy_zone_get p pz w :
  Forall player_ok (players w) -> zone_ok (zone_get (PlayerZone p pz) w).
Proof.
  intros Htidy. destruct (zone_in_dec (PlayerZone p pz) w) as [Hz|Hz].
  - simpl in Hz. destruct (lookup_lt_is_Some_2 _ _ Hz) as [pl Hpl].
    simpl. unfold player_at. rewrite (list_lookup_total_correct _ _ _ Hpl).
    eapply Forall_lookup_1 in Htidy as (? & ? & ? & ?); [|done].
    by destruct pz.
  - destruct (zone_out _ empty_container w Hz) as [_ ->]. apply zone_ok_empty.
Qed.

Lemma conserving_transfer q k n source target ids :
  turn_transfer q source target ids ->
  keeps (conserving q k n) (transfer source target ids).
Proof.
  intros [Htarget Hids] w (Hc & Hv & Htidy & Hstock).
  rewrite transfer_run. cbv zeta.
  set (c := zone_get source w).
  assert (forall p pz, source = PlayerZone p pz -> zone_ok c) as Hsrc.
  { intros p pz ->. by apply tidy_zone_get. }
  destruct (remove_cards _ c) as [[tr|e] c'] eqn:Hrem; simpl.
  - apply (remove_cards_holds k) in Hrem as (Hholds & Hok' & Hstart').
    set (w1 := zone_set source c' w).
    destruct (zone_set_frame source c' w) as (Hc1 & Hlen1 & Hin1).
    fold w1 in Hc1, Hlen1, Hin1.
    assert (Forall player_ok (players w1)) as Htidy1.
    { apply tidy_zone_set; [done|]. intros p pz Hs.
      split; [done|]. rewrite Hstart'. by apply (Hsrc p pz). }
    set (d := refresh (cards (zone_get target w1) ++ tr) (zone_get target w1)).
    rewrite add_cards_refresh. fold d.
    destruct (zone_set_frame target d w1) as (Hc2 & Hlen2 & _).
    split_and!.
    + congruence.
    + unfold valid in *. lia.
    + apply tidy_zone_set; [done|]. intros p pz ->.
      apply zone_ok_refresh. by apply tidy_zone_get.
    + assert (stock k w1 + count_occ card_eq_dec tr k = stock k w
              /\ (~ zone_in source w -> count_occ card_eq_dec tr k = 0))%nat
        as [Hs1 Hempty].
      { destruct (zone_in_dec source w) as [Hz|Hz].
        - pose proof (stock_zone_set k source c' w Hz). fold c w1 in H.
          split; [lia|done].
        - destruct (zone_out source c' w Hz) as [Hw1 Hc0].
          fold c in Hc0. fold w1 in Hw1. rewrite Hc0 in Hholds.
          unfold holds in Hholds at 2. simpl in Hholds.
          rewrite Hw1. split; [lia|]. intros _. lia. }
      assert (holds k d
              = holds k (zone_get target w1) + count_occ card_eq_dec tr k)%nat
        as Hd.
      { unfold d. rewrite holds_refresh, count_occ_app. done. }
      destruct (zone_in_dec target w1) as [Hz|Hz].
      * pose proof (stock_zone_set k target d w1 Hz). lia.
      * destruct (zone_out target d w1 Hz) as [-> _].
        assert (count_occ card_eq_dec tr k = 0)%nat; [|lia].
        destruct Htarget as [(a & -> & [-> | ->])|(z & -> & _)].
        -- by destruct Hz.
        -- apply Hempty. intros Hz'. apply Hz, Hin1. exact Hz'.
        -- destruct Hz. apply Hin1. simpl. done.
  - assert (cards c' = cards c /\ num_cards c' = num_cards c /\
            id_start c' = id_start c /\ identifiers c' = identifiers c)
      as (H1 & H2 & H3 & H4).
    { destruct ids as [l|].
      - by eapply remove_cards_fails_whole.
      - destruct Hids as (a & z & ->).
        rewrite remove_cards_all in Hrem; [done|]. apply (Hsrc a z eq_refl). }
    destruct (zone_set_frame source c' w) as (Hc1 & Hlen1 & _).
    split_and!.
    + congruence.
    + unfold valid in *. lia.
    + apply tidy_zone_set; [done|]. intros p pz Hs.
      apply (zone_ok_same c); try done. by apply (Hsrc p pz).
    + rewrite stock_zone_same; [done|]. fold c. unfold holds. by rewrite H1.
Qed.

Lemma conserving_stdin q k n i :
  keeps (conserving q k n) (modify (set_stdin i)).
Proof. by intros w. Qed.

Lemma player_holds_keeps k f pl :
  keeps_zones f -> player_holds k (f pl) = player_holds k pl.
Proof.
  intros Hf. destruct (Hf pl) as (Hd & Hh & Hp & Hm).
  unfold player_holds. by rewrite Hd, Hh, Hp, Hm.
Qed.

Lemma player_ok_keeps f pl : keeps_zones f -> player_ok pl -> player_ok (f pl).
Proof.
  intros Hf. destruct (Hf pl) as (Hd & Hh & Hp & Hm).
  unfold player_ok. by rewrite Hd, Hh, Hp, Hm.
Qed.

Lemma conserving_update q k n p f :
  keeps_zones f -> keeps (conserving q k n) (modify (update_player p f)).
Proof.
  intros Hf w (Hc & Hv & Htidy & Hstock). unfold modify. simpl.
  split_and!; [done|by unfold valid; simpl; rewrite length_alter| |].
  - apply Forall_alter; [done|]. intros pl _. by apply player_ok_keeps.
  - rewrite <- Hstock. unfold stock. simpl. do 3 f_equal.
    destruct (players w !! p) as [pl|] eqn:Hpl.
    + pose proof (sum_list_with_alter (player_holds k) f _ _ _ Hpl) as Hsum.
      rewrite player_holds_keeps in Hsum by done. lia.
    + rewrite (list_alter_ext f id (players w) (players w) p);
        [by rewrite list_alter_id| |done].
      intros x Hx. congruence.
Qed.

Lemma shuffle_zone_ok k c g :
  zone_ok c ->
  zone_ok (shuffle c g).1 /\ holds k (shuffle c g).1 = holds k c.
Proof.
  intros [[Hn Hi] H0]. unfold shuffle.
  pose proof (shuffle_perm (cards c) g) as Hperm.
  destruct (Py.shuffle (cards c) g) as [cs g']. simpl in *. split.
  - split; [|done]. split; [|done]. simpl. rewrite Hn. unfold Py.len.
    by rewrite Hperm.
  - unfold holds. simpl.
    apply (proj1 (Permutation_count_occ card_eq_dec _ _) Hperm k).
Qed.

Lemma conserving_shuffle q k n p pz :
  keeps (conserving q k n) (shuffle_at (PlayerZone p pz)).
Proof.
  intros w (Hc & Hv & Htidy & Hstock). unfold shuffle_at, modify.
  cbn [snd].
  pose proof (shuffle_zone_ok k (zone_get (PlayerZone p pz) w) (rng w)
                (tidy_zone_get p pz w Htidy)) as [Hok Hholds].
  destruct (shuffle (zone_get (PlayerZone p pz) w) (rng w)) as [c g].
  simpl in Hok, Hholds.
  destruct (zone_set_frame (PlayerZone p pz) c w) as (Hc1 & Hlen1 & _).
  split_and!.
  - exact (eq_trans Hc1 Hc).
  - unfold valid in *. 
    change (players (set_rng g ?x)) with (players x). lia.
  - change (players (set_rng g ?x)) with (players x).
    by apply tidy_zone_set.
  - change (stock k (set_rng g ?x)) with (stock k x).
    by rewrite stock_zone_same.
Qed.

Lemma conserving_current q k n {B} (h : nat -> M B) :
  keeps (conserving q k n) (h q) ->
  keeps (conserving q k n) (bind (gets current_player) h).
Proof.
  intros Hk. apply keeps_gets_bind. intros a (w & [Hc _] & Ha).
  by rewrite <- Ha, Hc.
Qed.

Lemma conserving_Human_turn q k n : keeps (conserving q k n) (Human_turn q).
Proof.
  apply turn_Human_turn.
  - apply conserving_stdin.
  - intros f. apply conserving_update.
  - apply conserving_transfer.
  - apply conserving_shuffle.
  - intros B h. apply conserving_current.
Qed.

Lemma count_occ_bind {A} (f : A -> list card) (l : list A) k :
  count_occ card_eq_dec (l ≫= f) k
  = sum_list_with (fun x => count_occ card_eq_dec (f x) k) l.
Proof.
  induction l as [|x l IH]; [done|].
  rewrite bind_cons, count_occ_app, IH. done.
Qed.

Lemma sum_list_with_eq {A} (f g : A -> nat) (l : list A) :
  (forall x, f x = g x) -> sum_list_with f l = sum_list_with g l.
Proof. intros H. induction l as [|x l IH]; simpl; [done|]. by rewrite H, IH. Qed.

Lemma stock_census k w : stock k w = count_occ card_eq_dec (census w) k.
Proof.
  unfold stock, census. rewrite !count_occ_app, !count_occ_bind.
  unfold holds. rewrite <- !Nat.add_assoc. f_equal.
  apply sum_list_with_eq. intros pl.
  unfold player_holds, player_cards, holds. rewrite !count_occ_app. lia.
Qed.

(** X15: a turn neither makes nor loses a card.  When the containers of
    all players are well kept at its start, the cards of the game (those
    of the players, the trash and the piles of the supply together) are
    the same cards after the turn, however it ends, and the containers of
    the players are well kept again. *)
Theorem turn_conserves_the_cards (q : nat) (w : World) (r : result unit)
  (w' : World) :
  current_player w = q -> valid q w -> Forall player_ok (players w) ->
  Human_turn q w = (r, w') ->
  census w' ≡ₚ census w /\ Forall player_ok (players w').
Proof.
  intros Hc Hv Htidy Hrun.
  assert (forall k, conserving q k (stock k w) w') as Hkept.
  { intros k.
    apply (keeps_run _ (Human_turn q) w r w'); [|done|done].
    apply conserving_Human_turn. }
  split.
  - apply (Permutation_count_occ card_eq_dec). intros k.
    rewrite <- !stock_census. apply Hkept.
  - apply (Hkept Copper).
Qed.

(** ** The game loop *)

Lemma seated_Human_turn q n : keeps (seated q n) (Human_turn q).
Proof.
  apply turn_Human_turn.
  - by intros i w.
  - intros f _ w [Hc Hn]. split; [done|]. simpl. by rewrite length_alter.
  - intros source target ids _ w [Hc Hn]. rewrite transfer_run. cbv zeta.
    destruct (remove_cards _ _) as [[tr|e] c']; simpl.
    + destruct (zone_set_frame source c' w) as (Hc1 & Hn1 & _).
      destruct (zone_set_frame target
                  (add_cards tr (zone_get target (zone_set source c' w)))
                  (zone_set source c' w)) as (Hc2 & Hn2 & _).
      split; congruence.
    + destruct (zone_set_frame source c' w) as (Hc1 & Hn1 & _).
      split; congruence.
  - intros w [Hc Hn]. unfold shuffle_at, modify. simpl.
    destruct (shuffle _ _) as [c g].
    destruct (zone_set_frame (PlayerZone q Deck) c w) as (Hc1 & Hn1 & _).
    split; [exact (eq_trans Hc1 Hc)|exact (eq_trans Hn1 Hn)].
  - intros B h Hh. apply keeps_gets_bind. intros a (w & [Hc _] & Ha).
    by rewrite <- Ha, Hc.
Qed.

Lemma bind_Ok {A B} (m : M A) (k : A -> M B) w b w' :
  bind m k w = (Ok b, w') ->
  exists a w1, m w = (Ok a, w1) /\ k a w1 = (Ok b, w').
Proof.
  unfold bind. destruct (m w) as [[a|e] w1]; [|done]. intros H. by exists a, w1.
Qed.

(** A turn that ends normally has reset the points of the player. *)
Lemma Human_turn_readies q w w' :
  Human_turn q w = (Ok tt, w') -> valid q w' ->
  actions (player_at q w') = 1 /\ buys (player_at q w') = 1.
Proof.
  intros Hrun Hv'. unfold Human_turn, Player_cleanup in Hrun.
  do 5 (apply bind_Ok in Hrun as (? & ? & _ & Hrun)).
  apply bind_Ok in Hrun as (? & w5 & _ & Hrun).
  apply bind_Ok in Hrun as ([] & w6 & Hreset & Hcoins).
  destruct (set_coins_keeps q w6) as (_ & _ & Ha & Hb).
  pose proof (f_equal snd Hcoins) as Hw'. cbn [snd] in Hw'.
  rewrite Hw' in Ha, Hb. rewrite Ha, Hb.
  unfold Player_reset_points, modify in Hreset. injection Hreset as <-.
  assert (valid q w5) as Hv5.
  { unfold valid in *.
    assert (length (players w') = length (players w5)) as <-; [|done].
    rewrite <- Hw'. unfold Player_set_coins, Player_count_coins, bind, modify.
    simpl. by rewrite !length_alter. }
  rewrite player_at_update. by destruct (decide _).
Qed.

(** One player of the round. *)
Lemma play_round_step player_num rest w :
  play_round (player_num :: rest) w
  = let w0 := set_current_player player_num w in
    match Supply_check_end_game (supply w) with
    | Raise e => (Raise e, w0)
    | Ok true => (Ok GameEnded, w0)
    | Ok false =>
        match turn_outcome (Human_turn player_num w0).1 with
        | Ok false => play_round rest (Human_turn player_num w0).2
        | Ok true => (Ok GameLeft, (Human_turn player_num w0).2)
        | Raise e => (Raise e, (Human_turn player_num w0).2)
        end
    end.
Proof.
  cbn [play_round]. unfold bind at 1, modify at 1. cbv zeta.
  unfold bind at 1. unfold check_end_game. rewrite bind_gets.
  change (supply (set_current_player player_num w)) with (supply w).
  destruct (Supply_check_end_game (supply w)) as [[|]|e]; try done.
  unfold ret at 1. unfold bind at 1, try_except, bind.
  destruct (Human_turn player_num (set_current_player player_num w))
    as [[[]|e] w1]; simpl; [done|].
  by destruct e.
Qed.

Lemma bounded_Human_turn n self : bounded n (Human_turn self).
Proof.
  unfold Human_turn. fuel.
  - apply bounded_Human_action_phase.
  - apply bounded_Human_buy_phase.
  - apply bounded_Player_cleanup.
Qed.

Lemma turn_outcome_fuel r :
  r <> Raise OutOfFuel -> forall e, turn_outcome r = Raise e -> e <> OutOfFuel.
Proof. intros Hr e. destruct r as [[]|[]]; simpl; congruence. Qed.

Lemma bounded_play_round n player_nums : bounded n (play_round player_nums).
Proof.
  induction player_nums as [|j rest IH]; [by apply bounded_ret|].
  intros w Hw. rewrite play_round_step. cbv zeta.
  destruct (Supply_check_end_game (supply w)) as [[|]|e] eqn:Hend; [done| |].
  2:{ split; [|done]. simpl. intros [= ->].
      unfold Supply_check_end_game in Hend.
      repeat match type of Hend with
             | context [if ?b then _ else _] => destruct b
             | context [match ?o with Some _ => _ | None => _ end] =>
                 destruct o
             end; done. }
  destruct (bounded_Human_turn n j (set_current_player j w) Hw) as [Hr Hl].
  pose proof (turn_outcome_fuel _ Hr) as Hout.
  destruct (turn_outcome _) as [[|]|e]; [done|by apply IH|].
  split; [|done]. simpl. intros [= ->]. by apply (Hout OutOfFuel).
Qed.

(** The players who are not in the round stand by. *)
Lemma play_round_stands_by player_nums p pl w :
  p ∉ player_nums ->
  same_but_hand_and_discard pl (player_at p w) ->
  same_but_hand_and_discard pl (player_at p (play_round player_nums w).2).
Proof.
  revert w. induction player_nums as [|j rest IH]; intros w Hp Hw; [done|].
  apply not_elem_of_cons in Hp as [Hne Hp].
  rewrite play_round_step. cbv zeta.
  assert (same_but_hand_and_discard pl
            (player_at p (Human_turn j (set_current_player j w)).2)) as Hturn.
  { apply (stands_by_Human_turn j p pl); [done|]. by split. }
  destruct (Supply_check_end_game (supply w)) as [[|]|e]; [done| |done].
  destruct (turn_outcome _) as [[|]|e]; [done|by apply IH|done].
Qed.

(** The number of players stays. *)
Lemma play_round_players player_nums w :
  length (players (play_round player_nums w).2) = length (players w).
Proof.
  revert w. induction player_nums as [|j rest IH]; intros w; [done|].
  rewrite play_round_step. cbv zeta.
  assert (length (players (Human_turn j (set_current_player j w)).2)
          = length (players w)) as Hturn.
  { apply (seated_Human_turn j (length (players w))). by split. }
  destruct (Supply_check_end_game (supply w)) as [[|]|e]; [done| |done].
  destruct (turn_outcome _) as [[|]|e]; [done| |done].
  by rewrite IH.
Qed.

(** What follows a step that reads, when it reads no more than is there. *)
Lemma reads_bind {A B} (m : M A) (k : A -> M B) w :
  reads_answer m w ->
  (forall a w1, m w = (Ok a, w1) ->
                (length (stdin w1) < length (stdin w))%nat ->
                bounded (length (stdin w1)) (k a)) ->
  reads_answer (bind m k) w.
Proof.
  unfold reads_answer, bind. intros Hm Hk.
  destruct (m w) as [[a|e] w1] eqn:Hrun; simpl in *.
  - destruct Hm as [[=]|Hlt]. right.
    destruct (Hk a w1 eq_refl Hlt w1) as [_ Hle]; [done|]. lia.
  - destruct Hm as [[= ->]|Hlt]; [by left|by right].
Qed.

(** A step before the one that reads. *)
Lemma reads_after {A B} (m : M A) (k : A -> M B) w a w1 :
  m w = (Ok a, w1) -> stdin w1 = stdin w ->
  reads_answer (k a) w1 -> reads_answer (bind m k) w.
Proof.
  unfold reads_answer, bind. intros -> Hin Hk. by rewrite <- Hin.
Qed.

Lemma reads_action_loop fuel self w :
  0 < actions (player_at self w) -> (length (stdin w) <= fuel)%nat ->
  reads_answer (action_loop (S fuel) self) w.
Proof.
  intros Hact Hfuel. cbn [action_loop].
  unfold reads_answer. rewrite bind_gets.
  destruct (Z.ltb_spec 0 (actions (player_at self w))) as [_|]; [|lia].
  apply reads_bind.
  - apply reads_try_except; [|done|done].
    apply reads_then; [by apply reads_Human_action|done|done].
  - intros [|] w1 _ Hlt; [|fuel]. apply action_loop_fuel. lia.
Qed.

Lemma reads_Human_action_phase self w :
  0 < actions (player_at self w) -> reads_answer (Human_action_phase self) w.
Proof.
  intros Hact. unfold Human_action_phase, reads_answer. rewrite bind_gets.
  destruct (Z.ltb_spec 0 (actions (player_at self w))) as [_|]; [|lia].
  destruct (set_coins_keeps self w) as (Hrun & Hin & Ha & _).
  eapply reads_after; [exact Hrun|exact Hin|].
  unfold reads_answer. rewrite bind_gets.
  apply reads_action_loop; [by rewrite Ha|done].
Qed.

(** A player who has an action left is asked for a card: the turn reads
    from the console. *)
Lemma reads_Human_turn self w :
  0 < actions (player_at self w) -> reads_answer (Human_turn self) w.
Proof.
  intros Hact. unfold Human_turn.
  eapply reads_after; [reflexivity|reflexivity|].
  apply reads_bind.
  - apply reads_Human_action_phase. rewrite player_at_update.
    by destruct (decide _).
  - intros _ w1 _ _. fuel.
    + apply bounded_Human_buy_phase.
    + apply bounded_Player_cleanup.
Qed.

Lemma turn_outcome_Ok r : turn_outcome r = Ok false <-> r = Ok tt.
Proof. destruct r as [[]|[]]; simpl; split; congruence. Qed.

(** A round that every player has finished. *)
Lemma play_round_done n w w' :
  (0 < n)%nat -> length (players w) = n ->
  play_round (seq 0 n) w = (Ok RoundDone, w') ->
  length (players w') = n /\
  actions (player_at 0 w') = 1 /\
  (length (stdin w') <= length (stdin w))%nat /\
  (0 < actions (player_at 0 w) ->
   (length (stdin w') < length (stdin w))%nat).
Proof.
  intros Hn Hlen Hrun.
  pose proof (play_round_players (seq 0 n) w) as Hplayers.
  rewrite Hrun in Hplayers. simpl in Hplayers.
  destruct n as [|n]; [lia|]. cbn [seq] in Hrun.
  rewrite play_round_step in Hrun. cbv zeta in Hrun.
  destruct (Supply_check_end_game (supply w)) as [[|]|e]; [done| |done].
  set (w0 := set_current_player 0 w) in *.
  destruct (turn_outcome (Human_turn 0 w0).1) as [[|]|e] eqn:Hout;
    [done| |done].
  apply turn_outcome_Ok in Hout.
  destruct (Human_turn 0 w0) as [r1 w1] eqn:Hturn. simpl in Hout, Hrun.
  subst r1.
  assert (length (players w1) = S n) as Hlen1.
  { pose proof (seated_Human_turn 0 (S n) w0) as Hs.
    rewrite Hturn in Hs. by apply Hs. }
  assert (actions (player_at 0 w1) = 1) as Hact1.
  { eapply Human_turn_readies; [exact Hturn|]. unfold valid. lia. }
  pose proof (play_round_stands_by (seq 1 n) 0 (player_at 0 w1) w1) as Hstand.
  rewrite Hrun in Hstand. simpl in Hstand.
  destruct (bounded_play_round (length (stdin w1)) (seq 1 n) w1) as [_ Hle];
    [done|].
  rewrite Hrun in Hle. simpl in Hle.
  destruct (bounded_Human_turn (length (stdin w)) 0 w0) as [_ Hle0]; [done|].
  rewrite Hturn in Hle0. simpl in Hle0.
  split_and!.
  - lia.
  - rewrite Hstand; [done| |apply same_but_refl].
    rewrite elem_of_seq. lia.
  - lia.
  - intros Hact. pose proof (reads_Human_turn 0 w0 Hact) as Hread.
    unfold reads_answer in Hread. rewrite Hturn in Hread. simpl in Hread.
    destruct Hread as [[=]|Hlt]. change (stdin w0) with (stdin w) in Hlt. lia.
Qed.

Lemma play_rounds_fuel fuel turn w :
  players w <> [] ->
  0 < actions (player_at 0 w) -> (length (stdin w) < fuel)%nat ->
  (play_rounds fuel turn w).1 <> Raise OutOfFuel.
Proof.
  revert turn w. induction fuel as [|fuel IH]; intros turn w Hps Hact Hfuel;
    [lia|].
  cbn [play_rounds]. rewrite bind_gets. unfold bind.
  destruct (bounded_play_round (length (stdin w))
              (seq 0 (length (players w))) w) as [Hr _]; [done|].
  destruct (play_round _ w) as [[[| |]|e] w1] eqn:Hround; simpl in *;
    [|done|done|congruence].
  apply play_round_done in Hround as (Hlen & Hact1 & _ & Hlt);
    [|by destruct (players w); simpl; [|lia]|done].
  apply IH; [|lia|specialize (Hlt Hact); lia].
  intros Hnil. rewrite Hnil in Hlen. by destruct (players w).
Qed.

(** The first round may start with a player without points, who reads
    nothing. *)
Lemma play_rounds_first fuel turn w :
  players w <> [] -> (length (stdin w) < fuel)%nat ->
  (play_rounds (S fuel) turn w).1 <> Raise OutOfFuel.
Proof.
  intros Hps Hfuel.
  cbn [play_rounds]. rewrite bind_gets. unfold bind.
  destruct (bounded_play_round (length (stdin w))
              (seq 0 (length (players w))) w) as [Hr _]; [done|].
  destruct (play_round _ w) as [[[| |]|e] w1] eqn:Hround; simpl in *;
    [|done|done|congruence].
  apply play_round_done in Hround as (Hlen & Hact1 & Hle & _);
    [|by destruct (players w); simpl; [|lia]|done].
  apply play_rounds_fuel; [|lia|lia].
  intros Hnil. rewrite Hnil in Hlen. by destruct (players w).
Qed.

Lemma insert_pair_desc_raises x l e :
  insert_pair_desc x l = Raise e -> e = TypeError.
Proof.
  induction l as [|y l IH]; simpl; [done|].
  destruct (_ <? _); [done|]. destruct (_ <? _).
  - destruct (insert_pair_desc x l); [done|]. intros [= <-]. by apply IH.
  - destruct (decide _); [done|]. by intros [= <-].
Qed.

Lemma sorted_pairs_reverse_raises l e :
  sorted_pairs_reverse l = Raise e -> e = TypeError.
Proof.
  induction l as [|x l IH]; simpl; [done|].
  destruct (sorted_pairs_reverse l) as [r|e'].
  - apply insert_pair_desc_raises.
  - intros [= <-]. by apply IH.
Qed.

Lemma bounded_finalize_players n ps : bounded n (finalize_players ps).
Proof.
  induction ps as [|p ps IH]; simpl; [apply bounded_ret|].
  unfold Player_end_game. fuel.
Qed.

Lemma bounded_Game_end_game n : bounded n Game_end_game.
Proof.
  unfold Game_end_game. apply bounded_bind; [fuel|intros k].
  apply bounded_bind; [apply bounded_finalize_players|intros scored].
  destruct (sorted_pairs_reverse scored) as [[|? ?]|e] eqn:Hs; [fuel|fuel|].
  apply bounded_raise. apply sorted_pairs_reverse_raises in Hs. by subst.
Qed.

Lemma play_rounds_nobody fuel turn w :
  players w = [] -> play_rounds fuel turn w = (Raise OutOfFuel, w).
Proof.
  intros Hps. revert turn. induction fuel as [|fuel IH]; intros turn; [done|].
  cbn [play_rounds]. rewrite bind_gets, Hps. simpl.
  unfold bind, ret. apply IH.
Qed.

(** X16: with at least one player [Game.play_game] ends on every console
    input: every round of turns but the first reads at least one answer,
    because a player who has finished a turn starts the next one with an
    action.  With no player the loop over the players does nothing and
    the game loop never ends. *)
Theorem game_ends_with_a_player (w : World) :
  (players w <> [] -> (Game_play_game w).1 <> Raise OutOfFuel) /\
  (players w = [] ->
   forall fuel turn, play_rounds fuel turn w = (Raise OutOfFuel, w)).
Proof.
  split; [|intros Hps fuel turn; by apply play_rounds_nobody].
  intros Hps. unfold Game_play_game. rewrite bind_gets. unfold bind.
  pose proof (play_rounds_first (S (length (stdin w))) 0 w Hps) as Hfuel.
  destruct (play_rounds _ 0 w) as [[[turn|]|e] w1]; simpl in *.
  - destruct (bounded_Game_end_game (length (stdin w1)) w1) as [Hr _]; [done|].
    destruct (Game_end_game w1) as [[outcome|e] w2]; simpl in *; [done|].
    congruence.
  - done.
  - intros [= ->]. apply Hfuel; [lia|done].
Qed.

(** ** A turn at a well-kept table *)

Lemma imap_index_only {A} (g : nat -> Z) (l l' : list A) :
  length l = length l' ->
  imap (fun i _ => g i) l = imap (fun i _ => g i) l'.
Proof.
  revert g l'. induction l as [|x l IH]; intros g [|y l'] Hlen; try done.
  simpl. f_equal. apply (IH (g ∘ S)). simpl in Hlen. lia.
Qed.

(** Replacing a pile by a well-kept one keeps the supply well formed;
    a container that is not a pile is not part of it. *)
Lemma supply_wf_zone_set z c w :
  supply_wf (supply w) ->
  (forall i, z = BaseDeck i \/ z = KingdomDeck i -> zone_ok c) ->
  supply_wf (supply (zone_set z c w)).
Proof.
  intros (Hp & Hb & Hk) Hc. destruct z as [p pz| |i|i]; try done.
  - assert (zone_ok c) as Hok by (apply (Hc i); by left).
    simpl. split_and!.
    + unfold piles_ok, all_piles in *. simpl.
      apply Forall_app in Hp as [Hp1 Hp2]. apply Forall_app. split; [|done].
      by apply Forall_insert.
    + simpl. rewrite Hb. apply imap_index_only. by rewrite length_insert.
    + done.
  - assert (zone_ok c) as Hok by (apply (Hc i); by right).
    simpl. split_and!.
    + unfold piles_ok, all_piles in *. simpl.
      apply Forall_app in Hp as [Hp1 Hp2]. apply Forall_app. split; [done|].
      by apply Forall_insert.
    + done.
    + simpl. rewrite Hk.
      apply (imap_index_only
               (fun i => Z.of_nat i + kingdom_id_start (kingdom_supply (supply w)))).
      by rewrite length_insert.
Qed.

Lemma pile_zone_ok z w :
  supply_wf (supply w) ->
  (exists i, z = BaseDeck i \/ z = KingdomDeck i) -> zone_ok (zone_get z w).
Proof.
  intros (Hp & _ & _) [i [-> | ->]]; simpl.
  - unfold piles_ok, all_piles in Hp. apply Forall_app in Hp as [Hp _].
    destruct (base_decks (base_supply (supply w)) !! i) as [d|] eqn:Hd.
    + rewrite (list_lookup_total_correct _ _ _ Hd).
      by apply (Forall_lookup_1 _ _ _ _ Hp Hd).
    + rewrite list_lookup_total_alt, Hd. apply zone_ok_empty.
  - unfold piles_ok, all_piles in Hp. apply Forall_app in Hp as [_ Hp].
    destruct (kingdom_decks (kingdom_supply (supply w)) !! i) as [d|] eqn:Hd.
    + rewrite (list_lookup_total_correct _ _ _ Hd).
      by apply (Forall_lookup_1 _ _ _ _ Hp Hd).
    + rewrite list_lookup_total_alt, Hd. apply zone_ok_empty.
Qed.

Lemma table_ok_conserving q k w :
  table_ok q w -> conserving q k (stock k w) w.
Proof. by intros (? & ? & ? & ?). Qed.

Lemma table_ok_transfer q source target ids :
  turn_transfer q source target ids ->
  keeps (table_ok q) (transfer source target ids).
Proof.
  intros Ht w Hw.
  destruct (conserving_transfer q Copper _ source target ids Ht w
              (table_ok_conserving q Copper w Hw)) as (Hc & Hv & Htidy & _).
  split_and!; try done.
  destruct Hw as (_ & _ & Htidy0 & Hwf). destruct Ht as [Htarget Hids].
  rewrite transfer_run. cbv zeta.
  assert (zone_ok (zone_get source w)) as Hsrc.
  { destruct source as [p pz| |i|i].
    - by apply tidy_zone_get.
    - destruct Htarget as [(a & [=] & _)|(z & _ & [[i [=]]|[[i [=]]|[z' [=]]]])].
    - apply pile_zone_ok; [done|]. exists i. by left.
    - apply pile_zone_ok; [done|]. exists i. by right. }
  assert (forall c w1, supply (zone_set target c w1) = supply w1) as Htgt.
  { intros c w1.
    destruct Htarget as [(a & _ & [-> | ->])|(z & -> & _)]; done. }
  destruct (remove_cards _ _) as [[tr|e] c'] eqn:Hrem; simpl.
  - rewrite Htgt.
    apply supply_wf_zone_set; [done|]. intros _ _.
    apply (remove_cards_holds Copper) in Hrem as (_ & Hok' & Hstart').
    split; [done|]. rewrite Hstart'. apply Hsrc.
  - apply supply_wf_zone_set; [done|]. intros _ _.
    assert (cards c' = cards (zone_get source w) /\
            num_cards c' = num_cards (zone_get source w) /\
            id_start c' = id_start (zone_get source w) /\
            identifiers c' = identifiers (zone_get source w))
      as (H1 & H2 & H3 & H4).
    { destruct ids as [l|].
      - by eapply remove_cards_fails_whole.
      - rewrite remove_cards_all in Hrem; [done|]. apply Hsrc. }
    by apply (zone_ok_same (zone_get source w)).
Qed.

Lemma table_ok_stdin q i : keeps (table_ok q) (modify (set_stdin i)).
Proof. by intros w. Qed.

Lemma table_ok_update q p f :
  keeps_zones f -> keeps (table_ok q) (modify (update_player p f)).
Proof.
  intros Hf w Hw.
  destruct (conserving_update q Copper _ p f Hf w
              (table_ok_conserving q Copper w Hw)) as (Hc & Hv & Htidy & _).
  destruct Hw as (_ & _ & _ & Hwf). by split_and!.
Qed.

Lemma table_ok_shuffle q p pz :
  keeps (table_ok q) (shuffle_at (PlayerZone p pz)).
Proof.
  intros w Hw.
  destruct (conserving_shuffle q Copper _ p pz w
              (table_ok_conserving q Copper w Hw)) as (Hc & Hv & Htidy & _).
  destruct Hw as (_ & _ & _ & Hwf). split_and!; try done.
  unfold shuffle_at, modify. cbn [snd]. by destruct (shuffle _ _).
Qed.

Lemma table_ok_current q {B} (h : nat -> M B) :
  keeps (table_ok q) (h q) -> keeps (table_ok q) (bind (gets current_player) h).
Proof.
  intros Hk. apply keeps_gets_bind. intros a (w & [Hc _] & Ha).
  by rewrite <- Ha, Hc.
Qed.

(** Every part of a turn of [q] keeps the table well kept. *)
Ltac table_ok_turn lemma :=
  apply lemma;
  first [ apply table_ok_stdin
        | intros ?; apply table_ok_update
        | apply table_ok_transfer
        | apply table_ok_shuffle
        | intros ? ?; apply table_ok_current ].

Lemma table_ok_Player_draw q n : keeps (table_ok q) (Player_draw q n).
Proof. table_ok_turn (turn_Player_draw q). Qed.

Lemma table_ok_set_coins q : keeps (table_ok q) (Player_set_coins q).
Proof. table_ok_turn (turn_set_coins q). Qed.

Lemma table_ok_Human_discard q player :
  keeps (table_ok q) (Human_discard player).
Proof. table_ok_turn (turn_Human_discard q). Qed.

Lemma table_ok_Cellar_loop q fuel n : keeps (table_ok q) (Cellar_loop fuel q n).
Proof. table_ok_turn (turn_Cellar_loop q). Qed.

Lemma table_ok_Militia_loop q fuel player :
  keeps (table_ok q) (Militia_loop fuel player).
Proof. table_ok_turn (turn_Militia_loop q). Qed.

Lemma table_ok_Human_trash q me card_type :
  keeps (table_ok q) (Human_trash me card_type).
Proof. table_ok_turn (turn_Human_trash q). Qed.

Lemma table_ok_Human_free_buy q max_cost card_type destination :
  keeps (table_ok q) (Human_free_buy q max_cost card_type destination).
Proof. table_ok_turn (turn_Human_free_buy q). Qed.

Lemma table_ok_Human_buy q : keeps (table_ok q) (Human_buy q).
Proof. table_ok_turn (turn_Human_buy q). Qed.

Lemma table_ok_card_action q c : keeps (table_ok q) (card_action c).
Proof. table_ok_turn (turn_card_action q). Qed.

Lemma table_ok_action_prompt q ins : keeps (table_ok q) (action_prompt q ins).
Proof. table_ok_turn (turn_action_prompt q). Qed.

Lemma table_ok_Human_turn q : keeps (table_ok q) (Human_turn q).
Proof. table_ok_turn (turn_Human_turn q). Qed.

Lemma table_ok_player q p w : table_ok q w -> player_ok (player_at p w).
Proof.
  intros (_ & _ & Htidy & _).
  split_and!;
    [ apply (tidy_zone_get p Deck w Htidy)
    | apply (tidy_zone_get p Hand w Htidy)
    | apply (tidy_zone_get p DiscardPile w Htidy)
    | apply (tidy_zone_get p PlayMat w Htidy) ].
Qed.

(** *** Which exceptions a method can raise *)

Ltac allowed :=
  repeat first
    [ assumption | apply list_elem_of_here | apply list_elem_of_further ].

Lemma raises_only_Ok {A} S (m : M A) w a : (m w).1 = Ok a -> raises_only S m w.
Proof. intros H e He. congruence. Qed.

Lemma raises_only_Raise {A} S (m : M A) w e :
  (m w).1 = Raise e -> e ∈ S -> raises_only S m w.
Proof. intros H He e' He'. congruence. Qed.

Lemma raises_only_bind {A B} S (m : M A) (k : A -> M B) w :
  raises_only S m w ->
  (forall a w', m w = (Ok a, w') -> raises_only S (k a) w') ->
  raises_only S (bind m k) w.
Proof.
  intros Hm Hk e. unfold bind. specialize (Hm e).
  destruct (m w) as [[a|e'] w']; simpl in *; [by apply Hk|].
  intros [= ->]. by apply Hm.
Qed.

Section FailsOnly.
Context (q : nat) (S : list exn).

Lemma fails_only_intro {A} (m : M A) :
  keeps (table_ok q) m ->
  (forall w, table_ok q w -> raises_only S m w) ->
  fails_only q S m.
Proof. intros Hk Hr w Hw. split; [by apply Hk|by apply Hr]. Qed.

Lemma fails_only_ret {A} (a : A) : fails_only q S (ret a).
Proof. intros w Hw. split; [done|]. by intros e. Qed.

Lemma fails_only_raise {A} e : e ∈ S -> fails_only q S (@raise A e).
Proof. intros He w Hw. split; [done|]. by intros e' [= <-]. Qed.

Lemma fails_only_gets {A} (f : World -> A) : fails_only q S (gets f).
Proof. intros w Hw. split; [done|]. by intros e. Qed.

Lemma fails_only_modify (f : World -> World) :
  keeps (table_ok q) (modify f) -> fails_only q S (modify f).
Proof. intros Hf. apply fails_only_intro; [done|]. by intros w _ e. Qed.

Lemma fails_only_bind {A B} (m : M A) (k : A -> M B) :
  fails_only q S m -> (forall a, fails_only q S (k a)) ->
  fails_only q S (bind m k).
Proof.
  intros Hm Hk w Hw. destruct (Hm w Hw) as [Hw1 Hr].
  split.
  - unfold bind. destruct (m w) as [[a|e] w1] eqn:Hrun; simpl in *; [|done].
    by apply Hk.
  - apply raises_only_bind; [done|]. intros a w' Hrun.
    rewrite Hrun in Hw1. by apply Hk.
Qed.

Lemma fails_only_current {B} (k : nat -> M B) :
  fails_only q S (k q) -> fails_only q S (bind (gets current_player) k).
Proof.
  intros Hk w Hw. destruct (Hk w Hw) as [Hw1 Hr]. pose proof Hw as [Hc _].
  unfold raises_only, bind, gets in *. by rewrite Hc.
Qed.

Lemma fails_only_for_each {A} (l : list A) (body : A -> M unit) :
  (forall x, fails_only q S (body x)) -> fails_only q S (for_each l body).
Proof.
  intros Hb. induction l as [|x l IH]; [apply fails_only_ret|].
  by apply fails_only_bind.
Qed.
End FailsOnly.

Lemma fails_only_try_except {A} q S (m h : M A) e :
  fails_only q (e :: S) m -> fails_only q S h ->
  fails_only q S (try_except m e h).
Proof.
  intros Hm Hh w Hw. destruct (Hm w Hw) as [Hw1 Hr]. unfold try_except.
  specialize (Hr). unfold raises_only in *.
  destruct (m w) as [[a|e'] w1]; simpl in *.
  - split; [done|]. by intros e0.
  - destruct (decide (e' = e)) as [->|Hne]; [by apply Hh|].
    split; [done|]. intros e0 [= <-].
    specialize (Hr e' eq_refl). apply elem_of_cons in Hr as [?|?]; done.
Qed.

Global Hint Extern 1 (_ ∈ _) => allowed : keep.

(** Takes a sequence apart, as [keep_with] does. *)
Ltac fails_step :=
  repeat first
    [ solve [eauto with keep]
    | match goal with
      | |- fails_only _ _ (ret _) => apply fails_only_ret
      | |- fails_only _ _ (raise _) => apply fails_only_raise; allowed
      | |- fails_only _ _ (gets _) => apply fails_only_gets
      | |- fails_only _ _ (modify (update_player _ _)) =>
          apply fails_only_modify, table_ok_update; by intros ?
      | |- fails_only _ _ (modify (set_stdin _)) =>
          apply fails_only_modify, table_ok_stdin
      | |- fails_only _ _ (try_except _ _ _) => apply fails_only_try_except
      | |- fails_only _ _ (bind (gets current_player) _) =>
          apply fails_only_current; cbv beta
      | |- fails_only _ _ (bind _ _) => apply fails_only_bind; [|intros ?]
      | |- fails_only _ _ (for_each _ _) => apply fails_only_for_each; intros ?
      | |- fails_only _ _ (let _ := _ in _) => cbv zeta
      | |- fails_only _ _ (if ?b then _ else _) => destruct b
      end ].

Section Leaves.
Context (q : nat) (E : list exn).
Hypothesis error_allowed : DominionError ∈ E.
Hypothesis quit_allowed : DominionQuitError ∈ E.
Hypothesis eof_allowed : EOFError ∈ E.

(** [Player.draw] fails only for want of cards. *)
Lemma fails_only_Player_draw n : fails_only q E (Player_draw q n).
Proof.
  apply fails_only_intro; [apply table_ok_Player_draw|].
  intros w Hw e. pose proof (table_ok_player q q w Hw) as Hq.
  destruct Hw as (_ & Hv & _ & _).
  unfold Player_draw. rewrite bind_gets.
  destruct (_ <? n) eqn:Hlt; [by intros [= <-]|].
  apply Z.ltb_ge in Hlt.
  pose proof Hq as ([[Hd _] _] & _ & [[Hp _] _] & _).
  rewrite Hd, Hp in Hlt. unfold Py.len in Hlt.
  destruct (draw_loop q (Z.to_nat n) w Hv Hq)
    as (d' & drawn & dp' & g' & Hrun & _); [lia|].
  by rewrite Hrun.
Qed.

Lemma fails_only_gets_bind {A B} (f : World -> A) (k : A -> M B) :
  (forall w, table_ok q w ->
             table_ok q (k (f w) w).2 /\ raises_only E (k (f w)) w) ->
  fails_only q E (bind (gets f) k).
Proof. intros H w Hw. exact (H w Hw). Qed.

Lemma fails_only_at_bind {A B} (m : M A) (k : A -> M B) w :
  table_ok q w -> keeps (table_ok q) m -> raises_only E m w ->
  (forall a w', m w = (Ok a, w') -> table_ok q w' ->
                table_ok q (k a w').2 /\ raises_only E (k a) w') ->
  table_ok q (bind m k w).2 /\ raises_only E (bind m k) w.
Proof.
  intros Hw Hm Hr Hk. specialize (Hm w Hw). split.
  - unfold bind. destruct (m w) as [[a|e] w1] eqn:Hrun; simpl in *; [|done].
    by apply Hk.
  - apply raises_only_bind; [done|]. intros a w' Hrun.
    rewrite Hrun in Hm. by apply Hk.
Qed.

(** Cellar: the prompts of the discards can be left by quit or at the
    end of the input; the pass is caught. *)
Lemma fails_only_Cellar_action : fails_only q E Cellar_action.
Proof.
  unfold Cellar_action, Player_increment_actions.
  apply fails_only_current. apply fails_only_bind; [fails_step|intros _].
  apply fails_only_gets_bind. intros w Hw.
  apply fails_only_at_bind; [done|apply table_ok_Cellar_loop| |].
  - intros e He.
    destruct (Cellar_loop _ q 0 w) as [r w'] eqn:Hrun.
    pose proof Hw as (_ & Hv & _ & _).
    apply Cellar_loop_spec in Hrun; [|done|by eapply table_ok_player|lia].
    destruct Hrun as (h & moved & rest & _ & _ & [Hr|[Hr|Hr]]);
      simpl in He; rewrite Hr in He; simplify_eq; allowed.
  - intros n w' _ Hw'. by apply fails_only_Player_draw.
Qed.

(** A prompt is left with a card moved, by pass or quit, or at the end of
    the input. *)
Lemma discard_step_raises self w e w' :
  discard_step self w (Raise e) w' ->
  e = DominionPassError \/ e = DominionQuitError \/ e = EOFError.
Proof. inversion 1; auto. Qed.

Lemma trash_step_raises self card_type w e w' :
  trash_step self card_type w (Raise e) w' ->
  e = DominionPassError \/ e = DominionQuitError \/ e = EOFError.
Proof. inversion 1; auto. Qed.

Lemma gain_step_raises dest max_cost card_type w e w' :
  gain_step dest max_cost card_type w (Raise e) w' ->
  e = DominionPassError \/ e = DominionQuitError \/ e = EOFError.
Proof. inversion 1; auto. Qed.

Lemma buy_step_raises self w e w' :
  buy_step self w (Raise e) w' ->
  e = DominionPassError \/ e = DominionQuitError \/ e = EOFError.
Proof. inversion 1; auto. Qed.

(** Militia: the attacked players are prompted; a pass is ignored. *)
Lemma fails_only_Militia_attack player :
  fails_only q E (Militia_attack player).
Proof.
  apply fails_only_intro.
  - unfold Militia_attack. apply keeps_bind; [apply keeps_gets|intros p].
    cbv zeta. destruct (Py.contains _ _); [apply keeps_ret|].
    apply keeps_bind; [apply keeps_gets|intros fuel].
    apply table_ok_Militia_loop.
  - intros w Hw e He.
    destruct (decide (player < length (players w))%nat) as [Hv|Hv].
    + destruct (Militia_attack player w) as [r w'] eqn:Hrun.
      apply Militia_attack_spec in Hrun as [Hmoat Hno];
        [|done|by eapply table_ok_player].
      simpl in He. subst r.
      destruct (decide ("Moat" ∈ (name <$> cards (hand (player_at player w)))))
        as [Hm|Hm].
      * by destruct (Hmoat Hm).
      * destruct (Hno Hm) as (h & moved & rest & _ & _ & [Hr|[Hr|Hr]] & _);
          simplify_eq; allowed.
    + revert He. unfold Militia_attack. rewrite bind_gets.
      rewrite player_at_invalid by done. cbv zeta.
      change (Py.contains "Moat" _) with false. cbv iota.
      rewrite bind_gets. cbn [Militia_loop]. rewrite bind_gets.
      rewrite player_at_invalid by done. done.
Qed.

(** Mine and Remodel: both prompts can be left by quit or at the end of
    the input; the pass is caught. *)
Lemma fails_only_trash_then_gain card_type bonus destination z :
  (forall max_cost w1,
     Human_free_buy q max_cost card_type destination w1
     = free_buy_prompt (PlayerZone q z) max_cost card_type (stdin w1) w1) ->
  fails_only q E
    (try_except
       (let* card_cost := Human_trash q card_type in
        Human_free_buy q (card_cost + bonus) card_type destination)
       DominionPassError (ret tt)).
Proof.
  intros Hdest. apply fails_only_intro.
  - apply keeps_try_except; [|apply keeps_ret].
    apply keeps_bind; [apply table_ok_Human_trash|intros c].
    apply table_ok_Human_free_buy.
  - intros w Hw e He.
    destruct (try_except _ _ _ w) as [r w'] eqn:Hrun.
    pose proof Hw as (_ & Hv & _ & Hwf).
    eapply trash_then_gain_run in Hrun;
      [|done|by eapply table_ok_player|done|done].
    simpl in He. subst r.
    destruct Hrun as (r1 & w1 & Ht & Hm).
    destruct r1 as [card_cost|e1].
    + destruct Hm as (r2 & Hg & Hr). destruct r2 as [u|e2]; [by subst|].
      apply gain_step_raises in Hg as [-> | [-> | ->]]; simpl in Hr;
        simplify_eq; allowed.
    + destruct Hm as [_ Hr].
      apply trash_step_raises in Ht as [-> | [-> | ->]]; simpl in Hr;
        simplify_eq; allowed.
Qed.

(** A gain to the discard pile (Workshop) can also be left by pass. *)
Lemma fails_only_free_buy_discard max_cost card_type :
  DominionPassError ∈ E ->
  fails_only q E (Human_free_buy q max_cost card_type "discard").
Proof.
  intros pass_allowed.
  apply fails_only_intro; [apply table_ok_Human_free_buy|].
  intros w Hw e He. pose proof Hw as (_ & _ & _ & Hwf).
  change (Human_free_buy q max_cost card_type "discard" w)
    with (free_buy_prompt (PlayerZone q DiscardPile) max_cost card_type
            (stdin w) w) in He.
  destruct (free_buy_prompt _ _ _ _ w) as [r w'] eqn:Hrun.
  apply free_buy_prompt_step in Hrun; [|done|done].
  simpl in He. subst r.
  apply gain_step_raises in Hrun as [-> | [-> | ->]]; allowed.
Qed.

(** [Human.buy] *)
Lemma fails_only_Human_buy :
  DominionPassError ∈ E -> fails_only q E (Human_buy q).
Proof.
  intros pass_allowed.
  apply fails_only_intro; [apply table_ok_Human_buy|].
  intros w Hw. unfold Human_buy. pose proof Hw as (_ & Hv & _ & _).
  apply raises_only_bind.
  { eapply raises_only_Ok. by rewrite set_coins_run. }
  intros [] w1 Hrun.
  pose proof (keeps_run _ _ _ _ _ (table_ok_set_coins q) Hw Hrun) as Hw1.
  intros e. rewrite bind_gets. destruct (_ <? 1); [done|].
  rewrite bind_gets. intros He. pose proof Hw1 as (_ & _ & _ & Hwf).
  destruct (buy_prompt q (stdin w1) w1) as [r w'] eqn:Hbuy.
  apply buy_prompt_step in Hbuy; [|done|done].
  simpl in He. subst r.
  apply buy_step_raises in Hbuy as [-> | [-> | ->]]; allowed.
Qed.

(** The effect of an Action card. *)
Lemma fails_only_card_action c :
  class_of c = Action -> DominionPassError ∈ E ->
  fails_only q E (card_action c).
Proof.
  intros Hc pass_allowed.
  pose proof fails_only_Player_draw. pose proof fails_only_Militia_attack.
  destruct c; try done; simpl.
  - apply fails_only_Cellar_action.
  - unfold Market_action, Player_increment_actions, Player_increment_buys,
      Player_increment_coins. fails_step.
  - unfold Merchant_action, Player_increment_actions, Player_increment_coins.
    fails_step.
  - unfold Militia_action, Player_increment_coins. fails_step.
  - apply fails_only_current.
    by apply (fails_only_trash_then_gain (Some "Treasure") 3 "hand" Hand).
  - unfold Moat_action. fails_step.
  - apply fails_only_current.
    by apply (fails_only_trash_then_gain None 2 "discard" DiscardPile).
  - unfold Smithy_action. fails_step.
  - unfold Village_action, Player_increment_actions. fails_step.
  - apply fails_only_current. by apply fails_only_free_buy_discard.
  - unfold Festival_action, Player_increment_actions, Player_increment_buys,
      Player_increment_coins. fails_step.
  - unfold Laboratory_action, Player_increment_actions. fails_step.
Qed.

(** The card put on the play mat is still its last card when the effect
    has run, so it can be moved on to the discard pile. *)
Lemma raises_only_play_card (k : nat) c w :
  DominionPassError ∈ E -> table_ok q w ->
  cards (hand (player_at q w)) !! k = Some c -> class_of c = Action ->
  raises_only E (play_card q (Z.of_nat k)) w.
Proof.
  intros pass_allowed Hw Hk Hc. pose proof Hw as (Hcur & Hv & Htidy & Hwf).
  destruct (table_ok_player q q w Hw) as (Hd & Hh & Hp & Hm).
  intros e. rewrite (play_card_run q k c w) by done.
  set (w1 := put_player q (card_played k c (player_at q w)) w).
  assert (table_ok q w1) as Hw1.
  { split_and!; [done|by apply valid_put| |done].
    unfold w1, put_player. simpl. apply Forall_insert; [done|].
    split_and!; try done; apply zone_ok_refresh; [apply Hh|apply Hm]. }
  assert (mat_holds q (cards (play_mat (player_at q w)) ++ [c]) w1) as Hmat.
  { exists (refresh (cards (play_mat (player_at q w)) ++ [c])
              (play_mat (player_at q w))).
    split_and!; [|apply cards_refresh|rewrite id_start_refresh; apply Hm].
    unfold play_mats, w1, put_player. simpl.
    rewrite list_lookup_fmap, list_lookup_insert_eq by done. done. }
  revert e. apply raises_only_bind; [by apply fails_only_card_action|].
  intros [] w2 Hrun.
  pose proof (keeps_run _ _ _ _ _ (table_ok_card_action q c) Hw1 Hrun)
    as (_ & Hv2 & _ & _).
  apply (mat_holds_run _ _ _ _ _ _ (mats_card_action c) Hrun) in Hmat.
  apply mat_holds_play_mat in Hmat as [Hcs H0].
  eapply raises_only_Ok. rewrite transfer_player by done. cbv zeta.
  cbn [player_zone_get]. by erewrite remove_cards_last.
Qed.

(** [Human.action] *)
Lemma raises_only_action_prompt ins w :
  DominionPassError ∈ E -> table_ok q w ->
  raises_only E (action_prompt q ins) w.
Proof.
  intros pass_allowed. revert w.
  induction ins as [|r rest IH]; intros w Hw e; simpl.
  { intros [= <-]. allowed. }
  unfold bind at 1, modify at 1.
  assert (table_ok q (set_stdin rest w)) as Hw1 by done.
  destruct r as [| | | |id];
    try (by intros [= <-]; allowed); try (by apply IH).
  rewrite bind_gets. unfold Py.contains at 1.
  destruct (bool_decide_reflect
              (id ∈ identifiers (hand (player_at q (set_stdin rest w)))))
    as [Hid|Hid]; [|by apply IH].
  destruct (table_ok_player q q _ Hw1) as (_ & Hh & _ & _).
  apply zone_ok_identifiers in Hid; [|done].
  unfold Py.index, Py.len in *. rewrite norm_index_nonneg by lia.
  cbn [mbind option_bind].
  destruct (lookup_lt_is_Some_2
              (cards (hand (player_at q (set_stdin rest w)))) (Z.to_nat id))
    as [c Hc]; [lia|].
  rewrite Hc. unfold bind at 1, expect at 1, ret at 1.
  destruct (Py.contains "Action" (get_parent_classes c)) eqn:Hact;
    [|by apply IH].
  apply action_in_parent_classes in Hact. cbn [negb].
  replace id with (Z.of_nat (Z.to_nat id)) by lia.
  by apply (raises_only_play_card _ c).
Qed.

Lemma fails_only_Human_action :
  DominionPassError ∈ E -> fails_only q E (Human_action q).
Proof.
  intros pass_allowed.
  apply fails_only_intro; [table_ok_turn (turn_Human_action q)|].
  intros w Hw. unfold Human_action. pose proof Hw as (_ & Hv & _ & _).
  apply raises_only_bind.
  { eapply raises_only_Ok. by rewrite set_coins_run. }
  intros [] w1 Hrun.
  pose proof (keeps_run _ _ _ _ _ (table_ok_set_coins q) Hw Hrun) as Hw1.
  intros e. rewrite bind_gets. destruct (_ <? 1); [done|].
  rewrite bind_gets. by apply raises_only_action_prompt.
Qed.

(** [Player.cleanup] fails only for want of cards to draw. *)
Lemma fails_only_Player_cleanup : fails_only q E (Player_cleanup q).
Proof.
  apply fails_only_intro.
  { pose proof (table_ok_set_coins q). pose proof (table_ok_Player_draw q).
    pose proof (table_ok_transfer q). pose proof (table_ok_update q).
    unfold Player_cleanup, Player_draw_hand, Player_reset_points.
    keep_with idtac. }
  intros w Hw. pose proof Hw as (_ & Hv & _ & _).
  pose proof (table_ok_player q q w Hw) as Hq.
  pose proof (cleanup_sweeps q w Hv Hq) as Hsweep.
  unfold Player_cleanup. intros e.
  unfold bind at 1. unfold bind at 1 in Hsweep.
  destruct (transfer (PlayerZone q PlayMat) _ None w) as [[[]|e1] w1] eqn:H1;
    [|done].
  unfold bind at 1. rewrite Hsweep.
  assert (table_ok q (put_player q (swept (player_at q w)) w)) as Hw2.
  { pose proof Hw as (Hc & _ & Htidy & Hwf).
    split_and!; [done|by apply valid_put| |done].
    unfold put_player. simpl. apply Forall_insert; [done|].
    by apply player_ok_swept. }
  revert e. apply raises_only_bind; [by apply fails_only_Player_draw|].
  intros [] w3 _. unfold Player_reset_points. intros e.
  unfold bind at 1, modify at 1.
  by rewrite (proj1 (set_coins_keeps q _)).
Qed.
End Leaves.

Lemma fails_only_set_coins q E : fails_only q E (Player_set_coins q).
Proof.
  apply fails_only_intro; [apply table_ok_set_coins|].
  intros w _. eapply raises_only_Ok.
  by rewrite (proj1 (set_coins_keeps q w)).
Qed.

Section Phases.
Context (q : nat) (E : list exn).
Hypothesis error_allowed : DominionError ∈ E.
Hypothesis quit_allowed : DominionQuitError ∈ E.
Hypothesis eof_allowed : EOFError ∈ E.
Hypothesis fuel_allowed : OutOfFuel ∈ E.

(** The pass that ends a phase is caught by the loop of the phase. *)
Lemma fails_only_action_loop fuel : fails_only q E (action_loop fuel q).
Proof.
  induction fuel as [|fuel IH]; simpl; [fails_step|].
  apply fails_only_bind; [apply fails_only_gets|intros me].
  destruct (0 <? _); [|apply fails_only_ret].
  apply fails_only_bind; [|intros [|]; [done|apply fails_only_ret]].
  apply fails_only_try_except; [|fails_step].
  apply fails_only_bind; [|intros; apply fails_only_ret].
  apply fails_only_Human_action; allowed.
Qed.

Lemma fails_only_buy_loop fuel : fails_only q E (buy_loop fuel q).
Proof.
  induction fuel as [|fuel IH]; simpl; [fails_step|].
  apply fails_only_bind; [apply fails_only_gets|intros me].
  destruct (0 <? _); [|apply fails_only_ret].
  apply fails_only_bind; [|intros [|]; [done|apply fails_only_ret]].
  apply fails_only_try_except; [|fails_step].
  apply fails_only_bind; [|intros; apply fails_only_ret].
  apply fails_only_Human_buy; allowed.
Qed.

Lemma fails_only_Human_turn : fails_only q E (Human_turn q).
Proof.
  pose proof (fails_only_set_coins q E). pose proof fails_only_action_loop.
  pose proof fails_only_buy_loop.
  pose proof (fails_only_Player_cleanup q E error_allowed).
  unfold Human_turn, Human_action_phase, Human_buy_phase. fails_step.
Qed.
End Phases.

(** X17: at a well-kept table a turn ends normally or in one of three
    ways: [DominionError] (too few cards to draw), the quit signal, or the
    end of the console input.  It raises no [IndexError], no
    [AttributeError] and never lets the pass signal escape; the table is
    well kept afterwards, whatever the outcome. *)
Theorem turn_fails_in_three_ways (q : nat) (w : World) (r : result unit)
  (w' : World) :
  table_ok q w ->
  Human_turn q w = (r, w') ->
  table_ok q w' /\
  (r = Ok tt \/ r = Raise DominionError \/ r = Raise DominionQuitError \/
   r = Raise EOFError).
Proof.
  intros Hw Hrun.
  destruct (fails_only_Human_turn q
              [DominionError; DominionQuitError; EOFError; OutOfFuel]
              ltac:(allowed) ltac:(allowed) ltac:(allowed) ltac:(allowed)
              w Hw) as [Hw' Hr].
  destruct (bounded_Human_turn (length (stdin w)) q w) as [Hfuel _]; [done|].
  unfold raises_only in Hr. rewrite Hrun in Hw', Hr, Hfuel. simpl in *.
  split; [done|].
  destruct r as [[]|e]; [by left|]. right.
  specialize (Hr e eq_refl).
  repeat (apply elem_of_cons in Hr as [->|Hr]; [auto|]).
  - done.
  - by apply elem_of_nil in Hr.
Qed.

(** ** The whole game at a well-kept table *)

Lemma province_pile_Human_turn q :
  keeps (fun w => current_player w = q /\ zone_in (BaseDeck 5) w)
    (Human_turn q).
Proof.
  apply (turn_Human_turn q).
  - by intros i w.
  - by intros f _ w [Hc Hn].
  - intros source target ids _ w [Hc Hn]. rewrite transfer_run. cbv zeta.
    destruct (remove_cards _ _) as [[tr|e] c']; cbn [snd].
    + destruct (zone_set_frame source c' w) as (Hc1 & _ & Hin1).
      destruct (zone_set_frame target
                  (add_cards tr (zone_get target (zone_set source c' w)))
                  (zone_set source c' w)) as (Hc2 & _ & Hin2).
      split; [congruence|]. by apply Hin2, Hin1.
    + destruct (zone_set_frame source c' w) as (Hc1 & _ & Hin1).
      split; [congruence|]. by apply Hin1.
  - intros w [Hc Hn]. unfold shuffle_at, modify. cbn [snd].
    destruct (shuffle _ _) as [c g].
    destruct (zone_set_frame (PlayerZone q Deck) c w) as (Hc1 & _ & Hin1).
    split; [exact (eq_trans Hc1 Hc)|]. by apply (Hin1 (BaseDeck 5)).
  - intros B h Hh. apply keeps_gets_bind. intros a (w & [Hc _] & Ha).
    by rewrite <- Ha, Hc.
Qed.

(** With the Province pile in place the end of the game can be checked. *)
Lemma check_end_game_total s :
  (5 < length (base_decks (base_supply s)))%nat ->
  exists ended, Supply_check_end_game s = Ok ended.
Proof.
  intros Hlen. unfold Supply_check_end_game. cbv zeta.
  destruct (2 <? _); [by eexists|].
  unfold Py.index. rewrite norm_index_nonneg by lia.
  destruct (lookup_lt_is_Some_2 (base_decks (base_supply s)) (Z.to_nat 5))
    as [province Hp]; [lia|].
  cbn [mbind option_bind]. rewrite Hp.
  destruct (num_cards province =? 0); by eexists.
Qed.

(** One turn of the game loop. *)
Lemma game_ok_turn q w :
  game_ok w -> valid q w ->
  game_ok (Human_turn q (set_current_player q w)).2 /\
  length (players (Human_turn q (set_current_player q w)).2)
  = length (players w) /\
  ((Human_turn q (set_current_player q w)).1 = Ok tt \/
   (Human_turn q (set_current_player q w)).1 = Raise DominionError \/
   (Human_turn q (set_current_player q w)).1 = Raise DominionQuitError \/
   (Human_turn q (set_current_player q w)).1 = Raise EOFError).
Proof.
  intros (Htidy & Hwf & Hp) Hv. set (w0 := set_current_player q w).
  assert (table_ok q w0) as Hw0 by done.
  destruct (fails_only_Human_turn q
              [DominionError; DominionQuitError; EOFError; OutOfFuel]
              ltac:(allowed) ltac:(allowed) ltac:(allowed) ltac:(allowed)
              w0 Hw0) as [(_ & _ & Htidy1 & Hwf1) Hr].
  destruct (bounded_Human_turn (length (stdin w0)) q w0) as [Hfuel _]; [done|].
  destruct (province_pile_Human_turn q w0) as [_ Hp1]; [done|].
  destruct (seated_Human_turn q (length (players w)) w0) as [_ Hn1]; [done|].
  split_and!; [done..|].
  unfold raises_only in Hr.
  destruct (Human_turn q w0).1 as [[]|e]; [by left|]. right.
  specialize (Hr e eq_refl).
  repeat (apply elem_of_cons in Hr as [->|Hr]; [auto|]).
  - done.
  - by apply elem_of_nil in Hr.
Qed.

(** One round of turns: it is finished, the game has ended (and then the
    supply says so), the game was left, or the round stops at a
    [TypeError] or at the end of the input. *)
Lemma play_round_at_table player_nums w r w' :
  game_ok w -> Forall (fun j => valid j w) player_nums ->
  play_round player_nums w = (r, w') ->
  game_ok w' /\
  (r = Ok RoundDone \/
   (r = Ok GameEnded /\ Supply_check_end_game (supply w') = Ok true) \/
   r = Ok GameLeft \/ r = Raise TypeError \/ r = Raise EOFError).
Proof.
  revert w. induction player_nums as [|j rest IH]; intros w Hw Hvalid Hrun.
  { injection Hrun as <- <-. split; [done|by left]. }
  apply Forall_cons in Hvalid as [Hj Hrest].
  rewrite play_round_step in Hrun. cbv zeta in Hrun.
  destruct (check_end_game_total (supply w)) as [ended Hended];
    [apply Hw|].
  rewrite Hended in Hrun. destruct ended.
  { injection Hrun as <- <-. split; [done|]. right. left. done. }
  destruct (game_ok_turn j w Hw Hj) as (Hw1 & Hn1 & Hr).
  destruct Hr as [Hr|[Hr|[Hr|Hr]]]; rewrite Hr in Hrun; simpl in Hrun.
  - apply IH in Hrun; [done|done|].
    eapply Forall_impl; [exact Hrest|]. intros k Hk. unfold valid in *. lia.
  - injection Hrun as <- <-. split; [done|]. do 3 right. by left.
  - injection Hrun as <- <-. split; [done|]. do 2 right. by left.
  - injection Hrun as <- <-. split; [done|]. do 4 right. done.
Qed.

Lemma play_rounds_at_table fuel turn w r w' :
  game_ok w ->
  play_rounds fuel turn w = (r, w') ->
  game_ok w' /\ length (players w') = length (players w) /\
  (r = Ok None \/
   (exists t, r = Ok (Some t) /\ Supply_check_end_game (supply w') = Ok true) \/
   r = Raise TypeError \/ r = Raise EOFError \/ r = Raise OutOfFuel).
Proof.
  revert turn w. induction fuel as [|fuel IH]; intros turn w Hw Hrun.
  { injection Hrun as <- <-. split_and!; [done|done|]. do 4 right. done. }
  cbn [play_rounds] in Hrun. rewrite bind_gets in Hrun. unfold bind in Hrun.
  pose proof (play_round_players (seq 0 (length (players w))) w) as Hn.
  destruct (play_round _ w) as [r1 w1] eqn:Hround. simpl in Hn.
  apply play_round_at_table in Hround as [Hw1 Hr1]; [|done|].
  2:{ apply Forall_forall. intros j Hj. apply elem_of_seq in Hj.
      unfold valid. lia. }
  destruct Hr1 as [-> | [[-> Hover] | [-> | [-> | ->]]]].
  - apply IH in Hrun as (? & ? & ?); [|done]. split_and!; [done|congruence|done].
  - injection Hrun as <- <-. split_and!; [done|done|]. right. left. by eexists.
  - injection Hrun as <- <-. split_and!; [done|done|]. by left.
  - injection Hrun as <- <-. split_and!; [done|done|]. do 2 right. by left.
  - injection Hrun as <- <-. split_and!; [done|done|]. do 3 right. by left.
Qed.

(** [Game.end_game] works on the players only. *)
Lemma supply_Player_end_game p : preserves supply (Player_end_game p).
Proof.
  assert (forall pz pz' ids,
            preserves supply
              (transfer (PlayerZone p pz) (PlayerZone p pz') ids)) as Ht.
  { intros. apply (preserves_transfer _ (fun z => exists pz, z = PlayerZone p pz));
      [|by eexists..].
    by intros z c w [pz0 ->]. }
  unfold Player_end_game.
  repeat (apply preserves_bind; [apply Ht|intros _]).
  by intros w.
Qed.

Lemma supply_finalize_players ps : preserves supply (finalize_players ps).
Proof.
  induction ps as [|p ps IH]; [done|]. simpl.
  apply preserves_bind; [apply supply_Player_end_game|]. intros _.
  apply preserves_bind; [apply preserves_gets|]. intros me.
  apply preserves_bind; [by apply IH|]. intros rest. apply preserves_ret.
Qed.

Lemma supply_Game_end_game : preserves supply Game_end_game.
Proof.
  unfold Game_end_game.
  apply preserves_bind; [apply preserves_gets|intros n].
  apply preserves_bind; [apply supply_finalize_players|intros scored].
  destruct (sorted_pairs_reverse scored) as [[|? ?]|e]; done.
Qed.

(** With well-kept containers every player can be finalized. *)
Lemma finalize_players_Ok ps w :
  Forall player_ok (players w) -> Forall (fun p => valid p w) ps ->
  exists scored w',
    finalize_players ps w = (Ok scored, w') /\ length scored = length ps.
Proof.
  revert w. induction ps as [|p ps IH]; intros w Htidy Hvalid.
  { by exists [], w. }
  apply Forall_cons in Hvalid as [Hp Hps]. simpl.
  pose proof (tidy_zone_get p Deck w Htidy) as Hd.
  pose proof (tidy_zone_get p Hand w Htidy) as Hh.
  pose proof (tidy_zone_get p DiscardPile w Htidy) as Hdp.
  pose proof (tidy_zone_get p PlayMat w Htidy) as Hm.
  destruct (Player_end_game_run p w Hp) as (all & _ & Hrun); [done|].
  set (w1 := put_player p _ w) in Hrun.
  unfold bind at 1. rewrite Hrun. rewrite bind_gets.
  destruct (IH w1) as (scored & w' & Hrest & Hlen).
  - unfold w1, put_player. simpl. apply Forall_insert; [done|].
    split_and!; try apply zone_ok_refresh; try done;
      first [apply Hd | apply Hh | apply Hdp | apply Hm].
  - eapply Forall_impl; [exact Hps|]. intros k Hk. by apply valid_put.
  - unfold bind at 1. rewrite Hrest. eexists _, _. split; [done|].
    simpl. by rewrite Hlen.
Qed.

Lemma end_game_at_table w r w' :
  Forall player_ok (players w) -> players w <> [] ->
  Game_end_game w = (r, w') ->
  supply w' = supply w /\ ((exists outcome, r = Ok outcome) \/ r = Raise TypeError).
Proof.
  intros Htidy Hps Hrun. split.
  { pose proof (supply_Game_end_game w) as H. by rewrite Hrun in H. }
  unfold Game_end_game in Hrun. rewrite bind_gets in Hrun.
  destruct (finalize_players_Ok (seq 0 (length (players w))) w Htidy)
    as (scored & w1 & Hfin & Hlen).
  { apply Forall_forall. intros j Hj. apply elem_of_seq in Hj.
    unfold valid. lia. }
  unfold bind at 1 in Hrun. rewrite Hfin in Hrun.
  destruct (sorted_pairs_reverse scored) as [ranked|e] eqn:Hsort.
  - apply sorted_pairs_reverse_spec in Hsort as [_ Hperm].
    destruct ranked as [|x ranked].
    + apply Permutation_length in Hperm. rewrite Hlen, length_seq in Hperm.
      destruct (players w); done.
    + injection Hrun as <- <-. left. by eexists.
  - apply sorted_pairs_reverse_raises in Hsort as ->.
    injection Hrun as <- <-. by right.
Qed.

(** X18: a game that starts at a well-kept table with at least one player
    ends in one of four ways.  It is left by quit, without any score; it
    is scored, and then the supply says that the game has ended; it stops
    with [TypeError] (a [DominionError] of a turn reaches the handler in
    [play_game] that adds the exception to a string, or two players have
    the same score in [end_game]); or it stops with [EOFError] at the end
    of the console input.  No [DominionError], no quit or pass signal and
    no [IndexError] leaves [Game.play_game]. *)
Theorem game_fails_in_two_ways (w : World)
  (r : result (option (list Z * list Z * list nat))) (w' : World) :
  players w <> [] -> game_ok w ->
  Game_play_game w = (r, w') ->
  r = Ok None \/
  (exists outcome, r = Ok (Some outcome) /\
                   Supply_check_end_game (supply w') = Ok true) \/
  r = Raise TypeError \/ r = Raise EOFError.
Proof.
  intros Hps Hw Hrun. unfold Game_play_game in Hrun.
  rewrite bind_gets in Hrun. unfold bind at 1 in Hrun.
  pose proof (play_rounds_first (S (length (stdin w))) 0 w Hps) as Hfuel.
  destruct (play_rounds _ 0 w) as [r1 w1] eqn:Hrounds.
  apply play_rounds_at_table in Hrounds as (Hw1 & Hn1 & Hr1); [|done].
  simpl in Hfuel.
  destruct Hr1 as [-> | [(t & -> & Hover) | [-> | [-> | ->]]]].
  - injection Hrun as <- <-. by left.
  - unfold bind in Hrun.
    destruct (Game_end_game w1) as [r2 w2] eqn:Hend.
    apply end_game_at_table in Hend as [Hsupply [[outcome ->] | ->]];
      [| |apply Hw1|].
    + injection Hrun as <- <-. right. left. exists outcome.
      split; [done|]. by rewrite Hsupply.
    + injection Hrun as <- <-. do 2 right. by left.
    + intros Hnil. rewrite Hnil in Hn1. by destruct (players w).
  - injection Hrun as <- <-. do 2 right. by left.
  - injection Hrun as <- <-. do 3 right. done.
  - destruct Hfuel; [lia|done].
Qed.

(** ** The statements at work on the example states *)




(** C3, as stated, fails.  Cy, who holds five cards and no Moat, answers
    Pass to the attack and is asked again: the next two answers discard
    two cards and the resolution ends with three cards in hand.  With no
    answer after the Pass the resolution does not end normally. *)
Lemma militia_pass_then_discards :
  (3 < length (cards (hand (player_at 2
         (example_table [Copper] [RPass; RInt 0; RInt 0])))))%nat /\
  (Militia_attack 2 (example_table [Copper] [RPass; RInt 0; RInt 0])).1
  = Ok tt /\
  cards (hand (player_at 2
    (Militia_attack 2 (example_table [Copper] [RPass; RInt 0; RInt 0])).2))
  = [Copper; Estate; Copper] /\
  stdin (Militia_attack 2 (example_table [Copper] [RPass; RInt 0; RInt 0])).2
  = [] /\
  (Militia_attack 2 (example_table [Copper] [RPass])).1 = Raise EOFError.
Proof. split_and!; try (by vm_compute). simpl. lia. Qed.

Lemma militia_pass_is_ignored_witness :
  Militia_attack 2 (example_table [Copper] [RPass; RInt 0; RInt 0])
  = Militia_attack 2 (example_table [Copper] [RInt 0; RInt 0]).
Proof.
  apply (militia_pass_is_ignored 2 [RInt 0; RInt 0]
           (example_table [Copper] [RPass; RInt 0; RInt 0])).
  - unfold valid. simpl. lia.
  - by split_and!.
  - apply (bool_decide_unpack _). by vm_compute.
  - simpl. lia.
  - done.
Defined.

Lemma check_end_game_iff_witness :
  Supply_check_end_game example_supply
  = Ok (bool_decide ((3 <= empty_piles example_supply)%nat
                     \/ cards (CardDeck Province 8) = [])).
Proof.
  apply check_end_game_iff.
  - split; [done|]. unfold all_piles. simpl.
    repeat (apply Forall_cons_2; [by split|]). apply Forall_nil_2.
  - done.
Defined.

Lemma draw_checks_once_then_draws_witness :
  exists w' drawn,
    Player_draw 0 (Z.of_nat 4) example_draw = (Ok tt, w') /\
    cards (hand (player_at 0 w'))
    = cards (hand (player_at 0 example_draw)) ++ drawn /\
    length drawn = 4%nat /\
    cards (discard_pile (player_at 0 w')) = [].
Proof.
  destruct (draw_checks_once_then_draws 0 4 example_draw) as [_ Hdraw].
  - unfold valid. simpl. lia.
  - by split_and!.
  - destruct Hdraw as (w' & drawn & Hrun & Hhand & Hlen & _ & _ & _ & Hre & _).
    { simpl. lia. }
    exists w', drawn. split_and!; try done.
    apply Hre. simpl. lia.
Defined.

Lemma festival_decrement_then_effect_witness :
  exists w',
    Human_action 0 (example_table [Festival; Copper] [RInt 0]) = (Ok tt, w') /\
    actions (player_at 0 w') = 2 /\
    buys (player_at 0 w') = 2 /\
    turn_coins (player_at 0 w') = 2.
Proof.
  destruct (festival_decrement_then_effect 0 0 []
              (example_table [Festival; Copper] [RInt 0]))
    as (_ & _ & w' & Hrun & _ & _ & _ & _ & _ & _ & H222).
  - unfold valid. simpl. lia.
  - done.
  - by split_and!.
  - simpl. lia.
  - done.
  - done.
  - exists w'. split; [done|]. by apply H222.
Defined.

Lemma buy_rejected_when_too_expensive_witness :
  buy_prompt 0 [RInt 5; RPass] (example_table [Copper; Copper] [RInt 5; RPass])
  = buy_prompt 0 [RPass]
      (set_stdin [RPass] (example_table [Copper; Copper] [RInt 5; RPass])).
Proof.
  apply (buy_rejected_when_too_expensive 0 5 [RPass] _ (BaseDeck 5) Province).
  - apply identifies_base; [|done].
    apply (bool_decide_unpack _). by vm_compute.
  - done.
  - simpl. lia.
Defined.

Lemma setup_pile_and_deck_sizes_witness :
  exists b copper,
    Base_init 2 = Ok b /\
    base_decks b !! 0%nat = Some copper /\
    num_cards copper = 46.
Proof.
  destruct (setup_pile_and_deck_sizes 2 "Ann" (example_world [] []))
    as [(b & Hb & _ & _ & H46) _]; [lia|].
  destruct (H46 eq_refl) as (copper & Hc & Hn).
  by exists b, copper.
Defined.

(** C10, as stated, fails.  Ann plays Workshop and declines the gain: the
    Pass leaves the effect, the action phase ends, and Workshop is still
    on the play mat when the buy phase is over.  The transfer of cleanup
    then moves it to the discard pile. *)
Lemma workshop_stays_on_play_mat :
  ((Human_action_phase 0 >> Human_buy_phase 0) example_workshop).1 = Ok tt /\
  cards (play_mat (player_at 0
           ((Human_action_phase 0 >> Human_buy_phase 0) example_workshop).2))
  = [Workshop] /\
  (Human_turn 0 example_workshop).1 = Ok tt /\
  cards (discard_pile (player_at 0 (Human_turn 0 example_workshop).2))
  = [Silver; Gold; Copper; Workshop; Copper] /\
  cards (play_mat (player_at 0 (Human_turn 0 example_workshop).2)) = [].
Proof. split_and!; by vm_compute. Qed.

Lemma play_mat_through_the_turn_witness :
  action_outcome 0 [] example_workshop
    (Human_action 0 example_workshop).1 (Human_action 0 example_workshop).2.
Proof.
  destruct (play_mat_through_the_turn 0 example_workshop) as [Hact _].
  - by exists empty_container.
  - apply Hact. by destruct (Human_action 0 example_workshop).
Defined.

Lemma remove_cards_moves_cards_witness :
  length [Gold; Copper] = length [0; 2 : Z] /\
  [Gold; Copper] ++ cards (CardContainer_init [Estate] 0)
    ≡ₚ cards (CardContainer_init [Copper; Estate; Gold] 0) /\
  container_ok (CardContainer_init [Estate] 0) /\
  id_start (CardContainer_init [Estate] 0)
  = id_start (CardContainer_init [Copper; Estate; Gold] 0).
Proof.
  apply (remove_cards_moves_cards [0; 2]
           (CardContainer_init [Copper; Estate; Gold] 0)).
  reflexivity.
Defined.


Lemma shuffle_keeps_the_cards_witness :
  container_ok (shuffle (CardContainer_init [Copper; Estate; Gold] 0) [1; 0]%nat).1.
Proof.
  destruct (shuffle_keeps_the_cards
              (CardContainer_init [Copper; Estate; Gold] 0) [1; 0]%nat)
    as (_ & _ & _ & _ & H & _).
  apply H. done.
Defined.

Lemma base_supply_needs_copper_witness :
  Supply_init 9 = Raise IndexError /\
  exists b, Base_init 2 = Ok b /\
            base_identifiers b = [0; 1; 2; 3; 4; 5].
Proof.
  split.
  - apply (base_supply_needs_copper 9). lia.
  - destruct (proj2 (base_supply_needs_copper 2)) as (b & Hb & _ & Hi & _);
      [lia|]. by exists b.
Defined.

Lemma example_supply_wf : supply_wf example_supply.
Proof.
  split_and!; [|done|done].
  unfold piles_ok, all_piles. simpl.
  repeat (apply Forall_cons; split; [apply zone_ok_init|]).
  apply Forall_nil_2.
Qed.





Lemma cellar_redraws_what_was_discarded_witness :
  effect_outcome (Cellar_action example_cellar).1 /\
  actions (player_at 0 (Cellar_action example_cellar).2)
  = actions (player_at 0 example_cellar) + 1.
Proof.
  destruct (cellar_redraws_what_was_discarded example_cellar
              (Cellar_action example_cellar).1 (Cellar_action example_cellar).2)
    as (Hout & Hact & _).
  - unfold valid. simpl. lia.
  - by split_and!.
  - by destruct (Cellar_action example_cellar).
  - by split.
Defined.

(** Ann's eight cards give a new hand; three cards give none. *)
Lemma cleanup_deals_a_new_hand_witness :
  (Player_cleanup 0 example_buy).1 = Ok tt /\
  Player_cleanup 0 example_short
  = (Raise DominionError,
     put_player 0 (swept (player_at 0 example_short)) example_short).
Proof.
  split.
  - destruct (cleanup_deals_a_new_hand 0 example_buy
                (Player_cleanup 0 example_buy).1
                (Player_cleanup 0 example_buy).2) as (_ & H).
    + unfold valid. simpl. lia.
    + by split_and!.
    + by destruct (Player_cleanup 0 example_buy).
    + apply H. simpl. lia.
  - destruct (cleanup_deals_a_new_hand 0 example_short
                (Player_cleanup 0 example_short).1
                (Player_cleanup 0 example_short).2) as (H & _).
    + unfold valid. simpl. lia.
    + by split_and!.
    + by destruct (Player_cleanup 0 example_short).
    + destruct H as [H1 H2]; [simpl; lia|].
      by rewrite (surjective_pairing (Player_cleanup 0 example_short)), H1, H2.
Defined.

(** Ann's pass at the prompt of her Workshop ends the action phase; her
    one buy is spent on the Silver. *)
Lemma phases_use_up_the_points_witness :
  actions (player_at 0 (Human_action_phase 0 example_workshop).2) <= 0 /\
  buys (player_at 0 (Human_buy_phase 0 example_buy).2) <= 0.
Proof.
  split.
  - destruct (phases_use_up_the_points 0 example_workshop
                (Human_action_phase 0 example_workshop).1
                (Human_action_phase 0 example_workshop).2) as [H _].
    destruct H as [_ H]; [by destruct (Human_action_phase 0 example_workshop)|].
    apply H. reflexivity.
  - destruct (phases_use_up_the_points 0 example_buy
                (Human_buy_phase 0 example_buy).1
                (Human_buy_phase 0 example_buy).2) as [_ H].
    destruct H as [_ H]; [by destruct (Human_buy_phase 0 example_buy)|].
    apply H. reflexivity.
Defined.

Lemma new_supply_is_well_formed_witness :
  supply_wf example_supply /\ Supply_check_end_game example_supply = Ok false.
Proof.
  destruct (new_supply_is_well_formed 2 example_supply)
    as (H1 & _ & _ & _ & _ & _ & _ & _ & H2); [reflexivity|by split].
Defined.

(** Cy has lost cards of the hand to the discard pile, and nothing else. *)
Lemma turn_leaves_the_others_be_witness :
  player_at 2 (Human_turn 0 example_militia_turn).2
  = set_discard_pile
      (discard_pile (player_at 2 (Human_turn 0 example_militia_turn).2))
      (set_hand (hand (player_at 2 (Human_turn 0 example_militia_turn).2))
         (player_at 2 example_militia_turn)) /\
  length (cards (hand (player_at 2 (Human_turn 0 example_militia_turn).2)))
  = 3%nat.
Proof.
  split; [|reflexivity].
  apply (turn_leaves_the_others_be 0 2 example_militia_turn
           (Human_turn 0 example_militia_turn).1).
  - reflexivity.
  - lia.
  - by destruct (Human_turn 0 example_militia_turn).
Defined.

Lemma example_table_tidy ann_hand ins :
  Forall player_ok (players (example_table ann_hand ins)).
Proof.
  repeat (apply Forall_cons; split; [by split_and!|]). apply Forall_nil_2.
Qed.

Lemma turn_conserves_the_cards_witness :
  census (Human_turn 0 example_militia_turn).2 ≡ₚ census example_militia_turn.
Proof.
  apply (turn_conserves_the_cards 0 example_militia_turn
           (Human_turn 0 example_militia_turn).1).
  - reflexivity.
  - unfold valid. simpl. lia.
  - apply example_table_tidy.
  - by destruct (Human_turn 0 example_militia_turn).
Defined.

Lemma game_ends_with_a_player_witness :
  (Game_play_game example_militia_turn).1 <> Raise OutOfFuel /\
  play_rounds 3 0 (example_world [] [RPass])
  = (Raise OutOfFuel, example_world [] [RPass]).
Proof.
  split.
  - by apply (game_ends_with_a_player example_militia_turn).
  - by apply (game_ends_with_a_player (example_world [] [RPass])).
Defined.

Lemma example_table_ok ann_hand ins : table_ok 0 (example_table ann_hand ins).
Proof.
  split_and!; [done|unfold valid; simpl; lia|apply example_table_tidy|].
  apply example_supply_wf.
Qed.

Lemma turn_fails_in_three_ways_witness :
  table_ok 0 (Human_turn 0 example_militia_turn).2 /\
  ((Human_turn 0 example_militia_turn).1 = Ok tt \/
   (Human_turn 0 example_militia_turn).1 = Raise DominionError \/
   (Human_turn 0 example_militia_turn).1 = Raise DominionQuitError \/
   (Human_turn 0 example_militia_turn).1 = Raise EOFError).
Proof.
  apply (turn_fails_in_three_ways 0 example_militia_turn).
  - apply example_table_ok.
  - by destruct (Human_turn 0 example_militia_turn).
Defined.

Lemma game_fails_in_two_ways_witness :
  (Game_play_game example_militia_turn).1 = Ok None \/
  (exists outcome,
     (Game_play_game example_militia_turn).1 = Ok (Some outcome) /\
     Supply_check_end_game (supply (Game_play_game example_militia_turn).2)
     = Ok true) \/
  (Game_play_game example_militia_turn).1 = Raise TypeError \/
  (Game_play_game example_militia_turn).1 = Raise EOFError.
Proof.
  apply (game_fails_in_two_ways example_militia_turn).
  - done.
  - split_and!; [apply example_table_tidy|apply example_supply_wf|].
    simpl. lia.
  - by destruct (Game_play_game example_militia_turn).
Defined.
